(** * nova.py: the SteelSeries Arctis Nova Pro Wireless ChatMix controller

    A shallow embedding of [src/nova.py] (class [NovaProWireless]) and the
    properties of its message builder, its sink life cycle and its read
    loops.

    Python integers are [Z]; a [bytes] object or a USB [array('B')] is a
    [list Z] whose elements are in [0, 256); [str] is [string]; a Python
    [float] is a binary64 primitive float.  Methods that touch the object,
    the USB device or the audio server are computations in the monad [M],
    which threads the whole world and carries Python exceptions.

    The constructor [__init__] and the script part (the signal handlers
    that call [close] from outside the loop) are not part of the model. *)

From Stdlib Require Import String Ascii.
From Stdlib Require Import ZArith List Bool Lia.
From Stdlib Require Import Floats.PrimFloat.
Import ListNotations.
Open Scope string_scope.
Open Scope list_scope.
Open Scope Z_scope.

(** ** Python values and exceptions *)

Module Py.

(** The exception classes the program meets.  In pyusb [USBTimeoutError]
    is a subclass of [USBError]; [is_USBError] is that [isinstance] test. *)
Inductive exn : Type :=
| ValueError
| IndexError
| UnboundLocalError
| USBTimeoutError
| USBError
| PulseError.

Definition is_USBError (e : exn) : bool :=
  match e with USBTimeoutError | USBError => true | _ => false end.

Definition is_USBTimeoutError (e : exn) : bool :=
  match e with USBTimeoutError => true | _ => false end.

Definition is_PulseError (e : exn) : bool :=
  match e with PulseError => true | _ => false end.

Inductive result (A : Type) : Type :=
| Ok (a : A)
| Raise (e : exn).
Arguments Ok {A} a.
Arguments Raise {A} e.

(** [range(0, 256)] *)
Definition is_byte (x : Z) : bool := (0 <=? x) && (x <? 256).

(** [bytes(data)] for a tuple of ints: [ValueError] unless every element
    is in [range(0, 256)]. *)
Definition bytes (data : list Z) : result (list Z) :=
  if forallb is_byte data then Ok data else Raise ValueError.

(** [b.ljust(width, fill)]: [b] itself when [width <= len(b)]. *)
Definition ljust (b : list Z) (width : Z) (fill : Z) : list Z :=
  b ++ repeat fill (Z.to_nat (width - Z.of_nat (length b))).

(** The one-byte literal [b"0"]: the ASCII digit zero. *)
Definition b_0 : Z := Z.of_nat (nat_of_ascii "0"%char).

(** [int(state)] for a bool. *)
Definition int_of_bool (b : bool) : Z := if b then 1 else 0.

(** [msg[i]] on a sequence, for [i >= 0]. *)
Definition getitem (msg : list Z) (i : nat) : result Z :=
  match nth_error msg i with
  | Some x => Ok x
  | None => Raise IndexError
  end.

(** [needle in haystack] on [str]. *)
Fixpoint str_in (needle haystack : string) : bool :=
  String.prefix needle haystack
  || match haystack with
     | EmptyString => false
     | String _ rest => str_in needle rest
     end.

(** Truth value of an optional [str]: [None] and the empty string are
    false. *)
Definition truthy (o : option string) : bool :=
  match o with
  | None => false
  | Some EmptyString => false
  | Some (String _ _) => true
  end.

(** [f"{x}"] for an optional [str]. *)
Definition format_opt (o : option string) : string :=
  match o with
  | None => "None"
  | Some s => s
  end.

(** [float(z)]; exact for every integer below [2^53] in absolute value. *)
Fixpoint float_of_pos (p : positive) : float :=
  match p with
  | xH => 1%float
  | xO q => PrimFloat.mul 2%float (float_of_pos q)
  | xI q => PrimFloat.add (PrimFloat.mul 2%float (float_of_pos q)) 1%float
  end.

Definition float_of_int (z : Z) : float :=
  match z with
  | Z0 => 0%float
  | Zpos p => float_of_pos p
  | Zneg p => PrimFloat.opp (float_of_pos p)
  end.

(** The literal [0.01]: the binary64 value nearest to one hundredth. *)
Definition lit_0_01 : float := 0x1.47ae147ae147bp-7%float.

(** [z * 0.01] with an int on the left. *)
Definition int_mul_0_01 (z : Z) : float :=
  PrimFloat.mul (float_of_int z) lit_0_01.

(** [z / 2] (true division) with ints on both sides. *)
Definition int_truediv_2 (z : Z) : float :=
  PrimFloat.div (float_of_int z) 2%float.

End Py.
Import Py.

(** ** Class constants *)

Definition HEADSET_NAME : string := "SteelSeries_Arctis_Nova_Pro_Wireless".

Definition ENDPOINT_TX : Z := 0x4.
Definition ENDPOINT_RX : Z := 0x84.

Definition MSGLEN : Z := 64.

Definition TX : Z := 0x6.
Definition RX : Z := 0x7.

Definition OPT_SONAR_ICON : Z := 141.
Definition OPT_CHATMIX_ENABLE : Z := 73.
Definition OPT_VOLUME : Z := 37.
Definition OPT_CHATMIX : Z := 69.
Definition OPT_EQ : Z := 49.
Definition OPT_EQ_PRESET : Z := 46.

Definition PW_GAME_SINK : string := "NovaGame".
Definition PW_CHAT_SINK : string := "NovaChat".

(** ** The message builder *)

(** [bytes(data).ljust(self.MSGLEN, b"0")] *)
Definition _create_msgdata (data : list Z) : result (list Z) :=
  match bytes data with
  | Ok b => Ok (ljust b MSGLEN b_0)
  | Raise e => Raise e
  end.

(** Every caller passes [(self.TX, opcode, payload...)]: the encode
    operation of the protocol. *)
Definition encode (opcode : Z) (payload : list Z) : result (list Z) :=
  _create_msgdata (TX :: opcode :: payload).

(** ** The audio server (pulsectl)

    The part of a PulseAudio / PipeWire server the program talks to: the
    loaded modules, the sinks, and which requests the server refuses (a
    refused request raises [pulsectl.PulseError]).  [connect_faults] is
    what the next connections of the [virtual-sink] and [volume-control]
    clients will meet, in order: [true] for a connection that fails; once
    it is used up every connection succeeds. *)

Module Pulse.

Record module_info : Type := {
  index : Z;
  name : string;
  argument : string
}.

Record sink_info : Type := {
  sink_index : Z;
  sink_name : string;
  owner_module : Z;
  volume : float
}.

Record server : Type := {
  modules : list module_info;
  sinks : list sink_info;
  next_module : Z;               (* index of the next module loaded *)
  next_sink : Z;                 (* index of the next sink created *)
  load_refused : list string;    (* module arguments the server rejects *)
  volume_refused : list Z;       (* sink indexes whose volume cannot be set *)
  connect_faults : list bool;    (* the next connections: does it fail? *)
  module_list_refused : bool;    (* module_list() raises *)
  unload_refused : list Z        (* module indexes that cannot be unloaded *)
}.

Definition mem_string (s : string) (l : list string) : bool :=
  existsb (String.eqb s) l.

Definition mem_Z (z : Z) (l : list Z) : bool :=
  existsb (Z.eqb z) l.

(** Characters of [s] up to the first space. *)
Fixpoint first_word (s : string) : string :=
  match s with
  | EmptyString => EmptyString
  | String c rest =>
      if Ascii.eqb c " "%char then EmptyString else String c (first_word rest)
  end.

Fixpoint drop_prefix (p s : string) : option string :=
  match p, s with
  | EmptyString, _ => Some s
  | String a p', String b s' =>
      if Ascii.eqb a b then drop_prefix p' s' else None
  | String _ _, EmptyString => None
  end.

(** The name a combine sink gets: its [sink_name=] argument, which the
    program writes first. *)
Definition sink_name_of_argument (args : string) : string :=
  match drop_prefix "sink_name=" args with
  | Some rest => first_word rest
  | None => EmptyString
  end.

(** [pulse.module_load(name, args)]: the new module's index, or
    [PulseError].  A loaded combine sink module owns one new sink. *)
Definition module_load (nm args : string) (p : server)
  : result Z * server :=
  if mem_string args (load_refused p) then (Raise PulseError, p)
  else
    (Ok (next_module p),
     {| modules := modules p ++ [ {| index := next_module p;
                                    name := nm;
                                    argument := args |} ];
        sinks := sinks p ++ [ {| sink_index := next_sink p;
                                sink_name := sink_name_of_argument args;
                                owner_module := next_module p;
                                volume := 1%float |} ];
        next_module := next_module p + 1;
        next_sink := next_sink p + 1;
        load_refused := load_refused p;
        volume_refused := volume_refused p;
        connect_faults := connect_faults p;
        module_list_refused := module_list_refused p;
        unload_refused := unload_refused p |}).

(** The server after an accepted [pulse.module_unload(index)]: the module
    goes, and its sinks with it. *)
Definition module_unload (i : Z) (p : server) : server :=
  {| modules := filter (fun m => negb (index m =? i)) (modules p);
     sinks := filter (fun s => negb (owner_module s =? i)) (sinks p);
     next_module := next_module p;
     next_sink := next_sink p;
     load_refused := load_refused p;
     volume_refused := volume_refused p;
     connect_faults := connect_faults p;
     module_list_refused := module_list_refused p;
     unload_refused := unload_refused p |}.

(** The server once the next connection has been made or has failed. *)
Definition connected (rest : list bool) (p : server) : server :=
  {| modules := modules p;
     sinks := sinks p;
     next_module := next_module p;
     next_sink := next_sink p;
     load_refused := load_refused p;
     volume_refused := volume_refused p;
     connect_faults := rest;
     module_list_refused := module_list_refused p;
     unload_refused := unload_refused p |}.

Definition with_volume (v : float) (s : sink_info) : sink_info :=
  {| sink_index := sink_index s;
     sink_name := sink_name s;
     owner_module := owner_module s;
     volume := v |}.

(** What a volume change on [target] makes of sink [s]: the server
    addresses the sink by its index. *)
Definition retune (target : sink_info) (v : float) (s : sink_info)
  : sink_info :=
  if sink_index s =? sink_index target then with_volume v s else s.

(** [pulse.volume_set_all_chans(target, v)] *)
Definition volume_set_all_chans (target : sink_info) (v : float) (p : server)
  : result unit * server :=
  if mem_Z (sink_index target) (volume_refused p) then (Raise PulseError, p)
  else
    (Ok tt,
     {| modules := modules p;
        sinks := map (retune target v) (sinks p);
        next_module := next_module p;
        next_sink := next_sink p;
        load_refused := load_refused p;
        volume_refused := volume_refused p;
        connect_faults := connect_faults p;
        module_list_refused := module_list_refused p;
        unload_refused := unload_refused p |}).

(** [sink.owner_module == module_id], where [module_id] may be [None]. *)
Definition owned_by (module_id : option Z) (s : sink_info) : bool :=
  match module_id with
  | Some m => owner_module s =? m
  | None => false
  end.

End Pulse.

(** ** The USB device (pyusb)

    [rx_pending] is what the next calls of [dev.read] will meet, in order;
    once it is used up the device stays silent and every read times out.
    [tx_log] records the transfers [dev.write] has made, latest last.
    [tx_outcomes] is what the next calls of [dev.write] will meet, in
    order; once it is used up every write goes through. *)

Module Usb.

Inductive read_outcome : Type :=
| RxData (msg : list Z)   (* an array of at most MSGLEN bytes *)
| RxTimeout               (* raises USBTimeoutError *)
| RxError.                (* raises another USBError, e. g. on unplugging *)

Inductive write_outcome : Type :=
| TxDone                  (* the transfer is made *)
| TxTimeout               (* raises USBTimeoutError *)
| TxError.                (* raises another USBError, e. g. on unplugging *)

Record device : Type := {
  rx_pending : list read_outcome;
  tx_log : list (Z * list Z);
  tx_outcomes : list write_outcome
}.

End Usb.

(** ** Standard output: one entry per [print] call *)

Inductive output : Type :=
| PrintRaw (msg : list Z)                 (* print(msg) *)
| PrintVolume (attenuation : Z)           (* "Volume: -{msg[2]}" *)
| PrintChatMix (game chat : Z)            (* "Game Volume: .. - Chat Volume: .." *)
| PrintEQ (bar : Z) (value : float)       (* "EQ: Bar: .. - Value: .." *)
| PrintEQPreset (preset : Z)              (* "EQ Preset: .." *)
| PrintUnknown                            (* "Unknown Message" *)
| PrintCreateFailed (sink : string)       (* "Failed to create sink '..': .." *)
| PrintSinkNotFound (module_id : option Z) (* "Sink '..' not found" *)
| PrintVolumeFailed                       (* "Failed to set volume: .." *)
| PrintDisconnected.                      (* "Device was probably disconnected, exiting.." *)

(** ** The object and the world around it *)

(** The mutable attributes of [NovaProWireless], with the class defaults. *)
Record NovaProWireless : Type := {
  PW_ORIGINAL_SINK : option string;
  PW_LOOPBACK_GAME_MODULE_ID : option Z;
  PW_LOOPBACK_CHAT_MODULE_ID : option Z;
  CHATMIX_CONTROLS_ENABLED : bool;
  SONAR_ICON_ENABLED : bool;
  CLOSE : bool
}.

Definition class_defaults : NovaProWireless :=
  {| PW_ORIGINAL_SINK := None;
     PW_LOOPBACK_GAME_MODULE_ID := None;
     PW_LOOPBACK_CHAT_MODULE_ID := None;
     CHATMIX_CONTROLS_ENABLED := false;
     SONAR_ICON_ENABLED := false;
     CLOSE := false |}.

Record World : Type := {
  self : NovaProWireless;
  dev : Usb.device;
  pulse : Pulse.server;
  stdout : list output
}.

Definition with_self (o : NovaProWireless) (w : World) : World :=
  {| self := o; dev := dev w; pulse := pulse w; stdout := stdout w |}.

Definition with_dev (d : Usb.device) (w : World) : World :=
  {| self := self w; dev := d; pulse := pulse w; stdout := stdout w |}.

Definition with_pulse (p : Pulse.server) (w : World) : World :=
  {| self := self w; dev := dev w; pulse := p; stdout := stdout w |}.

(** Computations: a result or an exception, and the world as it is left. *)
Definition M (A : Type) : Type := World -> result A * World.

Definition ret {A} (a : A) : M A := fun w => (Ok a, w).

Definition raise {A} (e : exn) : M A := fun w => (Raise e, w).

Definition bind {A B} (c : M A) (k : A -> M B) : M B :=
  fun w =>
    match c w with
    | (Ok a, w') => k a w'
    | (Raise e, w') => (Raise e, w')
    end.

(** [try: c  except E: h], with [handles] the [isinstance] test of [E]. *)
Definition try_except {A} (c : M A) (handles : exn -> bool) (h : M A) : M A :=
  fun w =>
    match c w with
    | (Ok a, w') => (Ok a, w')
    | (Raise e, w') => if handles e then h w' else (Raise e, w')
    end.

Definition lift {A} (r : result A) : M A := fun w => (r, w).

Declare Scope nova_scope.
Delimit Scope nova_scope with nova.
Notation "x <- c ;; k" := (bind c (fun x => k))
  (at level 61, c at next level, right associativity) : nova_scope.
Notation "c ;; k" := (bind c (fun _ => k))
  (at level 61, right associativity) : nova_scope.
Open Scope nova_scope.

Definition get_self : M NovaProWireless := fun w => (Ok (self w), w).

Definition modify_self (f : NovaProWireless -> NovaProWireless) : M unit :=
  fun w => (Ok tt, with_self (f (self w)) w).

Definition print (o : output) : M unit :=
  fun w => (Ok tt, {| self := self w; dev := dev w; pulse := pulse w;
                      stdout := stdout w ++ [o] |}).

(** Attribute assignments [self.X = v]. *)
Definition set_PW_ORIGINAL_SINK (v : option string) : M unit :=
  modify_self (fun o =>
    {| PW_ORIGINAL_SINK := v;
       PW_LOOPBACK_GAME_MODULE_ID := PW_LOOPBACK_GAME_MODULE_ID o;
       PW_LOOPBACK_CHAT_MODULE_ID := PW_LOOPBACK_CHAT_MODULE_ID o;
       CHATMIX_CONTROLS_ENABLED := CHATMIX_CONTROLS_ENABLED o;
       SONAR_ICON_ENABLED := SONAR_ICON_ENABLED o;
       CLOSE := CLOSE o |}).

Definition set_PW_LOOPBACK_GAME_MODULE_ID (v : option Z) : M unit :=
  modify_self (fun o =>
    {| PW_ORIGINAL_SINK := PW_ORIGINAL_SINK o;
       PW_LOOPBACK_GAME_MODULE_ID := v;
       PW_LOOPBACK_CHAT_MODULE_ID := PW_LOOPBACK_CHAT_MODULE_ID o;
       CHATMIX_CONTROLS_ENABLED := CHATMIX_CONTROLS_ENABLED o;
       SONAR_ICON_ENABLED := SONAR_ICON_ENABLED o;
       CLOSE := CLOSE o |}).

Definition set_PW_LOOPBACK_CHAT_MODULE_ID (v : option Z) : M unit :=
  modify_self (fun o =>
    {| PW_ORIGINAL_SINK := PW_ORIGINAL_SINK o;
       PW_LOOPBACK_GAME_MODULE_ID := PW_LOOPBACK_GAME_MODULE_ID o;
       PW_LOOPBACK_CHAT_MODULE_ID := v;
       CHATMIX_CONTROLS_ENABLED := CHATMIX_CONTROLS_ENABLED o;
       SONAR_ICON_ENABLED := SONAR_ICON_ENABLED o;
       CLOSE := CLOSE o |}).

Definition set_CHATMIX_CONTROLS_ENABLED (v : bool) : M unit :=
  modify_self (fun o =>
    {| PW_ORIGINAL_SINK := PW_ORIGINAL_SINK o;
       PW_LOOPBACK_GAME_MODULE_ID := PW_LOOPBACK_GAME_MODULE_ID o;
       PW_LOOPBACK_CHAT_MODULE_ID := PW_LOOPBACK_CHAT_MODULE_ID o;
       CHATMIX_CONTROLS_ENABLED := v;
       SONAR_ICON_ENABLED := SONAR_ICON_ENABLED o;
       CLOSE := CLOSE o |}).

Definition set_SONAR_ICON_ENABLED (v : bool) : M unit :=
  modify_self (fun o =>
    {| PW_ORIGINAL_SINK := PW_ORIGINAL_SINK o;
       PW_LOOPBACK_GAME_MODULE_ID := PW_LOOPBACK_GAME_MODULE_ID o;
       PW_LOOPBACK_CHAT_MODULE_ID := PW_LOOPBACK_CHAT_MODULE_ID o;
       CHATMIX_CONTROLS_ENABLED := CHATMIX_CONTROLS_ENABLED o;
       SONAR_ICON_ENABLED := v;
       CLOSE := CLOSE o |}).

Definition set_CLOSE (v : bool) : M unit :=
  modify_self (fun o =>
    {| PW_ORIGINAL_SINK := PW_ORIGINAL_SINK o;
       PW_LOOPBACK_GAME_MODULE_ID := PW_LOOPBACK_GAME_MODULE_ID o;
       PW_LOOPBACK_CHAT_MODULE_ID := PW_LOOPBACK_CHAT_MODULE_ID o;
       CHATMIX_CONTROLS_ENABLED := CHATMIX_CONTROLS_ENABLED o;
       SONAR_ICON_ENABLED := SONAR_ICON_ENABLED o;
       CLOSE := v |}).

(** *** Calls into pyusb *)

(** [self.dev.write(endpoint, data)]: the transfer is made and logged, or
    it fails and raises. *)
Definition dev_write (endpoint : Z) (data : list Z) : M unit :=
  fun w =>
    let sent :=
      {| Usb.rx_pending := Usb.rx_pending (dev w);
         Usb.tx_log := Usb.tx_log (dev w) ++ [(endpoint, data)];
         Usb.tx_outcomes := tl (Usb.tx_outcomes (dev w)) |} in
    let failed :=
      {| Usb.rx_pending := Usb.rx_pending (dev w);
         Usb.tx_log := Usb.tx_log (dev w);
         Usb.tx_outcomes := tl (Usb.tx_outcomes (dev w)) |} in
    match Usb.tx_outcomes (dev w) with
    | [] | Usb.TxDone :: _ => (Ok tt, with_dev sent w)
    | Usb.TxTimeout :: _ => (Raise USBTimeoutError, with_dev failed w)
    | Usb.TxError :: _ => (Raise USBError, with_dev failed w)
    end.

(** [self.dev.read(endpoint, size)] *)
Definition dev_read (endpoint : Z) (size : Z) : M (list Z) :=
  fun w =>
    match Usb.rx_pending (dev w) with
    | [] => (Raise USBTimeoutError, w)
    | r :: rest =>
        let w' := with_dev {| Usb.rx_pending := rest;
                              Usb.tx_log := Usb.tx_log (dev w);
                              Usb.tx_outcomes := Usb.tx_outcomes (dev w) |} w in
        match r with
        | Usb.RxData msg => (Ok msg, w')
        | Usb.RxTimeout => (Raise USBTimeoutError, w')
        | Usb.RxError => (Raise USBError, w')
        end
    end.

(** *** Calls into pulsectl *)

(** [with pulsectl.Pulse(client) as pulse:], for the [virtual-sink] and
    [volume-control] clients: connecting raises [PulseError] when the
    server cannot be reached. *)
Definition pulse_connect (client : string) : M unit :=
  fun w =>
    match Pulse.connect_faults (pulse w) with
    | [] => (Ok tt, w)
    | fails :: rest =>
        (if fails then Raise PulseError else Ok tt,
         with_pulse (Pulse.connected rest (pulse w)) w)
    end.

Definition pulse_sink_list : M (list Pulse.sink_info) :=
  fun w => (Ok (Pulse.sinks (pulse w)), w).

Definition pulse_module_list : M (list Pulse.module_info) :=
  fun w =>
    if Pulse.module_list_refused (pulse w) then (Raise PulseError, w)
    else (Ok (Pulse.modules (pulse w)), w).

Definition pulse_module_load (nm args : string) : M Z :=
  fun w =>
    let (r, p) := Pulse.module_load nm args (pulse w) in (r, with_pulse p w).

Definition pulse_module_unload (i : Z) : M unit :=
  fun w =>
    if Pulse.mem_Z i (Pulse.unload_refused (pulse w))
    then (Raise PulseError, w)
    else (Ok tt, with_pulse (Pulse.module_unload i (pulse w)) w).

Definition pulse_volume_set_all_chans (target : Pulse.sink_info) (v : float)
  : M unit :=
  fun w =>
    let (r, p) := Pulse.volume_set_all_chans target v (pulse w) in
    (r, with_pulse p w).

(** ** The methods of [NovaProWireless] *)

(** [for x in xs: body(x)] *)
Fixpoint for_each {A} (xs : list A) (body : A -> M unit) : M unit :=
  match xs with
  | [] => ret tt
  | x :: rest => body x ;; for_each rest body
  end.

(** Reading a local variable that may not be bound yet. *)
Definition read_local {A} (x : option A) : M A :=
  match x with
  | Some v => ret v
  | None => raise UnboundLocalError
  end.

Definition set_chatmix_controls (state : bool) : M unit :=
  data <- lift (_create_msgdata [TX; OPT_CHATMIX_ENABLE; int_of_bool state]) ;;
  dev_write ENDPOINT_TX data ;;
  set_CHATMIX_CONTROLS_ENABLED state.

Definition set_sonar_icon (state : bool) : M unit :=
  data <- lift (_create_msgdata [TX; OPT_SONAR_ICON; int_of_bool state]) ;;
  dev_write ENDPOINT_TX data ;;
  set_SONAR_ICON_ENABLED state.

Definition set_volume (attenuation : Z) : M unit :=
  data <- lift (_create_msgdata [TX; OPT_VOLUME; attenuation]) ;;
  dev_write ENDPOINT_TX data.

Definition set_eq_preset (preset : Z) : M unit :=
  data <- lift (_create_msgdata [TX; OPT_EQ_PRESET; preset]) ;;
  dev_write ENDPOINT_TX data.

(** Detection is described on the sink list the server returns: the
    [list-sinks] client is taken to connect and [sink_list] to answer.
    Whatever is proved of a caller on that account carries the hypothesis
    that the server answers. *)
Definition _detect_original_sink : M unit :=
  o <- get_self ;;
  if truthy (PW_ORIGINAL_SINK o) then ret tt
  else
    sinks <- pulse_sink_list ;;
    for_each sinks (fun sink =>
      if str_in HEADSET_NAME (Pulse.sink_name sink)
      then set_PW_ORIGINAL_SINK (Some (Pulse.sink_name sink))
      else ret tt).

(** The f-string passed to [module_load]. *)
Definition combine_sink_argument (sink_name : string) (output_sink : option string)
  : string :=
  ("sink_name=" ++ sink_name ++ " slaves=" ++ format_opt output_sink
   ++ " sink_properties=device.description=" ++ sink_name)%string.

(** The connection is made outside the [try].  The local [new_sink] is
    bound by the [try] body only; the handler reads it before anything has
    bound it. *)
Definition _create_sink (sink_name : string) (output_sink : option string)
  : M Z :=
  pulse_connect "virtual-sink" ;;
  new_sink <-
    try_except
      (i <- pulse_module_load "module-combine-sink"
              (combine_sink_argument sink_name output_sink) ;;
       ret (Some i))
      is_PulseError
      (i <- read_local (@None Z) ;;
       pulse_module_unload i ;;
       print (PrintCreateFailed sink_name) ;;
       ret None) ;;
  read_local new_sink.

(** The [for ... break] loop of [_remove_sink] over the module list. *)
Fixpoint _remove_sink_loop (module_id : Z) (ms : list Pulse.module_info)
  : M unit :=
  match ms with
  | [] => ret tt
  | m :: rest =>
      if module_id =? Pulse.index m
      then pulse_module_unload (Pulse.index m)
      else _remove_sink_loop module_id rest
  end.

Definition _remove_sink (module_id : Z) : M unit :=
  pulse_connect "virtual-sink" ;;
  ms <- pulse_module_list ;;
  _remove_sink_loop module_id ms.

Definition _remove_virtual_sinks : M unit :=
  o <- get_self ;;
  match PW_LOOPBACK_GAME_MODULE_ID o with
  | Some i => _remove_sink i ;; set_PW_LOOPBACK_GAME_MODULE_ID None
  | None => ret tt
  end ;;
  o <- get_self ;;
  match PW_LOOPBACK_CHAT_MODULE_ID o with
  | Some i => _remove_sink i ;; set_PW_LOOPBACK_CHAT_MODULE_ID None
  | None => ret tt
  end.

Definition _start_virtual_sinks : M unit :=
  _detect_original_sink ;;
  _remove_virtual_sinks ;;
  o <- get_self ;;
  g <- _create_sink PW_GAME_SINK (PW_ORIGINAL_SINK o) ;;
  set_PW_LOOPBACK_GAME_MODULE_ID (Some g) ;;
  o <- get_self ;;
  c <- _create_sink PW_CHAT_SINK (PW_ORIGINAL_SINK o) ;;
  set_PW_LOOPBACK_CHAT_MODULE_ID (Some c).

(** The connection is made outside the [try]: only what the body raises
    is caught. *)
Definition _set_sink_volume (module_id : option Z) (v : float) : M unit :=
  pulse_connect "volume-control" ;;
  try_except
    (sinks <- pulse_sink_list ;;
     match find (Pulse.owned_by module_id) sinks with
     | Some target_sink => pulse_volume_set_all_chans target_sink v
     | None => print (PrintSinkNotFound module_id)
     end)
    is_PulseError
    (print PrintVolumeFailed).

(** How a [while not self.CLOSE] loop stands when the model stops looking:
    left through its test, or still iterating after [fuel] rounds. *)
Inductive loop_state : Type :=
| Exited
| Iterating.

Fixpoint while_not_CLOSE (fuel : nat) (body : M unit) : M loop_state :=
  fun w =>
    if CLOSE (self w) then (Ok Exited, w)
    else
      match fuel with
      | O => (Ok Iterating, w)
      | S n =>
          match body w with
          | (Ok _, w') => while_not_CLOSE n body w'
          | (Raise e, w') => (Raise e, w')
          end
      end.

(** The [try] block of [chatmix], up to its [continue] or its end. *)
Definition chatmix_try : M unit :=
  msg <- dev_read ENDPOINT_RX MSGLEN ;;
  opt <- lift (getitem msg 1) ;;
  if negb (opt =? OPT_CHATMIX) then ret tt
  else
    gamevol <- lift (getitem msg 2) ;;
    chatvol <- lift (getitem msg 3) ;;
    o <- get_self ;;
    _set_sink_volume (PW_LOOPBACK_GAME_MODULE_ID o) (int_mul_0_01 gamevol) ;;
    o <- get_self ;;
    _set_sink_volume (PW_LOOPBACK_CHAT_MODULE_ID o) (int_mul_0_01 chatvol).

(** One round of the loop of [chatmix]: the [try] with its two handlers,
    [except USBTimeoutError] first. *)
Definition chatmix_round : M unit :=
  try_except
    (try_except chatmix_try is_USBTimeoutError (ret tt))
    is_USBError
    (print PrintDisconnected ;;
     set_CLOSE true ;;
     _remove_virtual_sinks).

Definition chatmix_loop (fuel : nat) : M loop_state :=
  st <- while_not_CLOSE fuel chatmix_round ;;
  match st with
  | Exited => _remove_virtual_sinks ;; ret Exited
  | Iterating => ret Iterating
  end.

Definition chatmix (fuel : nat) : M loop_state :=
  _start_virtual_sinks ;;
  chatmix_loop fuel.

(** The [match msg[1]] statement of [print_output]. *)
Definition print_message (msg : list Z) : M unit :=
  opt <- lift (getitem msg 1) ;;
  if opt =? OPT_VOLUME then
    a <- lift (getitem msg 2) ;;
    print (PrintVolume a)
  else if opt =? OPT_CHATMIX then
    g <- lift (getitem msg 2) ;;
    c <- lift (getitem msg 3) ;;
    print (PrintChatMix g c)
  else if opt =? OPT_EQ then
    b <- lift (getitem msg 2) ;;
    v <- lift (getitem msg 3) ;;
    print (PrintEQ b (int_truediv_2 (v - 20)))
  else if opt =? OPT_EQ_PRESET then
    p <- lift (getitem msg 2) ;;
    print (PrintEQPreset p)
  else
    print PrintUnknown.

Definition print_output_try (debug : bool) : M unit :=
  msg <- dev_read ENDPOINT_RX MSGLEN ;;
  (if debug then print (PrintRaw msg) else ret tt) ;;
  print_message msg.

Definition print_output_round (debug : bool) : M unit :=
  try_except (print_output_try debug) is_USBTimeoutError (ret tt).

Definition print_output (debug : bool) (fuel : nat) : M loop_state :=
  while_not_CLOSE fuel (print_output_round debug).

Definition close : M unit :=
  set_CLOSE true ;;
  o <- get_self ;;
  (if CHATMIX_CONTROLS_ENABLED o then set_chatmix_controls false else ret tt) ;;
  o <- get_self ;;
  (if SONAR_ICON_ENABLED o then set_sonar_icon false else ret tt) ;;
  _remove_virtual_sinks.

(** ** Vocabulary of the properties *)

(** The Sink Bindings the object holds: one per module identifier set. *)
Definition sink_bindings (o : NovaProWireless) : nat :=
  (match PW_LOOPBACK_GAME_MODULE_ID o with Some _ => 1 | None => 0 end
   + match PW_LOOPBACK_CHAT_MODULE_ID o with Some _ => 1 | None => 0 end)%nat.

(** Is module [i] loaded in the server? *)
Definition module_loaded (i : Z) (p : Pulse.server) : bool :=
  existsb (fun m => Pulse.index m =? i) (Pulse.modules p).

(** [self.HEADSET_NAME in sink.name] *)
Definition is_headset (s : Pulse.sink_info) : bool :=
  str_in HEADSET_NAME (Pulse.sink_name s).

(** The sinks of the server whose name contains the headset name. *)
Definition matching_sinks (p : Pulse.server) : list Pulse.sink_info :=
  filter is_headset (Pulse.sinks p).

(** The spec's choice among them, first match wins: the first sink of the
    list whose name contains the headset name. *)
Definition first_match (p : Pulse.server) : option Pulse.sink_info :=
  find is_headset (Pulse.sinks p).

(** The last sink of the list whose name contains the headset name. *)
Definition last_match (p : Pulse.server) : option Pulse.sink_info :=
  find is_headset (rev (Pulse.sinks p)).

(** The volume of the sink [_set_sink_volume] addresses for a module. *)
Definition volume_of (module_id : option Z) (p : Pulse.server) : option float :=
  option_map Pulse.volume (find (Pulse.owned_by module_id) (Pulse.sinks p)).

(** A world with one pending read in front of the others. *)
Definition with_next_read (r : Usb.read_outcome) (w : World) : World :=
  with_dev {| Usb.rx_pending := r :: Usb.rx_pending (dev w);
              Usb.tx_log := Usb.tx_log (dev w);
              Usb.tx_outcomes := Usb.tx_outcomes (dev w) |} w.

(** The audio server answers whatever is asked of it: every client
    connects (no connection fault is scheduled), the module list is served
    and no unload is refused. *)
Definition answers (p : Pulse.server) : bool :=
  match Pulse.connect_faults p with [] => true | _ :: _ => false end
  && negb (Pulse.module_list_refused p)
  && match Pulse.unload_refused p with [] => true | _ :: _ => false end.

(** A world with the given outcomes scheduled for the next writes. *)
Definition with_tx_outcomes (fs : list Usb.write_outcome) (w : World) : World :=
  with_dev {| Usb.rx_pending := Usb.rx_pending (dev w);
              Usb.tx_log := Usb.tx_log (dev w);
              Usb.tx_outcomes := fs |} w.

(** A world with the given faults scheduled for the next connections. *)
Definition with_connect_faults (fs : list bool) (w : World) : World :=
  with_pulse (Pulse.connected fs (pulse w)) w.

(** A world whose server refuses to unload the given modules. *)
Definition with_unload_refused (ids : list Z) (w : World) : World :=
  with_pulse
    {| Pulse.modules := Pulse.modules (pulse w);
       Pulse.sinks := Pulse.sinks (pulse w);
       Pulse.next_module := Pulse.next_module (pulse w);
       Pulse.next_sink := Pulse.next_sink (pulse w);
       Pulse.load_refused := Pulse.load_refused (pulse w);
       Pulse.volume_refused := Pulse.volume_refused (pulse w);
       Pulse.connect_faults := Pulse.connect_faults (pulse w);
       Pulse.module_list_refused := Pulse.module_list_refused (pulse w);
       Pulse.unload_refused := ids |}
    w.

(** *** Sample worlds *)

Definition idle_device : Usb.device :=
  {| Usb.rx_pending := []; Usb.tx_log := []; Usb.tx_outcomes := [] |}.

Definition headset_sink : Pulse.sink_info :=
  {| Pulse.sink_index := 0;
     Pulse.sink_name :=
       "alsa_output.usb-SteelSeries_Arctis_Nova_Pro_Wireless-00.analog-stereo";
     Pulse.owner_module := 7;
     Pulse.volume := 1%float |}.

Definition headset_digital_sink : Pulse.sink_info :=
  {| Pulse.sink_index := 1;
     Pulse.sink_name :=
       "alsa_output.usb-SteelSeries_Arctis_Nova_Pro_Wireless-00.iec958-stereo";
     Pulse.owner_module := 7;
     Pulse.volume := 1%float |}.

Definition speakers_sink : Pulse.sink_info :=
  {| Pulse.sink_index := 2;
     Pulse.sink_name := "alsa_output.pci-0000_00_1f.3.analog-stereo";
     Pulse.owner_module := 8;
     Pulse.volume := 1%float |}.

Definition server_with (ss : list Pulse.sink_info) (refused : list string)
  : Pulse.server :=
  {| Pulse.modules := [];
     Pulse.sinks := ss;
     Pulse.next_module := 20;
     Pulse.next_sink := 5;
     Pulse.load_refused := refused;
     Pulse.volume_refused := [];
     Pulse.connect_faults := [];
     Pulse.module_list_refused := false;
     Pulse.unload_refused := [] |}.

Definition world_with (ss : list Pulse.sink_info) (refused : list string)
  : World :=
  {| self := class_defaults;
     dev := idle_device;
     pulse := server_with ss refused;
     stdout := [] |}.

(** The server refuses to load the chat sink on the headset. *)
Definition chat_sink_refused : list string :=
  [ combine_sink_argument PW_CHAT_SINK (Some (Pulse.sink_name headset_sink)) ].

(** The world a successful [_start_virtual_sinks] leaves: both sinks made. *)
Definition running_world : World :=
  snd (_start_virtual_sinks (world_with [headset_sink] [])).

(** The world [_start_virtual_sinks] leaves when the second load is refused. *)
Definition half_started_world : World :=
  snd (_start_virtual_sinks (world_with [headset_sink] chat_sink_refused)).

(** The two sinks of [running_world] that the combine modules own. *)
Definition nova_game_sink : Pulse.sink_info :=
  {| Pulse.sink_index := 5;
     Pulse.sink_name := "NovaGame";
     Pulse.owner_module := 20;
     Pulse.volume := 1%float |}.

Definition nova_chat_sink : Pulse.sink_info :=
  {| Pulse.sink_index := 6;
     Pulse.sink_name := "NovaChat";
     Pulse.owner_module := 21;
     Pulse.volume := 1%float |}.

(** [running_world] after [set_sonar_icon(True)] alone. *)
Definition icon_only_world : World :=
  snd (set_sonar_icon true running_world).

(** A 64-byte ChatMix report and a 64-byte volume report, with a direction
    byte of choice. *)
Definition chatmix_report (d game chat : Z) : list Z :=
  d :: OPT_CHATMIX :: game :: chat :: repeat 0 60.

Definition volume_report (d attenuation : Z) : list Z :=
  d :: OPT_VOLUME :: attenuation :: repeat 0 61.

(** ** Vocabulary of the further properties *)

(** The server after [_set_sink_volume m v] has connected: the volume is
    set on the sink the module owns, unless there is none or the server
    refuses. *)
Definition volume_applied (m : option Z) (v : float) (p : Pulse.server)
  : Pulse.server :=
  match find (Pulse.owned_by m) (Pulse.sinks p) with
  | Some t => snd (Pulse.volume_set_all_chans t v p)
  | None => p
  end.

(** What [_set_sink_volume m v] prints once connected. *)
Definition volume_messages (m : option Z) (p : Pulse.server) : list output :=
  match find (Pulse.owned_by m) (Pulse.sinks p) with
  | Some t =>
      if Pulse.mem_Z (Pulse.sink_index t) (Pulse.volume_refused p)
      then [PrintVolumeFailed] else []
  | None => [PrintSinkNotFound m]
  end.

(** The object with both module identifiers cleared. *)
Definition clear_bindings (o : NovaProWireless) : NovaProWireless :=
  {| PW_ORIGINAL_SINK := PW_ORIGINAL_SINK o;
     PW_LOOPBACK_GAME_MODULE_ID := None;
     PW_LOOPBACK_CHAT_MODULE_ID := None;
     CHATMIX_CONTROLS_ENABLED := CHATMIX_CONTROLS_ENABLED o;
     SONAR_ICON_ENABLED := SONAR_ICON_ENABLED o;
     CLOSE := CLOSE o |}.

(** The server after [_remove_sink i]. *)
Definition unload_if_loaded (i : Z) (p : Pulse.server) : Pulse.server :=
  if module_loaded i p then Pulse.module_unload i p else p.

Definition unload_binding (b : option Z) (p : Pulse.server) : Pulse.server :=
  match b with
  | Some i => unload_if_loaded i p
  | None => p
  end.

(** The server after [_remove_virtual_sinks], game sink first. *)
Definition torn_down (o : NovaProWireless) (p : Pulse.server) : Pulse.server :=
  unload_binding (PW_LOOPBACK_CHAT_MODULE_ID o)
    (unload_binding (PW_LOOPBACK_GAME_MODULE_ID o) p).

(** Is [i] one of the object's module identifiers? *)
Definition is_binding (o : NovaProWireless) (i : Z) : bool :=
  match PW_LOOPBACK_GAME_MODULE_ID o with
  | Some g => i =? g
  | None => false
  end
  || match PW_LOOPBACK_CHAT_MODULE_ID o with
     | Some c => i =? c
     | None => false
     end.

(** The target [_detect_original_sink] leaves in [PW_ORIGINAL_SINK]. *)
Definition detected_target (w : World) : option string :=
  if truthy (PW_ORIGINAL_SINK (self w)) then PW_ORIGINAL_SINK (self w)
  else
    match last_match (pulse w) with
    | Some s => Some (Pulse.sink_name s)
    | None => PW_ORIGINAL_SINK (self w)
    end.

(** A read the loop of [chatmix] gets through: a timeout, or a message with
    an opcode byte and, for a ChatMix report, both of its data bytes. *)
Definition benign (r : Usb.read_outcome) : bool :=
  match r with
  | Usb.RxTimeout => true
  | Usb.RxError => false
  | Usb.RxData msg =>
      match nth_error msg 1 with
      | None => false
      | Some opt =>
          if opt =? OPT_CHATMIX then (4 <=? length msg)%nat else true
      end
  end.

(** A message the loop of [chatmix] cannot index: no opcode byte, or a
    ChatMix report without both data bytes. *)
Definition truncated (msg : list Z) : bool :=
  match nth_error msg 1 with
  | None => true
  | Some opt => (opt =? OPT_CHATMIX) && (length msg <? 4)%nat
  end.

(** A world with the given reads pending, in order. *)
Definition with_pending (rs : list Usb.read_outcome) (w : World) : World :=
  with_dev {| Usb.rx_pending := rs;
              Usb.tx_log := Usb.tx_log (dev w);
              Usb.tx_outcomes := Usb.tx_outcomes (dev w) |} w.

(** The number of [True] among the two feature flags. *)
Definition enabled_features (o : NovaProWireless) : nat :=
  ((if CHATMIX_CONTROLS_ENABLED o then 1 else 0)
   + (if SONAR_ICON_ENABLED o then 1 else 0))%nat.

(** The disable messages [close] sends for the flags of [o], in order. *)
Definition disable_messages (o : NovaProWireless) : list (Z * list Z) :=
  (if CHATMIX_CONTROLS_ENABLED o
   then [ (ENDPOINT_TX, [TX; OPT_CHATMIX_ENABLE; 0] ++ repeat 0x30 61) ]
   else [])
  ++ (if SONAR_ICON_ENABLED o
      then [ (ENDPOINT_TX, [TX; OPT_SONAR_ICON; 0] ++ repeat 0x30 61) ]
      else []).

(** What a command of one data byte comes to: [ValueError] for a value
    that is no byte, else whatever the write meets. *)
Definition command_result (opcode x : Z) (w : World) : result unit * World :=
  if is_byte x then
    match Usb.tx_outcomes (dev w) with
    | [] | Usb.TxDone :: _ =>
        (Ok tt,
         with_dev
           {| Usb.rx_pending := Usb.rx_pending (dev w);
              Usb.tx_log := Usb.tx_log (dev w)
                            ++ [ (ENDPOINT_TX,
                                  [TX; opcode; x] ++ repeat 0x30 61) ];
              Usb.tx_outcomes := tl (Usb.tx_outcomes (dev w)) |} w)
    | Usb.TxTimeout :: _ =>
        (Raise USBTimeoutError,
         with_dev
           {| Usb.rx_pending := Usb.rx_pending (dev w);
              Usb.tx_log := Usb.tx_log (dev w);
              Usb.tx_outcomes := tl (Usb.tx_outcomes (dev w)) |} w)
    | Usb.TxError :: _ =>
        (Raise USBError,
         with_dev
           {| Usb.rx_pending := Usb.rx_pending (dev w);
              Usb.tx_log := Usb.tx_log (dev w);
              Usb.tx_outcomes := tl (Usb.tx_outcomes (dev w)) |} w)
    end
  else (Raise ValueError, w).

(** The exception a failed write raises. *)
Definition write_error (o : Usb.write_outcome) : option exn :=
  match o with
  | Usb.TxDone => None
  | Usb.TxTimeout => Some USBTimeoutError
  | Usb.TxError => Some USBError
  end.

(** The object once [close] has set [CLOSE]. *)
Definition closing (o : NovaProWireless) : NovaProWireless :=
  {| PW_ORIGINAL_SINK := PW_ORIGINAL_SINK o;
     PW_LOOPBACK_GAME_MODULE_ID := PW_LOOPBACK_GAME_MODULE_ID o;
     PW_LOOPBACK_CHAT_MODULE_ID := PW_LOOPBACK_CHAT_MODULE_ID o;
     CHATMIX_CONTROLS_ENABLED := CHATMIX_CONTROLS_ENABLED o;
     SONAR_ICON_ENABLED := SONAR_ICON_ENABLED o;
     CLOSE := true |}.

(** The values a byte of a USB message can take. *)
Definition byte_values : list Z := map Z.of_nat (seq 0 256).

(** *** More sample worlds *)

(** An idle world whose server already has the two card modules loaded,
    with a ChatMix report, a timeout, an unplugging and one more report
    ahead. *)
Definition desktop_world : World :=
  {| self := class_defaults;
     dev := {| Usb.rx_pending :=
                 [ Usb.RxData (chatmix_report 0x7 80 30); Usb.RxTimeout;
                   Usb.RxError; Usb.RxData (volume_report 0x7 12) ];
               Usb.tx_log := [];
               Usb.tx_outcomes := [] |};
     pulse :=
       {| Pulse.modules :=
            [ {| Pulse.index := 7; Pulse.name := "module-alsa-card";
                 Pulse.argument := "device_id=1" |};
              {| Pulse.index := 8; Pulse.name := "module-alsa-card";
                 Pulse.argument := "device_id=0" |} ];
          Pulse.sinks := [ headset_sink; speakers_sink ];
          Pulse.next_module := 20;
          Pulse.next_sink := 5;
          Pulse.load_refused := [];
          Pulse.volume_refused := [];
          Pulse.connect_faults := [];
          Pulse.module_list_refused := false;
          Pulse.unload_refused := [] |};
     stdout := [] |}.

(** [running_world] with both features enabled, as the script leaves it
    before [chatmix]. *)
Definition enabled_world : World :=
  snd (set_chatmix_controls true (snd (set_sonar_icon true running_world))).

(** [running_world] where the server refuses to set the game sink's
    volume. *)
Definition game_volume_refused_world : World :=
  with_pulse
    {| Pulse.modules := Pulse.modules (pulse running_world);
       Pulse.sinks := Pulse.sinks (pulse running_world);
       Pulse.next_module := Pulse.next_module (pulse running_world);
       Pulse.next_sink := Pulse.next_sink (pulse running_world);
       Pulse.load_refused := [];
       Pulse.volume_refused := [5];
       Pulse.connect_faults := [];
       Pulse.module_list_refused := false;
       Pulse.unload_refused := [] |}
    running_world.

(** * Properties *)

(** ** The message builder *)

Section Codec.

Lemma b_0_is_0x30 : b_0 = 0x30.
Proof. reflexivity. Qed.

Lemma ljust_length (b : list Z) (width fill : Z) :
  Z.of_nat (length (ljust b width fill)) = Z.max width (Z.of_nat (length b)).
Proof.
  unfold ljust. rewrite length_app, repeat_length. lia.
Qed.

Lemma ljust_prefix (b : list Z) (width fill : Z) (i : nat) :
  (i < length b)%nat -> nth_error (ljust b width fill) i = nth_error b i.
Proof.
  intros Hi. unfold ljust. now rewrite nth_error_app1.
Qed.

Lemma ljust_padding (b : list Z) (width fill : Z) (i : nat) :
  (length b <= i)%nat -> Z.of_nat i < width ->
  nth_error (ljust b width fill) i = Some fill.
Proof.
  intros Hlo Hhi. unfold ljust.
  rewrite nth_error_app2 by exact Hlo.
  apply nth_error_repeat. lia.
Qed.

Lemma create_msgdata_bytes (data : list Z) :
  forallb is_byte data = true ->
  _create_msgdata data = Ok (ljust data MSGLEN b_0).
Proof.
  intros Hb. unfold _create_msgdata, bytes. now rewrite Hb.
Qed.

Lemma encode_bytes (opcode : Z) (payload : list Z) :
  is_byte opcode = true -> forallb is_byte payload = true ->
  encode opcode payload = Ok (ljust (TX :: opcode :: payload) MSGLEN b_0).
Proof.
  intros Ho Hp. unfold encode. apply create_msgdata_bytes.
  cbn [forallb]. now rewrite Ho, Hp.
Qed.

(** What [encode] does build: the three header parts in place, and the
    digit [0x30] in every byte after the payload. *)
Lemma encode_layout (opcode : Z) (payload : list Z) :
  is_byte opcode = true -> forallb is_byte payload = true ->
  (length payload <= 62)%nat ->
  exists m,
    encode opcode payload = Ok m
    /\ length m = 64%nat
    /\ nth_error m 0 = Some TX
    /\ nth_error m 1 = Some opcode
    /\ (forall i, (i < length payload)%nat ->
                  nth_error m (2 + i) = nth_error payload i)
    /\ (forall i, (2 + length payload <= i < 64)%nat ->
                  nth_error m i = Some 0x30).
Proof.
  intros Ho Hp Hlen. eexists. split; [ now apply encode_bytes | ].
  split.
  { apply Nat2Z.inj. rewrite ljust_length. cbn [length]. unfold MSGLEN. lia. }
  split; [ reflexivity | ]. split; [ reflexivity | ]. split.
  - intros i Hi. rewrite ljust_prefix by (cbn [length]; lia). reflexivity.
  - intros i Hi. rewrite <- b_0_is_0x30. apply ljust_padding.
    + cbn [length]. lia.
    + unfold MSGLEN. lia.
Qed.

(** C1, at the message [set_chatmix_controls(True)] sends: [encode] gives
    64 bytes with the TX tag, the opcode and the payload in front, but
    the bytes after the payload are the ASCII digit [0x30] (the fill byte
    is [b"0"]), not [0x00]. *)
Theorem encode_pads_with_ascii_digit :
  encode OPT_CHATMIX_ENABLE [1] = Ok ([TX; OPT_CHATMIX_ENABLE; 1] ++ repeat 0x30 61)
  /\ (exists m, encode OPT_CHATMIX_ENABLE [1] = Ok m
                /\ nth_error m 3 = Some 0x30
                /\ nth_error m 63 = Some 0x30
                /\ nth_error m 3 <> Some 0x00).
Proof.
  split; [ reflexivity | ].
  eexists. split; [ reflexivity | ].
  repeat split; try reflexivity. discriminate.
Qed.

(** C7, failing as stated: a 63-byte payload is not rejected; [encode]
    returns a 65-byte message. *)
Lemma encode_long_payload_not_rejected :
  (length (repeat 0 63) > 62)%nat
  /\ exists m, encode OPT_VOLUME (repeat 0 63) = Ok m /\ length m = 65%nat.
Proof.
  split; [ rewrite repeat_length; lia | ].
  eexists. split; reflexivity.
Qed.

(** C7, amended: [encode] returns exactly 64 bytes for a payload of at
    most 62 bytes, and for a longer payload it returns, without padding
    and without an error, the [2 + len(payload)] bytes it was given. *)
Theorem encode_length (opcode : Z) (payload : list Z) :
  is_byte opcode = true -> forallb is_byte payload = true ->
  exists m,
    encode opcode payload = Ok m
    /\ ((length payload <= 62)%nat -> length m = 64%nat)
    /\ ((62 < length payload)%nat ->
        m = TX :: opcode :: payload /\ length m = (2 + length payload)%nat).
Proof.
  intros Ho Hp. eexists. split; [ now apply encode_bytes | ]. split.
  - intros Hlen. apply Nat2Z.inj. rewrite ljust_length.
    cbn [length]. unfold MSGLEN. lia.
  - intros Hlen. unfold ljust.
    replace (Z.to_nat _) with 0%nat by (cbn [length]; unfold MSGLEN; lia).
    cbn [repeat]. rewrite app_nil_r. split; reflexivity.
Qed.

Lemma encode_length_witness :
  exists m,
    encode OPT_SONAR_ICON [1] = Ok m
    /\ ((length [1] <= 62)%nat -> length m = 64%nat)
    /\ ((62 < length [1])%nat ->
        m = TX :: OPT_SONAR_ICON :: [1] /\ length m = (2 + length [1])%nat).
Proof.
  apply (encode_length OPT_SONAR_ICON [1]); reflexivity.
Defined.

End Codec.

(** ** Tearing the virtual sinks down *)

Section Teardown.

Local Arguments Pulse.mem_Z : simpl never.

Lemma answers_inv (p : Pulse.server) :
  answers p = true ->
  Pulse.connect_faults p = []
  /\ Pulse.module_list_refused p = false
  /\ Pulse.unload_refused p = [].
Proof.
  unfold answers.
  destruct (Pulse.connect_faults p), (Pulse.module_list_refused p),
    (Pulse.unload_refused p); cbn; intros H; try discriminate H.
  repeat split.
Qed.

Lemma pulse_connect_ok (client : string) (w : World) :
  Pulse.connect_faults (pulse w) = [] -> pulse_connect client w = (Ok tt, w).
Proof. unfold pulse_connect. now intros ->. Qed.

Lemma module_loaded_unload (i j : Z) (p : Pulse.server) :
  module_loaded i (Pulse.module_unload j p)
  = module_loaded i p && negb (i =? j).
Proof.
  unfold module_loaded, Pulse.module_unload. cbn [Pulse.modules].
  induction (Pulse.modules p) as [ | m ms IH ]; [ reflexivity | ].
  cbn [filter existsb].
  destruct (Pulse.index m =? j) eqn:Hj; cbn [negb existsb]; rewrite IH.
  - apply Z.eqb_eq in Hj.
    destruct (Pulse.index m =? i) eqn:Hi; [ | reflexivity ].
    apply Z.eqb_eq in Hi. replace (i =? j) with true by (symmetry; lia).
    cbn. now rewrite andb_false_r.
  - destruct (Pulse.index m =? i) eqn:Hi; [ | reflexivity ].
    apply Z.eqb_eq in Hi. replace (i =? j) with false by (symmetry; lia).
    reflexivity.
Qed.

Lemma remove_sink_loop_run (i : Z) (ms : list Pulse.module_info) (w : World) :
  Pulse.unload_refused (pulse w) = [] ->
  _remove_sink_loop i ms w
  = (Ok tt,
     if existsb (fun m => Pulse.index m =? i) ms
     then with_pulse (Pulse.module_unload i (pulse w)) w
     else w).
Proof.
  intros Hun. induction ms as [ | m ms IH ]; [ reflexivity | ].
  cbn [_remove_sink_loop existsb]. rewrite (Z.eqb_sym i).
  destruct (Pulse.index m =? i) eqn:Hi.
  - apply Z.eqb_eq in Hi. rewrite Hi.
    unfold pulse_module_unload. rewrite Hun. reflexivity.
  - exact IH.
Qed.

(** [_remove_sink] on a server that answers. *)
Lemma remove_sink_run (i : Z) (w : World) :
  answers (pulse w) = true ->
  _remove_sink i w
  = (Ok tt,
     if module_loaded i (pulse w)
     then with_pulse (Pulse.module_unload i (pulse w)) w
     else w).
Proof.
  intros Hans. destruct (answers_inv _ Hans) as (Hc & Hl & Hu).
  unfold _remove_sink, bind, pulse_connect, pulse_module_list.
  rewrite Hc, Hl. now apply remove_sink_loop_run.
Qed.

Lemma remove_sink_exact (i : Z) (w : World) :
  answers (pulse w) = true ->
  _remove_sink i w
  = (Ok tt,
     {| self := self w; dev := dev w;
        pulse := unload_if_loaded i (pulse w); stdout := stdout w |}).
Proof.
  intros Hans. rewrite (remove_sink_run i w Hans). unfold unload_if_loaded.
  destruct w as [o d p out]. cbn [self dev pulse stdout].
  destruct (module_loaded i p); reflexivity.
Qed.

Lemma answers_unload_if_loaded (i : Z) (p : Pulse.server) :
  answers (unload_if_loaded i p) = answers p.
Proof.
  unfold unload_if_loaded. destruct (module_loaded i p); reflexivity.
Qed.

Local Arguments _remove_sink : simpl never.

(** The whole effect of [_remove_virtual_sinks] on a server that answers. *)
Lemma remove_virtual_sinks_exact (w : World) :
  answers (pulse w) = true ->
  _remove_virtual_sinks w
  = (Ok tt,
     {| self := clear_bindings (self w); dev := dev w;
        pulse := torn_down (self w) (pulse w); stdout := stdout w |}).
Proof.
  destruct w as [[orig g c ce se cl] d p out]. cbn [pulse]. intros Hans.
  unfold _remove_virtual_sinks, bind at 1, get_self.
  cbn [self PW_LOOPBACK_GAME_MODULE_ID].
  destruct g as [ gi | ]; destruct c as [ ci | ];
    unfold bind; rewrite ?remove_sink_exact by exact Hans; cbn;
    unfold with_self; cbn;
    rewrite ?remove_sink_exact
      by (cbn [pulse]; rewrite ?answers_unload_if_loaded; exact Hans);
    reflexivity.
Qed.

(** With no identifier set there is nothing to remove, and the server is
    not even contacted. *)
Lemma remove_virtual_sinks_idle (w : World) :
  PW_LOOPBACK_GAME_MODULE_ID (self w) = None ->
  PW_LOOPBACK_CHAT_MODULE_ID (self w) = None ->
  _remove_virtual_sinks w = (Ok tt, w).
Proof.
  destruct w as [[orig g c ce se cl] d p out]. cbn. intros -> ->. reflexivity.
Qed.

Lemma filter_keeps_all {A} (f : A -> bool) (l : list A) :
  existsb (fun x => negb (f x)) l = false -> filter f l = l.
Proof.
  induction l as [ | a l IH ]; [ reflexivity | ].
  cbn [existsb filter]. destruct (f a); cbn [negb orb]; [ | discriminate ].
  intros H. now rewrite IH.
Qed.

Lemma existsb_ext {A} (f g : A -> bool) (l : list A) :
  (forall x, f x = g x) -> existsb f l = existsb g l.
Proof.
  intros Hfg. induction l as [ | a l IH ]; [ reflexivity | ].
  cbn [existsb]. now rewrite Hfg, IH.
Qed.

Lemma unload_if_loaded_modules (i : Z) (p : Pulse.server) :
  Pulse.modules (unload_if_loaded i p)
  = filter (fun m => negb (Pulse.index m =? i)) (Pulse.modules p).
Proof.
  unfold unload_if_loaded. destruct (module_loaded i p) eqn:Hl;
    [ reflexivity | ].
  symmetry. apply filter_keeps_all.
  unfold module_loaded in Hl. rewrite <- Hl. clear Hl.
  apply existsb_ext. intros m. apply negb_involutive.
Qed.

Lemma unload_if_loaded_frame (i : Z) (p : Pulse.server) :
  Pulse.next_module (unload_if_loaded i p) = Pulse.next_module p
  /\ Pulse.next_sink (unload_if_loaded i p) = Pulse.next_sink p
  /\ Pulse.load_refused (unload_if_loaded i p) = Pulse.load_refused p
  /\ Pulse.volume_refused (unload_if_loaded i p) = Pulse.volume_refused p.
Proof.
  unfold unload_if_loaded.
  destruct (module_loaded i p); repeat split.
Qed.

Lemma unload_if_loaded_sinks (i : Z) (p : Pulse.server) (s : Pulse.sink_info) :
  In s (Pulse.sinks (unload_if_loaded i p))
  <-> In s (Pulse.sinks p)
      /\ (module_loaded i p = true -> Pulse.owner_module s <> i).
Proof.
  unfold unload_if_loaded. destruct (module_loaded i p) eqn:Hl.
  - cbn [Pulse.sinks Pulse.module_unload]. rewrite filter_In.
    rewrite negb_true_iff, Z.eqb_neq. tauto.
  - split; [ intros H; split; [ exact H | discriminate ] | tauto ].
Qed.

Lemma filter_filter_and {A} (f g : A -> bool) (l : list A) :
  filter f (filter g l) = filter (fun x => g x && f x) l.
Proof.
  induction l as [ | a l IH ]; [ reflexivity | ].
  cbn [filter]. destruct (g a); cbn [andb filter]; [ | exact IH ].
  destruct (f a); now rewrite IH.
Qed.

Lemma torn_down_modules (o : NovaProWireless) (p : Pulse.server) :
  Pulse.modules (torn_down o p)
  = filter (fun m => negb (is_binding o (Pulse.index m))) (Pulse.modules p).
Proof.
  unfold torn_down, unload_binding, is_binding.
  destruct (PW_LOOPBACK_GAME_MODULE_ID o) as [ g | ];
    destruct (PW_LOOPBACK_CHAT_MODULE_ID o) as [ c | ];
    rewrite ?unload_if_loaded_modules.
  - rewrite filter_filter_and. apply filter_ext. intros m.
    now rewrite negb_orb.
  - apply filter_ext. intros m. now rewrite orb_false_r.
  - reflexivity.
  - symmetry. apply filter_keeps_all.
    induction (Pulse.modules p) as [ | m ms IH ]; [ reflexivity | exact IH ].
Qed.

Lemma torn_down_frame (o : NovaProWireless) (p : Pulse.server) :
  Pulse.next_module (torn_down o p) = Pulse.next_module p
  /\ Pulse.next_sink (torn_down o p) = Pulse.next_sink p
  /\ Pulse.load_refused (torn_down o p) = Pulse.load_refused p
  /\ Pulse.volume_refused (torn_down o p) = Pulse.volume_refused p.
Proof.
  unfold torn_down, unload_binding.
  destruct (PW_LOOPBACK_GAME_MODULE_ID o) as [ g | ];
    destruct (PW_LOOPBACK_CHAT_MODULE_ID o) as [ c | ];
    repeat match goal with
           | |- context [unload_if_loaded ?i ?q] =>
               let H := fresh in
               pose proof (unload_if_loaded_frame i q) as H;
               destruct H as (-> & -> & -> & ->)
           end;
    repeat split.
Qed.

Lemma module_loaded_filtered (o : NovaProWireless) (i : Z)
    (ms : list Pulse.module_info) :
  is_binding o i = true ->
  existsb (fun m => Pulse.index m =? i)
    (filter (fun m => negb (is_binding o (Pulse.index m))) ms) = false.
Proof.
  intros Hi. induction ms as [ | m ms IH ]; [ reflexivity | ].
  cbn [filter].
  destruct (is_binding o (Pulse.index m)) eqn:Hm; cbn [negb]; [ exact IH | ].
  cbn [existsb]. rewrite IH, orb_false_r.
  apply Z.eqb_neq. intros Heq. rewrite Heq, Hi in Hm. discriminate.
Qed.

(** After a teardown the server answered, no module of a binding is
    loaded. *)
Lemma torn_down_unloads (o : NovaProWireless) (p : Pulse.server) (i : Z) :
  is_binding o i = true -> module_loaded i (torn_down o p) = false.
Proof.
  intros Hi. unfold module_loaded. rewrite torn_down_modules.
  now apply module_loaded_filtered.
Qed.

Lemma is_binding_of_id (o : NovaProWireless) (i : Z) :
  PW_LOOPBACK_GAME_MODULE_ID o = Some i
  \/ PW_LOOPBACK_CHAT_MODULE_ID o = Some i ->
  is_binding o i = true.
Proof.
  unfold is_binding. intros [ -> | -> ]; rewrite Z.eqb_refl;
    [ reflexivity | apply orb_true_r ].
Qed.

Lemma torn_down_keeps_sinks (o : NovaProWireless) (p : Pulse.server)
    (s : Pulse.sink_info) :
  In s (Pulse.sinks p) ->
  is_binding o (Pulse.owner_module s) = false ->
  In s (Pulse.sinks (torn_down o p)).
Proof.
  unfold torn_down, unload_binding, is_binding. intros Hin Hown.
  destruct (PW_LOOPBACK_GAME_MODULE_ID o) as [ g | ];
    destruct (PW_LOOPBACK_CHAT_MODULE_ID o) as [ c | ];
    rewrite ?unload_if_loaded_sinks; cbn [orb] in Hown;
    rewrite ?orb_false_r in Hown;
    try (apply orb_false_iff in Hown; destruct Hown as [Hg Hc]);
    repeat match goal with
           | H : (_ =? _) = false |- _ => apply Z.eqb_neq in H
           end;
    repeat split; try assumption; intros _; assumption.
Qed.

End Teardown.

(** ** The read loop of [chatmix] *)

Section ChatmixLoop.

Local Arguments _remove_virtual_sinks : simpl never.

(** A round whose read times out leaves the world as it was, but for the
    pending read it has used. *)
Lemma chatmix_round_timeout (w : World) :
  chatmix_round (with_next_read Usb.RxTimeout w) = (Ok tt, w).
Proof.
  destruct w as [o [rx tx tf] p out]. reflexivity.
Qed.

(** The same when nothing is pending: the device is silent. *)
Lemma chatmix_round_silence (w : World) :
  Usb.rx_pending (dev w) = [] -> chatmix_round w = (Ok tt, w).
Proof.
  destruct w as [o [rx tx tf] p out]. cbn. intros ->. reflexivity.
Qed.

(** A round whose read fails with another [USBError]: the handler prints,
    sets [CLOSE] and calls [_remove_virtual_sinks], whose result is the
    round's. *)
Lemma chatmix_round_fatal_unfold (rest : list Usb.read_outcome) (w : World) :
  Usb.rx_pending (dev w) = Usb.RxError :: rest ->
  chatmix_round w
  = _remove_virtual_sinks
      {| self :=
           {| PW_ORIGINAL_SINK := PW_ORIGINAL_SINK (self w);
              PW_LOOPBACK_GAME_MODULE_ID := PW_LOOPBACK_GAME_MODULE_ID (self w);
              PW_LOOPBACK_CHAT_MODULE_ID := PW_LOOPBACK_CHAT_MODULE_ID (self w);
              CHATMIX_CONTROLS_ENABLED := CHATMIX_CONTROLS_ENABLED (self w);
              SONAR_ICON_ENABLED := SONAR_ICON_ENABLED (self w);
              CLOSE := true |};
         dev := {| Usb.rx_pending := rest;
                   Usb.tx_log := Usb.tx_log (dev w);
                   Usb.tx_outcomes := Usb.tx_outcomes (dev w) |};
         pulse := pulse w;
         stdout := stdout w ++ [PrintDisconnected] |}.
Proof.
  destruct w as [[orig g c ce se cl] [rx tx tf] p out].
  cbn [dev Usb.rx_pending]. intros ->.
  unfold chatmix_round, try_except, chatmix_try, bind, dev_read, print,
    set_CLOSE, modify_self, with_self, with_dev.
  cbn [dev self pulse stdout Usb.rx_pending Usb.tx_log Usb.tx_outcomes
       is_USBTimeoutError is_USBError PW_ORIGINAL_SINK
       PW_LOOPBACK_GAME_MODULE_ID PW_LOOPBACK_CHAT_MODULE_ID
       CHATMIX_CONTROLS_ENABLED SONAR_ICON_ENABLED CLOSE fst snd].
  destruct (_remove_virtual_sinks _) as [[ [] | e ] w1]; reflexivity.
Qed.

(** On a server that answers, the handler's teardown goes through. *)
Lemma chatmix_round_fatal_exact (rest : list Usb.read_outcome) (w : World) :
  Usb.rx_pending (dev w) = Usb.RxError :: rest ->
  answers (pulse w) = true ->
  chatmix_round w
  = (Ok tt,
     {| self :=
          {| PW_ORIGINAL_SINK := PW_ORIGINAL_SINK (self w);
             PW_LOOPBACK_GAME_MODULE_ID := None;
             PW_LOOPBACK_CHAT_MODULE_ID := None;
             CHATMIX_CONTROLS_ENABLED := CHATMIX_CONTROLS_ENABLED (self w);
             SONAR_ICON_ENABLED := SONAR_ICON_ENABLED (self w);
             CLOSE := true |};
        dev := {| Usb.rx_pending := rest;
                  Usb.tx_log := Usb.tx_log (dev w);
                  Usb.tx_outcomes := Usb.tx_outcomes (dev w) |};
        pulse := torn_down (self w) (pulse w);
        stdout := stdout w ++ [PrintDisconnected] |}).
Proof.
  intros Hrx Hans. rewrite (chatmix_round_fatal_unfold rest w Hrx).
  rewrite remove_virtual_sinks_exact by exact Hans. reflexivity.
Qed.




(** C3: a read that times out changes nothing (the flags, the module
    identifiers and [CLOSE] are those of before: the whole world is), and
    the loop goes on to its test and, [CLOSE] being unset, into the next
    round, which starts with another read. *)
Theorem timeout_changes_nothing (w : World) (fuel : nat) :
  CLOSE (self w) = false ->
  chatmix_round (with_next_read Usb.RxTimeout w) = (Ok tt, w)
  /\ while_not_CLOSE (S fuel) chatmix_round (with_next_read Usb.RxTimeout w)
     = while_not_CLOSE fuel chatmix_round w
  /\ while_not_CLOSE (S fuel) chatmix_round w
     = bind chatmix_round (fun _ => while_not_CLOSE fuel chatmix_round) w.
Proof.
  intros Hrun. split; [ apply chatmix_round_timeout | ]. split.
  - cbn [while_not_CLOSE].
    replace (CLOSE (self (with_next_read Usb.RxTimeout w))) with false
      by (symmetry; exact Hrun).
    now rewrite chatmix_round_timeout.
  - cbn [while_not_CLOSE]. rewrite Hrun. unfold bind.
    destruct (chatmix_round w) as [[ [] | e ] w1]; reflexivity.
Qed.

Lemma timeout_changes_nothing_witness :
  CLOSE (self running_world) = false
  /\ chatmix_round (with_next_read Usb.RxTimeout running_world)
     = (Ok tt, running_world)
  /\ while_not_CLOSE 3 chatmix_round
       (with_next_read Usb.RxTimeout running_world)
     = while_not_CLOSE 2 chatmix_round running_world
  /\ while_not_CLOSE 3 chatmix_round running_world
     = bind chatmix_round (fun _ => while_not_CLOSE 2 chatmix_round)
         running_world.
Proof.
  split; [ reflexivity | ].
  apply (timeout_changes_nothing running_world 2). reflexivity.
Defined.

End ChatmixLoop.

(** ** Finding the headset's sink *)

Section Detection.

Lemma find_app_split {A} (f : A -> bool) (l1 l2 : list A) :
  find f (l1 ++ l2)
  = match find f l1 with
    | Some x => Some x
    | None => find f l2
    end.
Proof.
  induction l1 as [ | a l1 IH ]; [ reflexivity | ].
  cbn [app find]. destruct (f a); [ reflexivity | exact IH ].
Qed.

Lemma find_first_occurrence {A} (f : A -> bool) (l : list A) (x : A) :
  find f l = Some x ->
  exists pre post,
    l = pre ++ x :: post /\ f x = true /\ (forall y, In y pre -> f y = false).
Proof.
  induction l as [ | a l IH ]; [ discriminate | ].
  cbn [find]. destruct (f a) eqn:Ha.
  - intros [= ->]. exists [], l. repeat split; [ exact Ha | intros y [] ].
  - intros Hx. destruct (IH Hx) as (pre & post & -> & Hfx & Hpre).
    exists (a :: pre), post. repeat split; [ exact Hfx | ].
    intros y [ <- | Hy ]; [ exact Ha | now apply Hpre ].
Qed.

(** The [for] loop of [_detect_original_sink]: each matching sink overwrites
    the attribute, so the last one stays. *)
Lemma detect_loop_run (ss : list Pulse.sink_info) (w : World) :
  for_each ss
    (fun sink =>
       if str_in HEADSET_NAME (Pulse.sink_name sink)
       then set_PW_ORIGINAL_SINK (Some (Pulse.sink_name sink))
       else ret tt) w
  = (Ok tt,
     match find is_headset (rev ss) with
     | Some s => snd (set_PW_ORIGINAL_SINK (Some (Pulse.sink_name s)) w)
     | None => w
     end).
Proof.
  revert w. induction ss as [ | a ss IH ]; intros w; [ reflexivity | ].
  cbn [for_each rev]. rewrite find_app_split. unfold bind at 1.
  cbn [find]. fold (is_headset a).
  destruct (is_headset a) eqn:Ha.
  - cbn [set_PW_ORIGINAL_SINK modify_self]. rewrite IH.
    destruct (find is_headset (rev ss)); reflexivity.
  - cbn [ret]. rewrite IH.
    destruct (find is_headset (rev ss)); reflexivity.
Qed.

Lemma detect_original_sink_run (w : World) :
  truthy (PW_ORIGINAL_SINK (self w)) = false ->
  _detect_original_sink w
  = (Ok tt,
     match last_match (pulse w) with
     | Some s => snd (set_PW_ORIGINAL_SINK (Some (Pulse.sink_name s)) w)
     | None => w
     end).
Proof.
  intros Hunset. unfold _detect_original_sink, bind, get_self.
  rewrite Hunset. cbn [pulse_sink_list]. apply detect_loop_run.
Qed.

Lemma last_match_exists (p : Pulse.server) :
  matching_sinks p <> [] -> exists s, last_match p = Some s.
Proof.
  unfold matching_sinks, last_match. intros Hne.
  destruct (find is_headset (rev (Pulse.sinks p))) as [ s | ] eqn:Hf;
    [ now exists s | ].
  exfalso. apply Hne.
  destruct (filter is_headset (Pulse.sinks p)) as [ | x l ] eqn:Hfl;
    [ reflexivity | ].
  assert (Hin : In x (filter is_headset (Pulse.sinks p)))
    by (rewrite Hfl; now left).
  apply filter_In in Hin. destruct Hin as [Hin Hx].
  apply in_rev in Hin.
  rewrite (find_none _ _ Hf x Hin) in Hx. discriminate.
Qed.

(** C5, failing as stated: with two sinks of the headset in the list, the
    second one (the last) is selected, not the first. *)
Lemma detect_selects_last_not_first :
  first_match (pulse (world_with [headset_sink; headset_digital_sink] []))
  = Some headset_sink
  /\ exists w',
       _detect_original_sink
         (world_with [headset_sink; headset_digital_sink] [])
       = (Ok tt, w')
       /\ PW_ORIGINAL_SINK (self w')
          = Some (Pulse.sink_name headset_digital_sink)
       /\ PW_ORIGINAL_SINK (self w')
          <> Some (Pulse.sink_name headset_sink).
Proof.
  split; [ reflexivity | ].
  eexists. split; [ vm_compute; reflexivity | ].
  split; [ reflexivity | discriminate ].
Qed.

(** C5, amended: when no target is set and at least one sink name contains
    the headset name, the sink selected is the last such sink of the list:
    no sink after it in the list matches. *)
Theorem detect_selects_last_match (w : World) :
  truthy (PW_ORIGINAL_SINK (self w)) = false ->
  matching_sinks (pulse w) <> [] ->
  exists s w' pre post,
    _detect_original_sink w = (Ok tt, w')
    /\ PW_ORIGINAL_SINK (self w') = Some (Pulse.sink_name s)
    /\ last_match (pulse w) = Some s
    /\ Pulse.sinks (pulse w) = pre ++ s :: post
    /\ is_headset s = true
    /\ (forall t, In t post -> is_headset t = false).
Proof.
  intros Hunset Hsome.
  destruct (last_match_exists _ Hsome) as (s & Hs).
  destruct (find_first_occurrence _ _ _ Hs) as (a & b & Hrev & Hfs & Ha).
  exists s. eexists. exists (rev b), (rev a).
  split; [ rewrite (detect_original_sink_run w Hunset), Hs; reflexivity | ].
  split; [ reflexivity | ]. split; [ exact Hs | ]. split.
  - rewrite <- (rev_involutive (Pulse.sinks (pulse w))), Hrev.
    rewrite rev_app_distr. cbn [rev]. now rewrite <- app_assoc.
  - split; [ exact Hfs | ]. intros t Ht. apply Ha. now apply in_rev.
Qed.

Lemma detect_selects_last_match_witness :
  truthy (PW_ORIGINAL_SINK
            (self (world_with [headset_sink; headset_digital_sink;
                               speakers_sink] []))) = false
  /\ matching_sinks
       (pulse (world_with [headset_sink; headset_digital_sink;
                           speakers_sink] [])) <> []
  /\ exists s w' pre post,
       _detect_original_sink
         (world_with [headset_sink; headset_digital_sink; speakers_sink] [])
       = (Ok tt, w')
       /\ PW_ORIGINAL_SINK (self w') = Some (Pulse.sink_name s)
       /\ last_match
            (pulse (world_with [headset_sink; headset_digital_sink;
                                speakers_sink] [])) = Some s
       /\ Pulse.sinks
            (pulse (world_with [headset_sink; headset_digital_sink;
                                speakers_sink] []))
          = pre ++ s :: post
       /\ is_headset s = true
       /\ (forall t, In t post -> is_headset t = false).
Proof.
  split; [ reflexivity | ]. split; [ vm_compute; discriminate | ].
  apply (detect_selects_last_match
           (world_with [headset_sink; headset_digital_sink; speakers_sink] [])).
  - reflexivity.
  - vm_compute. discriminate.
Defined.

End Detection.


(** ** Creating the virtual sinks *)

Section Startup.

Local Arguments combine_sink_argument : simpl never.
Local Arguments Pulse.mem_string : simpl never.

Lemma create_sink_accepted (sink_name : string) (out : option string) (w : World) :
  Pulse.connect_faults (pulse w) = [] ->
  Pulse.mem_string (combine_sink_argument sink_name out)
    (Pulse.load_refused (pulse w)) = false ->
  _create_sink sink_name out w
  = (Ok (Pulse.next_module (pulse w)),
     with_pulse
       (snd (Pulse.module_load "module-combine-sink"
               (combine_sink_argument sink_name out) (pulse w))) w).
Proof.
  intros Hcon Hok.
  unfold _create_sink, bind at 1. rewrite (pulse_connect_ok _ w Hcon).
  unfold try_except, bind, pulse_module_load, Pulse.module_load.
  rewrite Hok. reflexivity.
Qed.

(** A refused load: the handler fails on its first statement, before it
    unloads or prints anything. *)
Lemma create_sink_refused (sink_name : string) (out : option string) (w : World) :
  Pulse.connect_faults (pulse w) = [] ->
  Pulse.mem_string (combine_sink_argument sink_name out)
    (Pulse.load_refused (pulse w)) = true ->
  _create_sink sink_name out w = (Raise UnboundLocalError, with_pulse (pulse w) w).
Proof.
  intros Hcon Hno.
  unfold _create_sink, bind at 1. rewrite (pulse_connect_ok _ w Hcon).
  unfold try_except, bind, pulse_module_load, Pulse.module_load.
  rewrite Hno. reflexivity.
Qed.


(** C4, where the server refuses the second sink: [_create_sink] reads its
    unbound [new_sink] in the handler and raises [UnboundLocalError] out of
    [_start_virtual_sinks] and [chatmix]; the game sink made just before
    stays loaded and its identifier stays set, so exactly one Sink Binding
    is left, and nothing has been unloaded or even printed. *)
Theorem refused_second_sink_leaves_one_binding :
  exists w',
    _start_virtual_sinks (world_with [headset_sink] chat_sink_refused)
    = (Raise UnboundLocalError, w')
    /\ (forall fuel, chatmix fuel (world_with [headset_sink] chat_sink_refused)
                     = (Raise UnboundLocalError, w'))
    /\ sink_bindings (self w') = 1%nat
    /\ PW_LOOPBACK_GAME_MODULE_ID (self w') = Some 20
    /\ PW_LOOPBACK_CHAT_MODULE_ID (self w') = None
    /\ module_loaded 20 (pulse w') = true
    /\ stdout w' = [].
Proof.
  eexists. split; [ vm_compute; reflexivity | ].
  split.
  { intros fuel. unfold chatmix, bind.
    replace (_start_virtual_sinks (world_with [headset_sink] chat_sink_refused))
      with (@Raise unit UnboundLocalError, half_started_world)
      by (vm_compute; reflexivity).
    vm_compute. reflexivity. }
  repeat split.
Qed.




End Startup.

(** ** Applying a ChatMix report *)

Section Volumes.

Local Arguments Pulse.mem_Z : simpl never.

Lemma find_owned_retune (m : option Z) (target : Pulse.sink_info) (v : float)
    (l : list Pulse.sink_info) :
  find (Pulse.owned_by m) (map (Pulse.retune target v) l)
  = option_map (Pulse.retune target v) (find (Pulse.owned_by m) l).
Proof.
  induction l as [ | s l IH ]; [ reflexivity | ].
  cbn [map find].
  replace (Pulse.owned_by m (Pulse.retune target v s)) with (Pulse.owned_by m s)
    by (unfold Pulse.retune; destruct (_ =? _); reflexivity).
  destruct (Pulse.owned_by m s); [ reflexivity | exact IH ].
Qed.

Lemma retune_other (t : Pulse.sink_info) (v : float) (s : Pulse.sink_info) :
  Pulse.sink_index s <> Pulse.sink_index t -> Pulse.retune t v s = s.
Proof.
  intros Hne. unfold Pulse.retune.
  now replace (_ =? _) with false by (symmetry; now apply Z.eqb_neq).
Qed.

Lemma retune_target (t : Pulse.sink_info) (v : float) :
  Pulse.retune t v t = Pulse.with_volume v t.
Proof. unfold Pulse.retune. now rewrite Z.eqb_refl. Qed.

Lemma retune_index (t : Pulse.sink_info) (v : float) (s : Pulse.sink_info) :
  Pulse.sink_index (Pulse.retune t v s) = Pulse.sink_index s.
Proof. unfold Pulse.retune. destruct (_ =? _); reflexivity. Qed.

(** [_set_sink_volume] once its client has connected: it never raises.
    When the module owns a sink, either the server takes the volume, or it
    refuses and the failure is printed and the server is left as it was;
    when it owns none, that is printed. *)
Lemma set_sink_volume_run (m : option Z) (v : float) (w : World) :
  Pulse.connect_faults (pulse w) = [] ->
  _set_sink_volume m v w
  = (Ok tt,
     {| self := self w; dev := dev w;
        pulse := volume_applied m v (pulse w);
        stdout := stdout w ++ volume_messages m (pulse w) |}).
Proof.
  intros Hcon.
  unfold _set_sink_volume, bind at 1. rewrite (pulse_connect_ok _ w Hcon).
  unfold try_except, bind, pulse_sink_list, volume_applied, volume_messages.
  destruct w as [o d p out]. cbn [pulse self dev stdout].
  destruct (find (Pulse.owned_by m) (Pulse.sinks p)) as [ t | ];
    [ | reflexivity ].
  unfold pulse_volume_set_all_chans, Pulse.volume_set_all_chans. cbn [pulse].
  destruct (Pulse.mem_Z (Pulse.sink_index t) (Pulse.volume_refused p));
    cbn; rewrite ?app_nil_r; reflexivity.
Qed.

Lemma volume_applied_frame (m : option Z) (v : float) (p : Pulse.server) :
  Pulse.modules (volume_applied m v p) = Pulse.modules p
  /\ Pulse.next_module (volume_applied m v p) = Pulse.next_module p
  /\ Pulse.next_sink (volume_applied m v p) = Pulse.next_sink p
  /\ Pulse.load_refused (volume_applied m v p) = Pulse.load_refused p
  /\ Pulse.volume_refused (volume_applied m v p) = Pulse.volume_refused p
  /\ Pulse.connect_faults (volume_applied m v p) = Pulse.connect_faults p
  /\ Pulse.module_list_refused (volume_applied m v p)
     = Pulse.module_list_refused p
  /\ Pulse.unload_refused (volume_applied m v p) = Pulse.unload_refused p.
Proof.
  unfold volume_applied, Pulse.volume_set_all_chans.
  destruct (find _ _) as [ t | ]; [ | repeat split ].
  destruct (Pulse.mem_Z _ _); repeat split.
Qed.

Lemma answers_volume_applied (m : option Z) (v : float) (p : Pulse.server) :
  answers (volume_applied m v p) = answers p.
Proof.
  unfold answers.
  destruct (volume_applied_frame m v p)
    as (_ & _ & _ & _ & _ & -> & -> & ->).
  reflexivity.
Qed.

(** The sink a module owns, after a volume has been applied for another
    module or for the same. *)
Lemma volume_applied_find (m' m : option Z) (v : float) (p : Pulse.server) :
  find (Pulse.owned_by m') (Pulse.sinks (volume_applied m v p))
  = match find (Pulse.owned_by m) (Pulse.sinks p) with
    | Some t =>
        if Pulse.mem_Z (Pulse.sink_index t) (Pulse.volume_refused p)
        then find (Pulse.owned_by m') (Pulse.sinks p)
        else option_map (Pulse.retune t v)
               (find (Pulse.owned_by m') (Pulse.sinks p))
    | None => find (Pulse.owned_by m') (Pulse.sinks p)
    end.
Proof.
  unfold volume_applied, Pulse.volume_set_all_chans.
  destruct (find (Pulse.owned_by m) (Pulse.sinks p)) as [ t | ];
    [ | reflexivity ].
  destruct (Pulse.mem_Z _ _); [ reflexivity | ].
  cbn [snd Pulse.sinks]. apply find_owned_retune.
Qed.

(** A sink that takes its volume has it. *)
Lemma volume_applied_sets (m : option Z) (v : float) (p : Pulse.server)
    (t : Pulse.sink_info) :
  find (Pulse.owned_by m) (Pulse.sinks p) = Some t ->
  Pulse.mem_Z (Pulse.sink_index t) (Pulse.volume_refused p) = false ->
  volume_of m (volume_applied m v p) = Some v.
Proof.
  intros Hfind Hok. unfold volume_of.
  rewrite volume_applied_find, Hfind, Hok. cbn [option_map].
  now rewrite retune_target.
Qed.

(** A round that reads a ChatMix report, on a server that can be reached:
    the two volumes are applied, the game sink's first. *)
Lemma chatmix_round_report
    (d g c : Z) (tail : list Z) (rest : list Usb.read_outcome) (w : World) :
  Usb.rx_pending (dev w)
  = Usb.RxData (d :: OPT_CHATMIX :: g :: c :: tail) :: rest ->
  Pulse.connect_faults (pulse w) = [] ->
  chatmix_round w
  = (Ok tt,
     {| self := self w;
        dev := {| Usb.rx_pending := rest;
                  Usb.tx_log := Usb.tx_log (dev w);
                  Usb.tx_outcomes := Usb.tx_outcomes (dev w) |};
        pulse :=
          volume_applied (PW_LOOPBACK_CHAT_MODULE_ID (self w)) (int_mul_0_01 c)
            (volume_applied (PW_LOOPBACK_GAME_MODULE_ID (self w))
               (int_mul_0_01 g) (pulse w));
        stdout :=
          (stdout w
           ++ volume_messages (PW_LOOPBACK_GAME_MODULE_ID (self w)) (pulse w))
          ++ volume_messages (PW_LOOPBACK_CHAT_MODULE_ID (self w))
               (volume_applied (PW_LOOPBACK_GAME_MODULE_ID (self w))
                  (int_mul_0_01 g) (pulse w)) |}).
Proof.
  destruct w as [[orig gid cid ce se cl] [rx tx tf] p out].
  cbn [dev pulse self stdout Usb.rx_pending Usb.tx_log Usb.tx_outcomes
       PW_LOOPBACK_GAME_MODULE_ID PW_LOOPBACK_CHAT_MODULE_ID].
  intros -> Hcon.
  unfold chatmix_round, try_except, chatmix_try, bind, dev_read, lift,
    get_self, with_dev.
  cbn -[_set_sink_volume int_mul_0_01 volume_applied volume_messages].
  rewrite set_sink_volume_run by exact Hcon.
  cbn -[_set_sink_volume int_mul_0_01 volume_applied volume_messages].
  rewrite set_sink_volume_run
    by (cbn [pulse];
        destruct (volume_applied_frame gid (int_mul_0_01 g) p)
          as (_ & _ & _ & _ & _ & -> & _); exact Hcon).
  reflexivity.
Qed.

(** C8, failing as stated: the sinks are up and the server takes every
    volume, but the connection made for the game sink's volume fails.  The
    [PulseError] leaves the round and [chatmix]; the chat sink's volume is
    never asked for, although nothing stood in its way: the same call made
    on the world the round leaves sets it. *)
Lemma chat_volume_waits_on_game_connection :
  exists w',
    chatmix_round
      (with_next_read (Usb.RxData (chatmix_report RX 80 30))
         (with_connect_faults [true] running_world))
    = (Raise PulseError, w')
    /\ chatmix_loop 1
         (with_next_read (Usb.RxData (chatmix_report RX 80 30))
            (with_connect_faults [true] running_world))
       = (Raise PulseError, w')
    /\ volume_of (Some 20) (pulse w') = Some 1%float
    /\ volume_of (Some 21) (pulse w') = Some 1%float
    /\ exists w2,
         _set_sink_volume (Some 21) (int_mul_0_01 30) w' = (Ok tt, w2)
         /\ volume_of (Some 21) (pulse w2) = Some (int_mul_0_01 30).
Proof.
  eexists. split; [ vm_compute; reflexivity | ].
  split; [ vm_compute; reflexivity | ].
  split; [ reflexivity | ]. split; [ reflexivity | ].
  eexists. split; [ vm_compute; reflexivity | reflexivity ].
Qed.

(** C8, amended: when the audio server can be reached, a ChatMix report
    with bytes [(g, c)] makes one round that raises nothing and calls
    [_set_sink_volume] for the game sink with [g * 0.01] and then for the
    chat sink with [c * 0.01].  Each sink takes its volume whenever it
    exists and the server accepts that sink's own request, whether the
    other sink exists or not and whether the other's request is accepted
    or refused.  Bytes [(100, 50)] give [(1.0, 0.5)] and [(0, 0)] give
    [(0.0, 0.0)]. *)
Theorem chatmix_report_sets_both_volumes
    (w : World) (d g c : Z) (rest : list Z) :
  Pulse.connect_faults (pulse w) = [] ->
  exists w1 w',
    _set_sink_volume (PW_LOOPBACK_GAME_MODULE_ID (self w)) (int_mul_0_01 g) w
    = (Ok tt, w1)
    /\ _set_sink_volume (PW_LOOPBACK_CHAT_MODULE_ID (self w))
         (int_mul_0_01 c) w1
       = (Ok tt, w')
    /\ chatmix_round
         (with_next_read (Usb.RxData (d :: OPT_CHATMIX :: g :: c :: rest)) w)
       = (Ok tt, w')
    /\ (forall sg,
          find (Pulse.owned_by (PW_LOOPBACK_GAME_MODULE_ID (self w)))
            (Pulse.sinks (pulse w)) = Some sg ->
          Pulse.mem_Z (Pulse.sink_index sg) (Pulse.volume_refused (pulse w))
          = false ->
          (forall sc,
             find (Pulse.owned_by (PW_LOOPBACK_CHAT_MODULE_ID (self w)))
               (Pulse.sinks (pulse w)) = Some sc ->
             Pulse.sink_index sg <> Pulse.sink_index sc) ->
          volume_of (PW_LOOPBACK_GAME_MODULE_ID (self w)) (pulse w')
          = Some (int_mul_0_01 g))
    /\ (forall sc,
          find (Pulse.owned_by (PW_LOOPBACK_CHAT_MODULE_ID (self w)))
            (Pulse.sinks (pulse w)) = Some sc ->
          Pulse.mem_Z (Pulse.sink_index sc) (Pulse.volume_refused (pulse w))
          = false ->
          volume_of (PW_LOOPBACK_CHAT_MODULE_ID (self w)) (pulse w')
          = Some (int_mul_0_01 c))
    /\ self w' = self w
    /\ int_mul_0_01 100 = 1%float /\ int_mul_0_01 50 = 0.5%float
    /\ int_mul_0_01 0 = 0%float.
Proof.
  intros Hcon.
  set (gid := PW_LOOPBACK_GAME_MODULE_ID (self w)).
  set (cid := PW_LOOPBACK_CHAT_MODULE_ID (self w)).
  set (p1 := volume_applied gid (int_mul_0_01 g) (pulse w)).
  destruct (volume_applied_frame gid (int_mul_0_01 g) (pulse w))
    as (_ & _ & _ & _ & Hvr & Hcon1 & _).
  fold p1 in Hvr, Hcon1.
  do 2 eexists.
  split; [ apply (set_sink_volume_run gid _ w Hcon) | ].
  split.
  { rewrite set_sink_volume_run by (cbn [pulse]; fold p1; now rewrite Hcon1).
    cbn [self dev pulse stdout]. reflexivity. }
  split.
  { rewrite (chatmix_round_report d g c rest (Usb.rx_pending (dev w)))
      by (try reflexivity; exact Hcon).
    destruct w as [o [rx tx tf] p out]. reflexivity. }
  cbn [pulse self]. fold gid cid p1.
  split.
  { intros sg Hsg Hok Hne. unfold volume_of.
    rewrite volume_applied_find. fold p1.
    assert (Hg1 : find (Pulse.owned_by gid) (Pulse.sinks p1)
                  = Some (Pulse.with_volume (int_mul_0_01 g) sg)).
    { unfold p1. rewrite volume_applied_find, Hsg, Hok. cbn [option_map].
      now rewrite retune_target. }
    rewrite Hg1.
    destruct (find (Pulse.owned_by cid) (Pulse.sinks p1)) as [ sc1 | ] eqn:Hc1;
      [ | reflexivity ].
    destruct (Pulse.mem_Z (Pulse.sink_index sc1) (Pulse.volume_refused p1));
      [ reflexivity | ].
    cbn [option_map]. rewrite retune_other; [ reflexivity | ].
    unfold p1 in Hc1. rewrite volume_applied_find, Hsg, Hok in Hc1.
    destruct (find (Pulse.owned_by cid) (Pulse.sinks (pulse w)))
      as [ sc | ] eqn:Hsc; [ | discriminate ].
    cbn [option_map] in Hc1. assert (sc1 = Pulse.retune sg (int_mul_0_01 g) sc)
      by congruence.
    subst sc1. rewrite retune_index. cbn [Pulse.sink_index Pulse.with_volume].
    now apply Hne. }
  split.
  { intros sc Hsc Hok.
    assert (Hc1 : exists sc1,
              find (Pulse.owned_by cid) (Pulse.sinks p1) = Some sc1
              /\ Pulse.sink_index sc1 = Pulse.sink_index sc).
    { unfold p1. rewrite volume_applied_find, Hsc.
      destruct (find (Pulse.owned_by gid) (Pulse.sinks (pulse w))) as [ sg | ];
        [ | now exists sc ].
      destruct (Pulse.mem_Z (Pulse.sink_index sg) _); [ now exists sc | ].
      cbn [option_map]. eexists. split; [ reflexivity | apply retune_index ]. }
    destruct Hc1 as (sc1 & Hc1 & Hidx).
    apply (volume_applied_sets cid _ p1 sc1 Hc1).
    now rewrite Hidx, Hvr. }
  repeat split.
Qed.

Lemma chatmix_report_sets_both_volumes_witness :
  Pulse.connect_faults (pulse running_world) = []
  /\ exists w1 w',
       _set_sink_volume (Some 20) (int_mul_0_01 80) running_world = (Ok tt, w1)
       /\ _set_sink_volume (Some 21) (int_mul_0_01 30) w1 = (Ok tt, w')
       /\ chatmix_round
            (with_next_read
               (Usb.RxData (RX :: OPT_CHATMIX :: 80 :: 30 :: repeat 0 60))
               running_world)
          = (Ok tt, w')
       /\ volume_of (Some 20) (pulse w') = Some (int_mul_0_01 80)
       /\ volume_of (Some 21) (pulse w') = Some (int_mul_0_01 30)
       /\ self w' = self running_world.
Proof.
  split; [ reflexivity | ].
  destruct (chatmix_report_sets_both_volumes running_world RX 80 30
              (repeat 0 60))
    as (w1 & w' & H1 & H2 & Hround & Hg & Hc & Hself & _);
    [ reflexivity | ].
  exists w1, w'. split; [ exact H1 | ]. split; [ exact H2 | ].
  split; [ exact Hround | ].
  split.
  { apply (Hg nova_game_sink); [ reflexivity | reflexivity | ].
    intros sc Hsc. vm_compute in Hsc. injection Hsc as <-. discriminate. }
  split; [ apply (Hc nova_chat_sink); reflexivity | exact Hself ].
Defined.

End Volumes.

(** ** Shutting down *)

Section Shutdown.

Local Arguments _remove_virtual_sinks : simpl never.

(** [close] on a device that takes every write and a server that
    answers. *)
Lemma close_run (w : World) :
  Usb.tx_outcomes (dev w) = [] ->
  answers (pulse w) = true ->
  close w
  = (Ok tt,
     {| self :=
          {| PW_ORIGINAL_SINK := PW_ORIGINAL_SINK (self w);
             PW_LOOPBACK_GAME_MODULE_ID := None;
             PW_LOOPBACK_CHAT_MODULE_ID := None;
             CHATMIX_CONTROLS_ENABLED := false;
             SONAR_ICON_ENABLED := false;
             CLOSE := true |};
        dev := {| Usb.rx_pending := Usb.rx_pending (dev w);
                  Usb.tx_log := Usb.tx_log (dev w)
                                ++ disable_messages (self w);
                  Usb.tx_outcomes := [] |};
        pulse := torn_down (self w) (pulse w);
        stdout := stdout w |}).
Proof.
  destruct w as [[orig g c ce se cl] [rx tx tf] p out].
  cbn [dev pulse Usb.tx_outcomes]. intros -> Hans.
  unfold close, bind, set_CLOSE, modify_self, get_self, set_sonar_icon,
    set_chatmix_controls, bind, lift, dev_write, set_SONAR_ICON_ENABLED,
    set_CHATMIX_CONTROLS_ENABLED, modify_self, with_self, with_dev,
    disable_messages.
  destruct ce, se; cbn; rewrite remove_virtual_sinks_exact by exact Hans; cbn;
    rewrite <- ?app_assoc, ?app_nil_r; reflexivity.
Qed.

(** C9, failing as stated: only the status icon is enabled and both sinks
    are up, but the write of the disable command fails.  The [USBError]
    leaves [close] before the teardown: both Sink Bindings remain, their
    modules loaded, and nothing has been sent. *)
Lemma failed_disable_write_skips_teardown :
  SONAR_ICON_ENABLED (self (with_tx_outcomes [Usb.TxError] icon_only_world))
  = true
  /\ CHATMIX_CONTROLS_ENABLED
       (self (with_tx_outcomes [Usb.TxError] icon_only_world)) = false
  /\ exists w',
       close (with_tx_outcomes [Usb.TxError] icon_only_world)
       = (Raise USBError, w')
       /\ Usb.tx_log (dev w') = Usb.tx_log (dev icon_only_world)
       /\ sink_bindings (self w') = 2%nat
       /\ PW_LOOPBACK_GAME_MODULE_ID (self w') = Some 20
       /\ PW_LOOPBACK_CHAT_MODULE_ID (self w') = Some 21
       /\ module_loaded 20 (pulse w') = true
       /\ module_loaded 21 (pulse w') = true
       /\ SONAR_ICON_ENABLED (self w') = true.
Proof.
  split; [ reflexivity | ]. split; [ reflexivity | ].
  eexists. split; [ vm_compute; reflexivity | ].
  repeat split.
Qed.

(** C9, amended: with only the status icon enabled, a device that takes the
    write and an audio server that answers the teardown, [close] writes
    exactly one message to the device, the one that disables the icon
    (opcode 141, payload 0), and none for the ChatMix controls; it sets
    [CLOSE], and it removes the virtual sinks whatever the flags: both
    identifiers end up [None] and their modules unloaded. *)
Theorem close_disables_only_status_icon (w : World) :
  SONAR_ICON_ENABLED (self w) = true ->
  CHATMIX_CONTROLS_ENABLED (self w) = false ->
  Usb.tx_outcomes (dev w) = [] ->
  answers (pulse w) = true ->
  exists w',
    close w = (Ok tt, w')
    /\ Usb.tx_log (dev w')
       = Usb.tx_log (dev w)
         ++ [ (ENDPOINT_TX, [TX; OPT_SONAR_ICON; 0] ++ repeat 0x30 61) ]
    /\ Usb.rx_pending (dev w') = Usb.rx_pending (dev w)
    /\ SONAR_ICON_ENABLED (self w') = false
    /\ CHATMIX_CONTROLS_ENABLED (self w') = false
    /\ CLOSE (self w') = true
    /\ sink_bindings (self w') = 0%nat
    /\ PW_LOOPBACK_GAME_MODULE_ID (self w') = None
    /\ PW_LOOPBACK_CHAT_MODULE_ID (self w') = None
    /\ (forall i, PW_LOOPBACK_GAME_MODULE_ID (self w) = Some i
                  \/ PW_LOOPBACK_CHAT_MODULE_ID (self w) = Some i ->
                  module_loaded i (pulse w') = false).
Proof.
  intros Hicon Hmix Htx Hans.
  rewrite (close_run w Htx Hans). eexists. split; [ reflexivity | ].
  cbn [self dev pulse Usb.tx_log Usb.rx_pending SONAR_ICON_ENABLED
       CHATMIX_CONTROLS_ENABLED CLOSE PW_LOOPBACK_GAME_MODULE_ID
       PW_LOOPBACK_CHAT_MODULE_ID sink_bindings].
  unfold disable_messages. rewrite Hicon, Hmix.
  repeat split.
  intros i Hi. apply torn_down_unloads. now apply is_binding_of_id.
Qed.

Lemma close_disables_only_status_icon_witness :
  SONAR_ICON_ENABLED (self icon_only_world) = true
  /\ CHATMIX_CONTROLS_ENABLED (self icon_only_world) = false
  /\ Usb.tx_outcomes (dev icon_only_world) = []
  /\ answers (pulse icon_only_world) = true
  /\ sink_bindings (self icon_only_world) = 2%nat
  /\ exists w',
       close icon_only_world = (Ok tt, w')
       /\ Usb.tx_log (dev w')
          = Usb.tx_log (dev icon_only_world)
            ++ [ (ENDPOINT_TX, [TX; OPT_SONAR_ICON; 0] ++ repeat 0x30 61) ]
       /\ Usb.rx_pending (dev w') = Usb.rx_pending (dev icon_only_world)
       /\ SONAR_ICON_ENABLED (self w') = false
       /\ CHATMIX_CONTROLS_ENABLED (self w') = false
       /\ CLOSE (self w') = true
       /\ sink_bindings (self w') = 0%nat
       /\ PW_LOOPBACK_GAME_MODULE_ID (self w') = None
       /\ PW_LOOPBACK_CHAT_MODULE_ID (self w') = None
       /\ (forall i,
             PW_LOOPBACK_GAME_MODULE_ID (self icon_only_world) = Some i
             \/ PW_LOOPBACK_CHAT_MODULE_ID (self icon_only_world) = Some i ->
             module_loaded i (pulse w') = false).
Proof.
  split; [ reflexivity | ]. split; [ reflexivity | ]. split; [ reflexivity | ].
  split; [ reflexivity | ]. split; [ reflexivity | ].
  apply (close_disables_only_status_icon icon_only_world); reflexivity.
Defined.

End Shutdown.

(** ** The direction byte of a received message *)

Section Direction.

(** C10, failing as stated: in debug mode [print_output] prints the message
    it received before it classifies it, so two volume reports that differ
    in the direction byte only leave different output. *)
Lemma debug_echo_shows_direction_byte :
  stdout (snd (print_output true 1
                 (with_next_read (Usb.RxData (volume_report RX 10))
                    running_world)))
  = [ PrintRaw (volume_report RX 10); PrintVolume 10 ]
  /\ stdout (snd (print_output true 1
                    (with_next_read (Usb.RxData (volume_report TX 10))
                       running_world)))
     = [ PrintRaw (volume_report TX 10); PrintVolume 10 ]
  /\ print_output true 1
       (with_next_read (Usb.RxData (volume_report TX 10)) running_world)
     <> print_output true 1
          (with_next_read (Usb.RxData (volume_report RX 10)) running_world).
Proof.
  split; [ reflexivity | ]. split; [ reflexivity | ].
  intros Heq.
  apply (f_equal (fun r => stdout (snd r))) in Heq.
  vm_compute in Heq. discriminate Heq.
Qed.

(** C10, amended: neither loop tests the direction byte.  On a received
    message, a round of the loop of [chatmix], the [match] of
    [print_output], and a round of [print_output] without [debug] do the
    same whatever byte 0 is; with [debug] a round differs only in the raw
    message it prints first, which is the message as received. *)
Theorem direction_byte_is_not_tested
    (d d' : Z) (rest : list Z) (w : World) :
  chatmix_round (with_next_read (Usb.RxData (d :: rest)) w)
  = chatmix_round (with_next_read (Usb.RxData (d' :: rest)) w)
  /\ print_message (d :: rest) w = print_message (d' :: rest) w
  /\ print_output_round false (with_next_read (Usb.RxData (d :: rest)) w)
     = print_output_round false (with_next_read (Usb.RxData (d' :: rest)) w)
  /\ print_output_round true (with_next_read (Usb.RxData (d :: rest)) w)
     = try_except
         (print (PrintRaw (d :: rest)) ;; print_message (d' :: rest))
         is_USBTimeoutError (ret tt) w.
Proof.
  split; [ reflexivity | ]. split; [ reflexivity | ].
  split; [ reflexivity | ].
  destruct w as [o [rx tx tf] p out]. reflexivity.
Qed.

End Direction.


(** * Further properties *)

(** ** The message builder, both ways *)

Section CodecRoundTrip.

Lemma forallb_is_byte_false (l : list Z) :
  forallb is_byte l = false <-> exists x, In x l /\ (x < 0 \/ 255 < x).
Proof.
  split.
  - induction l as [ | a l IH ]; [ discriminate | ].
    cbn [forallb]. destruct (is_byte a) eqn:Ha; cbn [andb].
    + intros Hl. destruct (IH Hl) as (x & Hin & Hx).
      exists x. split; [ now right | exact Hx ].
    + intros _. exists a. split; [ now left | ].
      unfold is_byte in Ha. lia.
  - intros (x & Hin & Hx).
    destruct (forallb is_byte l) eqn:Hall; [ | reflexivity ].
    rewrite forallb_forall in Hall. specialize (Hall x Hin).
    unfold is_byte in Hall. lia.
Qed.

(** X1: [encode] raises [ValueError] exactly when the opcode or some
    payload element is not in [range(0, 256)]; it raises nothing else. *)
Theorem encode_raises_exactly_on_non_bytes (opcode : Z) (payload : list Z) :
  (encode opcode payload = Raise ValueError
   <-> exists x, In x (opcode :: payload) /\ (x < 0 \/ 255 < x))
  /\ (forall e, encode opcode payload = Raise e -> e = ValueError).
Proof.
  unfold encode, _create_msgdata, bytes.
  change (forallb is_byte (TX :: opcode :: payload))
    with (forallb is_byte (opcode :: payload)).
  destruct (forallb is_byte (opcode :: payload)) eqn:Hall.
  - split; [ split | ].
    + discriminate.
    + intros Hbad. apply forallb_is_byte_false in Hbad. congruence.
    + discriminate.
  - split; [ split | ].
    + intros _. now apply forallb_is_byte_false.
    + reflexivity.
    + now intros e [= <-].
Qed.

(** X2: reading an encoded message back gives the opcode at byte 1 and the
    payload, in order, from byte 2 on, whatever the payload's length. *)
Theorem encode_keeps_opcode_and_payload (opcode : Z) (payload : list Z) :
  is_byte opcode = true -> forallb is_byte payload = true ->
  exists m,
    encode opcode payload = Ok m
    /\ getitem m 0 = Ok TX
    /\ getitem m 1 = Ok opcode
    /\ firstn (length payload) (skipn 2 m) = payload.
Proof.
  intros Ho Hp. eexists. split; [ now apply encode_bytes | ].
  split; [ reflexivity | ]. split; [ reflexivity | ].
  unfold ljust. cbn [app skipn].
  rewrite firstn_app, Nat.sub_diag, firstn_all. cbn [firstn].
  apply app_nil_r.
Qed.

Lemma encode_keeps_opcode_and_payload_witness :
  is_byte OPT_EQ = true /\ forallb is_byte [3; 24] = true
  /\ exists m,
       encode OPT_EQ [3; 24] = Ok m
       /\ getitem m 0 = Ok TX
       /\ getitem m 1 = Ok OPT_EQ
       /\ firstn (length [3; 24]) (skipn 2 m) = [3; 24].
Proof.
  split; [ reflexivity | ]. split; [ reflexivity | ].
  apply (encode_keeps_opcode_and_payload OPT_EQ [3; 24]); reflexivity.
Defined.

(** X3: [print_output]'s [match] decodes what [encode] builds for the four
    opcodes it knows: the values printed are the payload bytes given (for
    the equalizer, [(value - 20) / 2]). *)
Theorem print_message_decodes_encode (a b : Z) (w : World) :
  is_byte a = true -> is_byte b = true ->
  (exists m, encode OPT_VOLUME [a] = Ok m
             /\ print_message m w = print (PrintVolume a) w)
  /\ (exists m, encode OPT_CHATMIX [a; b] = Ok m
                /\ print_message m w = print (PrintChatMix a b) w)
  /\ (exists m, encode OPT_EQ [a; b] = Ok m
                /\ print_message m w
                   = print (PrintEQ a (int_truediv_2 (b - 20))) w)
  /\ (exists m, encode OPT_EQ_PRESET [a] = Ok m
                /\ print_message m w = print (PrintEQPreset a) w).
Proof.
  intros Ha Hb.
  repeat split; eexists;
    (split; [ apply encode_bytes; cbn [forallb]; rewrite ?Ha, ?Hb; reflexivity
            | reflexivity ]).
Qed.

Lemma print_message_decodes_encode_witness :
  is_byte 80 = true /\ is_byte 30 = true
  /\ (exists m, encode OPT_VOLUME [80] = Ok m
                /\ print_message m running_world
                   = print (PrintVolume 80) running_world)
  /\ (exists m, encode OPT_CHATMIX [80; 30] = Ok m
                /\ print_message m running_world
                   = print (PrintChatMix 80 30) running_world)
  /\ (exists m, encode OPT_EQ [80; 30] = Ok m
                /\ print_message m running_world
                   = print (PrintEQ 80 (int_truediv_2 (30 - 20))) running_world)
  /\ (exists m, encode OPT_EQ_PRESET [80] = Ok m
                /\ print_message m running_world
                   = print (PrintEQPreset 80) running_world).
Proof.
  split; [ reflexivity | ]. split; [ reflexivity | ].
  apply (print_message_decodes_encode 80 30 running_world); reflexivity.
Defined.

End CodecRoundTrip.

(** ** Teardown, exactly *)

Section TeardownExact.

Local Arguments _remove_sink : simpl never.
Local Arguments module_loaded : simpl never.
Local Arguments Pulse.mem_Z : simpl never.

(** X4: on a server that answers, [_remove_sink] unloads the module with
    the given index and no other; when no module has that index it changes
    nothing at all. *)
Theorem remove_sink_unloads_that_module_only (i : Z) (w : World) :
  answers (pulse w) = true ->
  exists w',
    _remove_sink i w = (Ok tt, w')
    /\ self w' = self w /\ dev w' = dev w /\ stdout w' = stdout w
    /\ Pulse.modules (pulse w')
       = filter (fun m => negb (Pulse.index m =? i)) (Pulse.modules (pulse w))
    /\ (forall s, In s (Pulse.sinks (pulse w')) ->
                  In s (Pulse.sinks (pulse w)))
    /\ (forall s, In s (Pulse.sinks (pulse w)) ->
                  Pulse.owner_module s <> i ->
                  In s (Pulse.sinks (pulse w')))
    /\ (module_loaded i (pulse w) = false -> w' = w).
Proof.
  intros Hans.
  rewrite remove_sink_exact by exact Hans. eexists. split; [ reflexivity | ].
  cbn [self dev pulse stdout]. repeat split.
  - apply unload_if_loaded_modules.
  - intros s Hs. now apply unload_if_loaded_sinks in Hs.
  - intros s Hs Hne. apply unload_if_loaded_sinks. now split.
  - intros Hl. unfold unload_if_loaded. rewrite Hl.
    destruct w as [o d p out]. reflexivity.
Qed.

Lemma remove_sink_unloads_that_module_only_witness :
  answers (pulse running_world) = true
  /\ exists w',
       _remove_sink 20 running_world = (Ok tt, w')
       /\ self w' = self running_world
       /\ Pulse.modules (pulse w')
          = filter (fun m => negb (Pulse.index m =? 20))
              (Pulse.modules (pulse running_world))
       /\ In nova_chat_sink (Pulse.sinks (pulse w')).
Proof.
  split; [ reflexivity | ].
  destruct (remove_sink_unloads_that_module_only 20 running_world)
    as (w' & Hrun & Hself & _ & _ & Hm & _ & Hkeep & _);
    [ reflexivity | ].
  exists w'. split; [ exact Hrun | ]. split; [ exact Hself | ].
  split; [ exact Hm | ].
  apply Hkeep; [ vm_compute; tauto | discriminate ].
Defined.

(** X5: on a server that answers, tearing down twice is tearing down
    once: a second [_remove_virtual_sinks] right after the first changes
    nothing. *)
Theorem remove_virtual_sinks_idempotent (w : World) :
  answers (pulse w) = true ->
  exists w',
    _remove_virtual_sinks w = (Ok tt, w')
    /\ _remove_virtual_sinks w' = (Ok tt, w')
    /\ (_remove_virtual_sinks ;; _remove_virtual_sinks) w = (Ok tt, w').
Proof.
  intros Hans.
  eexists. split; [ now apply remove_virtual_sinks_exact | ].
  assert (Hagain :
    _remove_virtual_sinks
      {| self := clear_bindings (self w); dev := dev w;
         pulse := torn_down (self w) (pulse w); stdout := stdout w |}
    = (Ok tt,
       {| self := clear_bindings (self w); dev := dev w;
          pulse := torn_down (self w) (pulse w); stdout := stdout w |}))
    by (now apply remove_virtual_sinks_idle).
  split; [ exact Hagain | ].
  unfold bind. rewrite remove_virtual_sinks_exact by exact Hans.
  now rewrite Hagain.
Qed.

Lemma remove_virtual_sinks_idempotent_witness :
  answers (pulse running_world) = true
  /\ sink_bindings (self running_world) = 2%nat
  /\ exists w',
       _remove_virtual_sinks running_world = (Ok tt, w')
       /\ _remove_virtual_sinks w' = (Ok tt, w')
       /\ (_remove_virtual_sinks ;; _remove_virtual_sinks) running_world
          = (Ok tt, w').
Proof.
  split; [ reflexivity | ]. split; [ reflexivity | ].
  apply (remove_virtual_sinks_idempotent running_world). reflexivity.
Defined.

(** X6: on a server that answers, [_remove_virtual_sinks] takes from the
    server the modules whose index is one of the two identifiers and
    nothing else: every other module stays, no sink of another owner goes,
    none is added, and the sinks of an identifier whose module was loaded
    are gone.  It clears both identifiers. *)
Theorem teardown_removes_only_its_own (w : World) :
  answers (pulse w) = true ->
  exists w',
    _remove_virtual_sinks w = (Ok tt, w')
    /\ self w' = clear_bindings (self w)
    /\ dev w' = dev w /\ stdout w' = stdout w
    /\ Pulse.modules (pulse w')
       = filter (fun m => negb (is_binding (self w) (Pulse.index m)))
           (Pulse.modules (pulse w))
    /\ (forall s, In s (Pulse.sinks (pulse w')) ->
                  In s (Pulse.sinks (pulse w)))
    /\ (forall s, In s (Pulse.sinks (pulse w)) ->
                  is_binding (self w) (Pulse.owner_module s) = false ->
                  In s (Pulse.sinks (pulse w')))
    /\ (forall s, In s (Pulse.sinks (pulse w')) ->
                  is_binding (self w) (Pulse.owner_module s) = true ->
                  module_loaded (Pulse.owner_module s) (pulse w) = false).
Proof.
  intros Hans.
  rewrite remove_virtual_sinks_exact by exact Hans.
  eexists. split; [ reflexivity | ].
  cbn [self dev pulse stdout].
  split; [ reflexivity | ]. split; [ reflexivity | ].
  split; [ reflexivity | ]. split; [ apply torn_down_modules | ].
  unfold torn_down, unload_binding, is_binding.
  destruct (PW_LOOPBACK_GAME_MODULE_ID (self w)) as [ g | ];
    destruct (PW_LOOPBACK_CHAT_MODULE_ID (self w)) as [ c | ];
    (split; [ | split ]); intros s;
    rewrite ?unload_if_loaded_sinks; cbn [orb];
    try tauto.
  - intros Hin Hown. apply orb_false_iff in Hown.
    destruct Hown as [Hg Hc]. apply Z.eqb_neq in Hg, Hc.
    repeat split; try assumption; intros _; assumption.
  - intros [[Hin Hg] Hc] Hown. apply orb_true_iff in Hown.
    destruct (module_loaded (Pulse.owner_module s) (pulse w)) eqn:Hl;
      [ exfalso | reflexivity ].
    destruct Hown as [ Ho | Ho ]; apply Z.eqb_eq in Ho.
    + apply Hg; [ now rewrite <- Ho | exact Ho ].
    + destruct (Z.eq_dec c g) as [ -> | Hne ].
      * apply Hg; [ now rewrite <- Ho | exact Ho ].
      * apply Hc; [ | exact Ho ].
        unfold unload_if_loaded.
        destruct (module_loaded g (pulse w)); [ | now rewrite <- Ho ].
        rewrite module_loaded_unload, <- Ho, Hl.
        now replace (Pulse.owner_module s =? g) with false
          by (symmetry; apply Z.eqb_neq; lia).
  - intros Hin Hown. rewrite orb_false_r in Hown. apply Z.eqb_neq in Hown.
    split; [ exact Hin | intros _; exact Hown ].
  - intros [Hin Hg] Hown. rewrite orb_false_r in Hown.
    apply Z.eqb_eq in Hown.
    destruct (module_loaded (Pulse.owner_module s) (pulse w)) eqn:Hl;
      [ exfalso | reflexivity ].
    apply Hg; [ now rewrite <- Hown | exact Hown ].
  - intros Hin Hown. apply Z.eqb_neq in Hown.
    split; [ exact Hin | intros _; exact Hown ].
  - intros [Hin Hc] Hown. apply Z.eqb_eq in Hown.
    destruct (module_loaded (Pulse.owner_module s) (pulse w)) eqn:Hl;
      [ exfalso | reflexivity ].
    apply Hc; [ now rewrite <- Hown | exact Hown ].
  - intros _ Hown. discriminate Hown.
Qed.

Lemma teardown_removes_only_its_own_witness :
  answers (pulse (snd (_start_virtual_sinks desktop_world))) = true
  /\ sink_bindings (self (snd (_start_virtual_sinks desktop_world))) = 2%nat
  /\ exists w',
       _remove_virtual_sinks (snd (_start_virtual_sinks desktop_world))
       = (Ok tt, w')
       /\ self w'
          = clear_bindings (self (snd (_start_virtual_sinks desktop_world)))
       /\ Pulse.modules (pulse w') = Pulse.modules (pulse desktop_world)
       /\ In headset_sink (Pulse.sinks (pulse w')).
Proof.
  split; [ reflexivity | ]. split; [ reflexivity | ].
  destruct (teardown_removes_only_its_own
              (snd (_start_virtual_sinks desktop_world)))
    as (w' & Hrun & Hself & _ & _ & Hm & _ & Hkeep & _);
    [ reflexivity | ].
  exists w'. split; [ exact Hrun | ].
  split; [ exact Hself | ]. split; [ rewrite Hm; reflexivity | ].
  apply Hkeep; [ vm_compute; tauto | reflexivity ].
Defined.

Lemma remove_sink_loop_found (i : Z) (ms : list Pulse.module_info) (w : World) :
  existsb (fun m => Pulse.index m =? i) ms = true ->
  _remove_sink_loop i ms w = pulse_module_unload i w.
Proof.
  induction ms as [ | m ms IH ]; [ discriminate | ].
  cbn [_remove_sink_loop existsb]. rewrite (Z.eqb_sym i).
  destruct (Pulse.index m =? i) eqn:Hi.
  - apply Z.eqb_eq in Hi. now rewrite Hi.
  - exact IH.
Qed.

(** X26: a teardown the server does not answer stops where it fails.  With
    the game sink's identifier set, a failed connection, a refused module
    list or a refused unload of that module leaves
    [_remove_virtual_sinks] by [PulseError] before anything is cleared:
    both identifiers are as before, no module is unloaded and the chat
    sink is not attempted.  The identifier being kept, the next teardown
    asks again. *)
Theorem teardown_stops_where_it_fails (g : Z) (w : World) :
  PW_LOOPBACK_GAME_MODULE_ID (self w) = Some g ->
  (forall rest,
     Pulse.connect_faults (pulse w) = true :: rest ->
     _remove_virtual_sinks w = (Raise PulseError, with_connect_faults rest w))
  /\ (Pulse.connect_faults (pulse w) = [] ->
      Pulse.module_list_refused (pulse w) = true ->
      _remove_virtual_sinks w = (Raise PulseError, w))
  /\ (Pulse.connect_faults (pulse w) = [] ->
      Pulse.module_list_refused (pulse w) = false ->
      module_loaded g (pulse w) = true ->
      Pulse.mem_Z g (Pulse.unload_refused (pulse w)) = true ->
      _remove_virtual_sinks w = (Raise PulseError, w)).
Proof.
  destruct w as [[orig gid cid ce se cl] d p out].
  cbn [self pulse PW_LOOPBACK_GAME_MODULE_ID]. intros ->.
  split; [ | split ].
  - intros rest Hcon.
    unfold _remove_virtual_sinks, bind, get_self.
    cbn [self PW_LOOPBACK_GAME_MODULE_ID].
    unfold _remove_sink, bind, pulse_connect. cbn [pulse].
    rewrite Hcon. reflexivity.
  - intros Hcon Hl.
    unfold _remove_virtual_sinks, bind, get_self.
    cbn [self PW_LOOPBACK_GAME_MODULE_ID].
    unfold _remove_sink, bind, pulse_connect, pulse_module_list. cbn [pulse].
    rewrite Hcon. cbn [pulse]. rewrite Hl. reflexivity.
  - intros Hcon Hl Hloaded Hrefused.
    unfold _remove_virtual_sinks, bind, get_self.
    cbn [self PW_LOOPBACK_GAME_MODULE_ID].
    unfold _remove_sink, bind, pulse_connect, pulse_module_list. cbn [pulse].
    rewrite Hcon. cbn [pulse]. rewrite Hl.
    rewrite remove_sink_loop_found by exact Hloaded.
    unfold pulse_module_unload. cbn [pulse]. rewrite Hrefused. reflexivity.
Qed.

Lemma teardown_stops_where_it_fails_witness :
  PW_LOOPBACK_GAME_MODULE_ID (self (with_unload_refused [20] running_world))
  = Some 20
  /\ _remove_virtual_sinks (with_unload_refused [20] running_world)
     = (Raise PulseError, with_unload_refused [20] running_world)
  /\ sink_bindings (self (with_unload_refused [20] running_world)) = 2%nat.
Proof.
  split; [ reflexivity | ].
  destruct (teardown_stops_where_it_fails 20
              (with_unload_refused [20] running_world))
    as (_ & _ & Hrefused); [ reflexivity | ].
  split; [ apply Hrefused; reflexivity | reflexivity ].
Defined.

End TeardownExact.

(** ** Commands to the base station *)

Section Commands.

Local Arguments _remove_virtual_sinks : simpl never.

(** X7: [set_volume] and [set_eq_preset] send exactly one message, and only
    for an argument in [range(0, 256)]; for any other integer they raise
    [ValueError] before anything is written, and when the write fails its
    [USBError] or [USBTimeoutError] leaves them with nothing sent.  They
    change no attribute. *)
Theorem set_volume_and_preset_write_or_reject (x : Z) (w : World) :
  set_volume x w = command_result OPT_VOLUME x w
  /\ set_eq_preset x w = command_result OPT_EQ_PRESET x w
  /\ self (snd (set_volume x w)) = self w
  /\ self (snd (set_eq_preset x w)) = self w.
Proof.
  assert (Hv : set_volume x w = command_result OPT_VOLUME x w).
  { unfold set_volume, command_result, bind, lift, _create_msgdata, bytes,
      dev_write.
    cbn [forallb]. change (is_byte TX) with true.
    change (is_byte OPT_VOLUME) with true. cbn [andb].
    rewrite andb_true_r.
    destruct (is_byte x); [ | reflexivity ].
    destruct (Usb.tx_outcomes (dev w)) as [ | [ | | ] rest ]; reflexivity. }
  assert (Hp : set_eq_preset x w = command_result OPT_EQ_PRESET x w).
  { unfold set_eq_preset, command_result, bind, lift, _create_msgdata, bytes,
      dev_write.
    cbn [forallb]. change (is_byte TX) with true.
    change (is_byte OPT_EQ_PRESET) with true. cbn [andb].
    rewrite andb_true_r.
    destruct (is_byte x); [ | reflexivity ].
    destruct (Usb.tx_outcomes (dev w)) as [ | [ | | ] rest ]; reflexivity. }
  split; [ exact Hv | ]. split; [ exact Hp | ].
  rewrite Hv, Hp. unfold command_result.
  destruct (is_byte x); [ | split; reflexivity ].
  destruct (Usb.tx_outcomes (dev w)) as [ | [ | | ] rest ];
    split; reflexivity.
Qed.

(** X8: whatever the flags, on a device that takes every write and a
    server that answers, [close] raises nothing, sends one disable message
    per enabled feature and no other (ChatMix controls first, then the
    icon), leaves both flags unset and [CLOSE] set, and removes the
    virtual sinks.  It reads nothing and prints nothing. *)
Theorem close_disables_what_is_enabled (w : World) :
  Usb.tx_outcomes (dev w) = [] ->
  answers (pulse w) = true ->
  exists w',
    close w = (Ok tt, w')
    /\ Usb.tx_log (dev w') = Usb.tx_log (dev w) ++ disable_messages (self w)
    /\ length (disable_messages (self w)) = enabled_features (self w)
    /\ Usb.rx_pending (dev w') = Usb.rx_pending (dev w)
    /\ CHATMIX_CONTROLS_ENABLED (self w') = false
    /\ SONAR_ICON_ENABLED (self w') = false
    /\ CLOSE (self w') = true
    /\ sink_bindings (self w') = 0%nat
    /\ PW_ORIGINAL_SINK (self w') = PW_ORIGINAL_SINK (self w)
    /\ pulse w' = torn_down (self w) (pulse w)
    /\ stdout w' = stdout w.
Proof.
  intros Htx Hans.
  rewrite (close_run w Htx Hans). eexists. split; [ reflexivity | ].
  cbn [self dev pulse stdout Usb.tx_log Usb.rx_pending].
  repeat split.
  unfold disable_messages, enabled_features.
  destruct (CHATMIX_CONTROLS_ENABLED (self w)),
    (SONAR_ICON_ENABLED (self w)); reflexivity.
Qed.

Lemma close_disables_what_is_enabled_witness :
  Usb.tx_outcomes (dev enabled_world) = []
  /\ answers (pulse enabled_world) = true
  /\ enabled_features (self enabled_world) = 2%nat
  /\ exists w',
       close enabled_world = (Ok tt, w')
       /\ Usb.tx_log (dev w')
          = Usb.tx_log (dev enabled_world)
            ++ disable_messages (self enabled_world)
       /\ length (disable_messages (self enabled_world))
          = enabled_features (self enabled_world)
       /\ Usb.rx_pending (dev w') = Usb.rx_pending (dev enabled_world)
       /\ CHATMIX_CONTROLS_ENABLED (self w') = false
       /\ SONAR_ICON_ENABLED (self w') = false
       /\ CLOSE (self w') = true
       /\ sink_bindings (self w') = 0%nat
       /\ PW_ORIGINAL_SINK (self w') = PW_ORIGINAL_SINK (self enabled_world)
       /\ pulse w' = torn_down (self enabled_world) (pulse enabled_world)
       /\ stdout w' = stdout enabled_world.
Proof.
  split; [ reflexivity | ]. split; [ reflexivity | ].
  split; [ reflexivity | ].
  apply (close_disables_what_is_enabled enabled_world); reflexivity.
Defined.

(** X9: on a device that takes every write and a server that answers,
    [close] is idempotent: a second [close] sends nothing and leaves the
    world exactly as the first one left it. *)
Theorem close_twice_is_close_once (w : World) :
  Usb.tx_outcomes (dev w) = [] ->
  answers (pulse w) = true ->
  exists w',
    close w = (Ok tt, w')
    /\ close w' = (Ok tt, w')
    /\ (close ;; close) w = (Ok tt, w').
Proof.
  intros Htx Hans.
  eexists. split; [ now apply close_run | ].
  assert (Hagain : forall orig rx tx p out,
    close {| self := {| PW_ORIGINAL_SINK := orig;
                        PW_LOOPBACK_GAME_MODULE_ID := None;
                        PW_LOOPBACK_CHAT_MODULE_ID := None;
                        CHATMIX_CONTROLS_ENABLED := false;
                        SONAR_ICON_ENABLED := false;
                        CLOSE := true |};
             dev := {| Usb.rx_pending := rx; Usb.tx_log := tx;
                       Usb.tx_outcomes := [] |};
             pulse := p; stdout := out |}
    = (Ok tt,
       {| self := {| PW_ORIGINAL_SINK := orig;
                     PW_LOOPBACK_GAME_MODULE_ID := None;
                     PW_LOOPBACK_CHAT_MODULE_ID := None;
                     CHATMIX_CONTROLS_ENABLED := false;
                     SONAR_ICON_ENABLED := false;
                     CLOSE := true |};
          dev := {| Usb.rx_pending := rx; Usb.tx_log := tx;
                    Usb.tx_outcomes := [] |};
          pulse := p; stdout := out |})).
  { intros. unfold close, bind, set_CLOSE, modify_self, get_self, with_self.
    cbn. now rewrite remove_virtual_sinks_idle. }
  split; [ apply Hagain | ].
  unfold bind. rewrite (close_run w Htx Hans). apply Hagain.
Qed.

Lemma close_twice_is_close_once_witness :
  Usb.tx_outcomes (dev enabled_world) = []
  /\ answers (pulse enabled_world) = true
  /\ exists w',
       close enabled_world = (Ok tt, w')
       /\ close w' = (Ok tt, w')
       /\ (close ;; close) enabled_world = (Ok tt, w').
Proof.
  split; [ reflexivity | ]. split; [ reflexivity | ].
  apply (close_twice_is_close_once enabled_world); reflexivity.
Defined.

(** X10: enabling and shutting down are symmetric.  On a device that
    takes every write and a server that answers, after
    [set_sonar_icon(a)] and [set_chatmix_controls(b)], [close] sends the
    disable message of exactly the features that were switched on, so the
    device has been sent [2 + a + b] messages in all. *)
Theorem close_undoes_the_setters (a b : bool) (w : World) :
  Usb.tx_outcomes (dev w) = [] ->
  answers (pulse w) = true ->
  exists w',
    (set_sonar_icon a ;; set_chatmix_controls b ;; close) w = (Ok tt, w')
    /\ Usb.tx_log (dev w')
       = Usb.tx_log (dev w)
         ++ [ (ENDPOINT_TX,
               [TX; OPT_SONAR_ICON; int_of_bool a] ++ repeat 0x30 61);
              (ENDPOINT_TX,
               [TX; OPT_CHATMIX_ENABLE; int_of_bool b] ++ repeat 0x30 61) ]
         ++ (if b
             then [ (ENDPOINT_TX,
                     [TX; OPT_CHATMIX_ENABLE; 0] ++ repeat 0x30 61) ]
             else [])
         ++ (if a
             then [ (ENDPOINT_TX, [TX; OPT_SONAR_ICON; 0] ++ repeat 0x30 61) ]
             else [])
    /\ CHATMIX_CONTROLS_ENABLED (self w') = false
    /\ SONAR_ICON_ENABLED (self w') = false
    /\ sink_bindings (self w') = 0%nat.
Proof.
  destruct w as [[orig g c ce se cl] [rx tx tf] p out].
  cbn [dev pulse Usb.tx_outcomes]. intros -> Hans.
  unfold bind at 1. unfold bind at 1.
  destruct a, b; cbn -[close];
    rewrite close_run by (try reflexivity; exact Hans); cbn;
    (eexists; split; [ reflexivity | ]); cbn;
    rewrite <- ?app_assoc; repeat split.
Qed.

Lemma close_undoes_the_setters_witness :
  Usb.tx_outcomes (dev running_world) = []
  /\ answers (pulse running_world) = true
  /\ exists w',
       (set_sonar_icon true ;; set_chatmix_controls false ;; close)
         running_world = (Ok tt, w')
       /\ Usb.tx_log (dev w')
          = Usb.tx_log (dev running_world)
            ++ [ (ENDPOINT_TX,
                  [TX; OPT_SONAR_ICON; int_of_bool true] ++ repeat 0x30 61);
                 (ENDPOINT_TX,
                  [TX; OPT_CHATMIX_ENABLE; int_of_bool false]
                  ++ repeat 0x30 61) ]
            ++ []
            ++ [ (ENDPOINT_TX, [TX; OPT_SONAR_ICON; 0] ++ repeat 0x30 61) ]
       /\ CHATMIX_CONTROLS_ENABLED (self w') = false
       /\ SONAR_ICON_ENABLED (self w') = false
       /\ sink_bindings (self w') = 0%nat.
Proof.
  split; [ reflexivity | ]. split; [ reflexivity | ].
  apply (close_undoes_the_setters true false running_world); reflexivity.
Defined.

(** X27: a failed write ends [close] at once.  When a feature is enabled
    and the first disable write fails, its [USBError] or
    [USBTimeoutError] leaves [close] with [CLOSE] set and nothing else
    done: nothing is sent, both flags and both identifiers are as before
    and the audio server has not been asked anything. *)
Theorem close_stops_at_a_failed_write
    (w : World) (o : Usb.write_outcome) (rest : list Usb.write_outcome)
    (e : exn) :
  CHATMIX_CONTROLS_ENABLED (self w) || SONAR_ICON_ENABLED (self w) = true ->
  Usb.tx_outcomes (dev w) = o :: rest ->
  write_error o = Some e ->
  close w
  = (Raise e,
     {| self := closing (self w);
        dev := {| Usb.rx_pending := Usb.rx_pending (dev w);
                  Usb.tx_log := Usb.tx_log (dev w);
                  Usb.tx_outcomes := rest |};
        pulse := pulse w;
        stdout := stdout w |}).
Proof.
  destruct w as [[orig g c ce se cl] [rx tx tf] p out].
  cbn [self dev pulse stdout Usb.tx_outcomes Usb.tx_log Usb.rx_pending
       CHATMIX_CONTROLS_ENABLED SONAR_ICON_ENABLED].
  intros Hflag -> Herr.
  unfold close, bind, set_CLOSE, modify_self, get_self, set_sonar_icon,
    set_chatmix_controls, bind, lift, dev_write, with_self, with_dev, closing.
  destruct o; cbn in Herr; try discriminate Herr;
    injection Herr as <-;
    destruct ce, se; try discriminate Hflag; reflexivity.
Qed.

Lemma close_stops_at_a_failed_write_witness :
  CHATMIX_CONTROLS_ENABLED
    (self (with_tx_outcomes [Usb.TxTimeout] enabled_world))
  || SONAR_ICON_ENABLED (self (with_tx_outcomes [Usb.TxTimeout] enabled_world))
  = true
  /\ exists w',
       close (with_tx_outcomes [Usb.TxTimeout] enabled_world)
       = (Raise USBTimeoutError, w')
       /\ CLOSE (self w') = true
       /\ enabled_features (self w') = 2%nat
       /\ sink_bindings (self w') = 2%nat
       /\ Usb.tx_log (dev w') = Usb.tx_log (dev enabled_world)
       /\ pulse w' = pulse enabled_world.
Proof.
  split; [ reflexivity | ].
  eexists. split.
  - apply (close_stops_at_a_failed_write
             (with_tx_outcomes [Usb.TxTimeout] enabled_world)
             Usb.TxTimeout [] USBTimeoutError); reflexivity.
  - repeat split.
Defined.

End Commands.

(** ** Setting a sink's volume *)

Section VolumeSetting.

Local Arguments Pulse.mem_Z : simpl never.

Lemma with_volume_retune (t : Pulse.sink_info) (v u : float)
    (s : Pulse.sink_info) :
  Pulse.with_volume u (Pulse.retune t v s) = Pulse.with_volume u s.
Proof. unfold Pulse.retune. destruct (_ =? _); reflexivity. Qed.

Lemma find_owned_by_None (l : list Pulse.sink_info) :
  find (Pulse.owned_by None) l = None.
Proof. induction l as [ | s l IH ]; [ reflexivity | exact IH ]. Qed.

(** X11: once its client has connected, [_set_sink_volume] never raises,
    whatever the server answers to the volume request.  It leaves the
    object, the device and the modules alone; the sinks keep their index,
    name and owner, and a sink with another index than the target's keeps
    its volume too.  For a module that owns no sink (and for [None]) it
    only prints that the sink was not found; a refused request is printed
    and changes nothing. *)
Theorem set_sink_volume_raises_nothing_once_connected
    (m : option Z) (v : float) (w : World) :
  Pulse.connect_faults (pulse w) = [] ->
  exists w',
    _set_sink_volume m v w = (Ok tt, w')
    /\ self w' = self w /\ dev w' = dev w
    /\ Pulse.modules (pulse w') = Pulse.modules (pulse w)
    /\ Pulse.volume_refused (pulse w') = Pulse.volume_refused (pulse w)
    /\ map (Pulse.with_volume 0) (Pulse.sinks (pulse w'))
       = map (Pulse.with_volume 0) (Pulse.sinks (pulse w))
    /\ (forall t s,
          find (Pulse.owned_by m) (Pulse.sinks (pulse w)) = Some t ->
          In s (Pulse.sinks (pulse w)) ->
          Pulse.sink_index s <> Pulse.sink_index t ->
          In s (Pulse.sinks (pulse w')))
    /\ (forall t,
          find (Pulse.owned_by m) (Pulse.sinks (pulse w)) = Some t ->
          Pulse.mem_Z (Pulse.sink_index t) (Pulse.volume_refused (pulse w))
          = true ->
          pulse w' = pulse w
          /\ stdout w' = stdout w ++ [PrintVolumeFailed])
    /\ (forall t,
          find (Pulse.owned_by m) (Pulse.sinks (pulse w)) = Some t ->
          Pulse.mem_Z (Pulse.sink_index t) (Pulse.volume_refused (pulse w))
          = false ->
          volume_of m (pulse w') = Some v /\ stdout w' = stdout w)
    /\ (find (Pulse.owned_by m) (Pulse.sinks (pulse w)) = None ->
        pulse w' = pulse w
        /\ stdout w' = stdout w ++ [PrintSinkNotFound m])
    /\ _set_sink_volume None v w = print (PrintSinkNotFound None) w.
Proof.
  intros Hcon.
  assert (Hnone : _set_sink_volume None v w = print (PrintSinkNotFound None) w).
  { rewrite set_sink_volume_run by exact Hcon.
    unfold volume_applied, volume_messages, print.
    rewrite find_owned_by_None. destruct w as [o d p out]. reflexivity. }
  rewrite set_sink_volume_run by exact Hcon.
  eexists. split; [ reflexivity | ].
  cbn [self dev pulse stdout].
  destruct (volume_applied_frame m v (pulse w))
    as (Hmod & _ & _ & _ & Hvr & _).
  split; [ reflexivity | ]. split; [ reflexivity | ].
  split; [ exact Hmod | ]. split; [ exact Hvr | ].
  unfold volume_of, volume_applied, volume_messages,
    Pulse.volume_set_all_chans.
  destruct (find (Pulse.owned_by m) (Pulse.sinks (pulse w))) as [ t | ]
    eqn:Hfind.
  - destruct (Pulse.mem_Z (Pulse.sink_index t)
                (Pulse.volume_refused (pulse w))) eqn:Href;
      cbn [snd Pulse.sinks].
    + split; [ reflexivity | ].
      split; [ intros; assumption | ].
      split; [ intros; split; reflexivity | ].
      split.
      { intros t' Ht' Hok. assert (t' = t) by congruence. subst t'.
        congruence. }
      split; [ discriminate | exact Hnone ].
    + split.
      { rewrite map_map. apply map_ext. intros s. apply with_volume_retune. }
      split.
      { intros t' s Heq Hin Hne.
        assert (Ht : t' = t) by congruence. subst t'.
        rewrite <- (retune_other t v s Hne). now apply in_map. }
      split.
      { intros t' Ht' Hno. assert (t' = t) by congruence. subst t'.
        congruence. }
      split.
      { intros t' Ht' _. rewrite find_owned_retune, Hfind.
        cbn [option_map]. rewrite retune_target.
        split; [ reflexivity | apply app_nil_r ]. }
      split; [ discriminate | exact Hnone ].
  - split; [ reflexivity | ].
    split; [ discriminate | ].
    split; [ discriminate | ].
    split; [ discriminate | ].
    split; [ intros _; split; reflexivity | exact Hnone ].
Qed.

Lemma set_sink_volume_raises_nothing_once_connected_witness :
  Pulse.connect_faults (pulse game_volume_refused_world) = []
  /\ exists w1 w2,
       _set_sink_volume (Some 20) 0.5 game_volume_refused_world = (Ok tt, w1)
       /\ pulse w1 = pulse game_volume_refused_world
       /\ stdout w1 = stdout game_volume_refused_world ++ [PrintVolumeFailed]
       /\ _set_sink_volume (Some 21) 0.5 game_volume_refused_world
          = (Ok tt, w2)
       /\ volume_of (Some 21) (pulse w2) = Some 0.5%float
       /\ stdout w2 = stdout game_volume_refused_world.
Proof.
  split; [ reflexivity | ].
  destruct (set_sink_volume_raises_nothing_once_connected (Some 20) 0.5
              game_volume_refused_world)
    as (w1 & H1 & _ & _ & _ & _ & _ & _ & Href1 & _); [ reflexivity | ].
  destruct (set_sink_volume_raises_nothing_once_connected (Some 21) 0.5
              game_volume_refused_world)
    as (w2 & H2 & _ & _ & _ & _ & _ & _ & _ & Hset2 & _); [ reflexivity | ].
  exists w1, w2. split; [ exact H1 | ].
  destruct (Href1 nova_game_sink) as [Hp1 Ho1]; try reflexivity.
  destruct (Hset2 nova_chat_sink) as [Hv2 Ho2]; try reflexivity.
  repeat split; assumption.
Defined.

(** X28: a failed connection is not caught.  In [_set_sink_volume],
    [_create_sink] and [_remove_sink] the [with pulsectl.Pulse(...)]
    statement stands outside any [try], so when the server cannot be
    reached each of them is left by [PulseError], with nothing printed and
    nothing changed in the object, the device or the server's modules and
    sinks. *)
Theorem unreachable_server_raises_pulse_error
    (w : World) (rest : list bool) (m : option Z) (v : float)
    (sink_name : string) (out : option string) (i : Z) :
  Pulse.connect_faults (pulse w) = true :: rest ->
  _set_sink_volume m v w = (Raise PulseError, with_connect_faults rest w)
  /\ _create_sink sink_name out w
     = (Raise PulseError, with_connect_faults rest w)
  /\ _remove_sink i w = (Raise PulseError, with_connect_faults rest w)
  /\ self (with_connect_faults rest w) = self w
  /\ dev (with_connect_faults rest w) = dev w
  /\ stdout (with_connect_faults rest w) = stdout w
  /\ Pulse.modules (pulse (with_connect_faults rest w))
     = Pulse.modules (pulse w)
  /\ Pulse.sinks (pulse (with_connect_faults rest w)) = Pulse.sinks (pulse w).
Proof.
  intros Hcon.
  unfold _set_sink_volume, _create_sink, _remove_sink, bind, pulse_connect.
  rewrite Hcon. repeat split.
Qed.

Lemma unreachable_server_raises_pulse_error_witness :
  Pulse.connect_faults (pulse (with_connect_faults [true] running_world))
  = [true]
  /\ _set_sink_volume (Some 20) 0.5 (with_connect_faults [true] running_world)
     = (Raise PulseError,
        with_connect_faults [] (with_connect_faults [true] running_world))
  /\ _create_sink PW_GAME_SINK None (with_connect_faults [true] running_world)
     = (Raise PulseError,
        with_connect_faults [] (with_connect_faults [true] running_world))
  /\ _remove_sink 20 (with_connect_faults [true] running_world)
     = (Raise PulseError,
        with_connect_faults [] (with_connect_faults [true] running_world)).
Proof.
  split; [ reflexivity | ].
  destruct (unreachable_server_raises_pulse_error
              (with_connect_faults [true] running_world) [] (Some 20) 0.5
              PW_GAME_SINK None 20)
    as (Hv & Hc & Hr & _); [ reflexivity | ].
  split; [ exact Hv | ]. split; [ exact Hc | exact Hr ].
Defined.

Lemma byte_values_complete (g : Z) : 0 <= g < 256 -> In g byte_values.
Proof.
  intros Hg. unfold byte_values.
  replace g with (Z.of_nat (Z.to_nat g)) by lia.
  apply in_map, in_seq. lia.
Qed.

(** X12: nothing clamps the volume.  For a report byte from 0 to 100 the
    volume [byte * 0.01] lies in [0.0, 1.0]; for a byte above 100 it is
    above 1.0; and over all byte values a larger byte gives a strictly
    larger volume. *)
Theorem chatmix_volume_is_not_clamped (g g' : Z) :
  0 <= g < 256 -> 0 <= g' < 256 ->
  (g <= 100 -> PrimFloat.leb 0 (int_mul_0_01 g) = true
               /\ PrimFloat.leb (int_mul_0_01 g) 1 = true)
  /\ (100 < g -> PrimFloat.ltb 1 (int_mul_0_01 g) = true)
  /\ (g < g' -> PrimFloat.ltb (int_mul_0_01 g) (int_mul_0_01 g') = true).
Proof.
  intros Hg Hg'.
  assert (Hall :
    forallb (fun x =>
      (if x <=? 100
       then PrimFloat.leb 0 (int_mul_0_01 x) && PrimFloat.leb (int_mul_0_01 x) 1
       else PrimFloat.ltb 1 (int_mul_0_01 x))
      && forallb (fun y =>
           if x <? y
           then PrimFloat.ltb (int_mul_0_01 x) (int_mul_0_01 y)
           else true) byte_values) byte_values = true)
    by (vm_compute; reflexivity).
  rewrite forallb_forall in Hall.
  specialize (Hall g (byte_values_complete g Hg)).
  apply andb_true_iff in Hall. destruct Hall as [Hrange Horder].
  rewrite forallb_forall in Horder.
  specialize (Horder g' (byte_values_complete g' Hg')).
  split; [ | split ].
  - intros Hle. replace (g <=? 100) with true in Hrange by (symmetry; lia).
    now apply andb_true_iff in Hrange.
  - intros Hgt. now replace (g <=? 100) with false in Hrange by (symmetry; lia).
  - intros Hlt. now replace (g <? g') with true in Horder by (symmetry; lia).
Qed.

Lemma chatmix_volume_is_not_clamped_witness :
  0 <= 100 < 256 /\ 0 <= 101 < 256
  /\ (100 <= 100 -> PrimFloat.leb 0 (int_mul_0_01 100) = true
                    /\ PrimFloat.leb (int_mul_0_01 100) 1 = true)
  /\ (100 < 100 -> PrimFloat.ltb 1 (int_mul_0_01 100) = true)
  /\ (100 < 101 ->
      PrimFloat.ltb (int_mul_0_01 100) (int_mul_0_01 101) = true).
Proof.
  split; [ lia | ]. split; [ lia | ].
  apply (chatmix_volume_is_not_clamped 100 101); lia.
Defined.

End VolumeSetting.

(** ** Starting, in general *)

Section StartupExact.

Local Arguments combine_sink_argument : simpl never.
Local Arguments Pulse.mem_string : simpl never.
Local Arguments Pulse.mem_Z : simpl never.
Local Arguments _remove_virtual_sinks : simpl never.
Local Arguments _create_sink : simpl never.
Local Arguments torn_down : simpl never.

(** The whole effect of [_detect_original_sink]. *)
Lemma detect_exact (w : World) :
  _detect_original_sink w
  = (Ok tt,
     {| self :=
          {| PW_ORIGINAL_SINK := detected_target w;
             PW_LOOPBACK_GAME_MODULE_ID := PW_LOOPBACK_GAME_MODULE_ID (self w);
             PW_LOOPBACK_CHAT_MODULE_ID := PW_LOOPBACK_CHAT_MODULE_ID (self w);
             CHATMIX_CONTROLS_ENABLED := CHATMIX_CONTROLS_ENABLED (self w);
             SONAR_ICON_ENABLED := SONAR_ICON_ENABLED (self w);
             CLOSE := CLOSE (self w) |};
        dev := dev w; pulse := pulse w; stdout := stdout w |}).
Proof.
  unfold detected_target.
  destruct (truthy (PW_ORIGINAL_SINK (self w))) eqn:Hset.
  - unfold _detect_original_sink, bind, get_self. rewrite Hset.
    destruct w as [[orig g c ce se cl] d p out]. reflexivity.
  - rewrite (detect_original_sink_run w Hset).
    destruct w as [[orig g c ce se cl] d p out].
    destruct (last_match _); reflexivity.
Qed.

Lemma headset_name_is_truthy (s : Pulse.sink_info) :
  is_headset s = true -> truthy (Some (Pulse.sink_name s)) = true.
Proof.
  unfold is_headset. destruct (Pulse.sink_name s); [ discriminate | reflexivity ].
Qed.

(** X13: a detected target sticks.  Once [_detect_original_sink] has found
    a sink of the headset, running it again changes nothing, whatever the
    server's sink list has become: the attribute is never re-detected. *)
Theorem detected_target_sticks (w : World) :
  truthy (PW_ORIGINAL_SINK (self w)) = false ->
  matching_sinks (pulse w) <> [] ->
  exists w1,
    _detect_original_sink w = (Ok tt, w1)
    /\ forall w2, self w2 = self w1 -> _detect_original_sink w2 = (Ok tt, w2).
Proof.
  intros Hunset Hsome.
  destruct (last_match_exists _ Hsome) as (s & Hs).
  assert (HT : detected_target w = Some (Pulse.sink_name s))
    by (unfold detected_target; now rewrite Hunset, Hs).
  apply find_some in Hs. destruct Hs as [_ Hs].
  eexists. split; [ apply detect_exact | ].
  intros w2 Hself. rewrite detect_exact.
  unfold detected_target at 1. rewrite Hself.
  cbn [self PW_ORIGINAL_SINK PW_LOOPBACK_GAME_MODULE_ID
       PW_LOOPBACK_CHAT_MODULE_ID CHATMIX_CONTROLS_ENABLED
       SONAR_ICON_ENABLED CLOSE].
  rewrite HT, (headset_name_is_truthy s Hs).
  destruct w2 as [o2 d2 p2 out2]. cbn in Hself. subst o2.
  cbn [self dev pulse stdout]. now rewrite HT.
Qed.

Lemma detected_target_sticks_witness :
  truthy (PW_ORIGINAL_SINK (self (world_with [speakers_sink; headset_sink] [])))
  = false
  /\ matching_sinks (pulse (world_with [speakers_sink; headset_sink] [])) <> []
  /\ exists w1,
       _detect_original_sink (world_with [speakers_sink; headset_sink] [])
       = (Ok tt, w1)
       /\ forall w2, self w2 = self w1 ->
                     _detect_original_sink w2 = (Ok tt, w2).
Proof.
  split; [ reflexivity | ]. split; [ vm_compute; discriminate | ].
  apply (detected_target_sticks (world_with [speakers_sink; headset_sink] [])).
  - reflexivity.
  - vm_compute. discriminate.
Defined.

Lemma unload_if_loaded_faults (i : Z) (p : Pulse.server) :
  Pulse.connect_faults (unload_if_loaded i p) = Pulse.connect_faults p
  /\ Pulse.module_list_refused (unload_if_loaded i p)
     = Pulse.module_list_refused p
  /\ Pulse.unload_refused (unload_if_loaded i p) = Pulse.unload_refused p.
Proof.
  unfold unload_if_loaded. destruct (module_loaded i p); repeat split.
Qed.

Lemma torn_down_faults (o : NovaProWireless) (p : Pulse.server) :
  Pulse.connect_faults (torn_down o p) = Pulse.connect_faults p
  /\ Pulse.module_list_refused (torn_down o p) = Pulse.module_list_refused p
  /\ Pulse.unload_refused (torn_down o p) = Pulse.unload_refused p.
Proof.
  unfold torn_down, unload_binding.
  destruct (PW_LOOPBACK_GAME_MODULE_ID o) as [ g | ];
    destruct (PW_LOOPBACK_CHAT_MODULE_ID o) as [ c | ];
    repeat match goal with
           | |- context [unload_if_loaded ?i ?q] =>
               let H := fresh in
               pose proof (unload_if_loaded_faults i q) as H;
               destruct H as (-> & -> & ->)
           end;
    repeat split.
Qed.

(** The world [_start_virtual_sinks] creates the sinks in, on a server
    that answers: the target detected, the old sinks removed. *)
Lemma start_prologue (w : World) :
  answers (pulse w) = true ->
  (_detect_original_sink ;; _remove_virtual_sinks) w
  = (Ok tt,
     {| self :=
          {| PW_ORIGINAL_SINK := detected_target w;
             PW_LOOPBACK_GAME_MODULE_ID := None;
             PW_LOOPBACK_CHAT_MODULE_ID := None;
             CHATMIX_CONTROLS_ENABLED := CHATMIX_CONTROLS_ENABLED (self w);
             SONAR_ICON_ENABLED := SONAR_ICON_ENABLED (self w);
             CLOSE := CLOSE (self w) |};
        dev := dev w;
        pulse := torn_down (self w) (pulse w);
        stdout := stdout w |}).
Proof.
  intros Hans. unfold bind. rewrite detect_exact.
  rewrite remove_virtual_sinks_exact by exact Hans.
  destruct w as [[orig g c ce se cl] d p out]. reflexivity.
Qed.

Lemma start_unfold (w : World) :
  _start_virtual_sinks w
  = match (_detect_original_sink ;; _remove_virtual_sinks) w with
    | (Ok _, w0) =>
        (g <- _create_sink PW_GAME_SINK (PW_ORIGINAL_SINK (self w0)) ;;
         set_PW_LOOPBACK_GAME_MODULE_ID (Some g) ;;
         o <- get_self ;;
         c <- _create_sink PW_CHAT_SINK (PW_ORIGINAL_SINK o) ;;
         set_PW_LOOPBACK_CHAT_MODULE_ID (Some c)) w0
    | (Raise e, w0) => (Raise e, w0)
    end.
Proof.
  unfold _start_virtual_sinks, bind, get_self.
  destruct (_detect_original_sink w) as [[ [] | e ] w1]; [ | reflexivity ].
  destruct (_remove_virtual_sinks w1) as [[ [] | e ] w2]; reflexivity.
Qed.

(** The world after [_start_virtual_sinks] when the server answers and
    accepts both loads. *)
Lemma start_accepted_exact (w : World) :
  answers (pulse w) = true ->
  Pulse.mem_string (combine_sink_argument PW_GAME_SINK (detected_target w))
    (Pulse.load_refused (pulse w)) = false ->
  Pulse.mem_string (combine_sink_argument PW_CHAT_SINK (detected_target w))
    (Pulse.load_refused (pulse w)) = false ->
  _start_virtual_sinks w
  = (Ok tt,
     {| self :=
          {| PW_ORIGINAL_SINK := detected_target w;
             PW_LOOPBACK_GAME_MODULE_ID := Some (Pulse.next_module (pulse w));
             PW_LOOPBACK_CHAT_MODULE_ID :=
               Some (Pulse.next_module (pulse w) + 1);
             CHATMIX_CONTROLS_ENABLED := CHATMIX_CONTROLS_ENABLED (self w);
             SONAR_ICON_ENABLED := SONAR_ICON_ENABLED (self w);
             CLOSE := CLOSE (self w) |};
        dev := dev w;
        pulse :=
          {| Pulse.modules :=
               (Pulse.modules (torn_down (self w) (pulse w))
                ++ [ {| Pulse.index := Pulse.next_module (pulse w);
                        Pulse.name := "module-combine-sink";
                        Pulse.argument :=
                          combine_sink_argument PW_GAME_SINK
                            (detected_target w) |} ])
               ++ [ {| Pulse.index := Pulse.next_module (pulse w) + 1;
                       Pulse.name := "module-combine-sink";
                       Pulse.argument :=
                         combine_sink_argument PW_CHAT_SINK
                           (detected_target w) |} ];
             Pulse.sinks :=
               (Pulse.sinks (torn_down (self w) (pulse w))
                ++ [ {| Pulse.sink_index := Pulse.next_sink (pulse w);
                        Pulse.sink_name := "NovaGame";
                        Pulse.owner_module := Pulse.next_module (pulse w);
                        Pulse.volume := 1%float |} ])
               ++ [ {| Pulse.sink_index := Pulse.next_sink (pulse w) + 1;
                       Pulse.sink_name := "NovaChat";
                       Pulse.owner_module := Pulse.next_module (pulse w) + 1;
                       Pulse.volume := 1%float |} ];
             Pulse.next_module := Pulse.next_module (pulse w) + 1 + 1;
             Pulse.next_sink := Pulse.next_sink (pulse w) + 1 + 1;
             Pulse.load_refused := Pulse.load_refused (pulse w);
             Pulse.volume_refused := Pulse.volume_refused (pulse w);
             Pulse.connect_faults := [];
             Pulse.module_list_refused := false;
             Pulse.unload_refused := [] |};
        stdout := stdout w |}).
Proof.
  intros Hans Hgame Hchat.
  destruct (answers_inv _ Hans) as (Hcf & Hml & Hur).
  destruct (torn_down_frame (self w) (pulse w)) as (Hnm & Hns & Hlr & Hvr).
  destruct (torn_down_faults (self w) (pulse w)) as (Hcf' & Hml' & Hur').
  rewrite Hcf in Hcf'. rewrite Hml in Hml'. rewrite Hur in Hur'.
  rewrite start_unfold, start_prologue by exact Hans.
  cbn [self PW_ORIGINAL_SINK].
  unfold bind at 1.
  rewrite create_sink_accepted
    by (cbn [pulse]; first [ exact Hcf' | rewrite Hlr; exact Hgame ]).
  unfold Pulse.module_load at 1. cbn [pulse].
  rewrite Hlr, Hgame, Hnm, Hns, Hvr, Hcf', Hml', Hur'.
  unfold bind at 1, set_PW_LOOPBACK_GAME_MODULE_ID, modify_self, with_self,
    with_pulse.
  cbn [snd self dev pulse stdout PW_ORIGINAL_SINK PW_LOOPBACK_GAME_MODULE_ID
       PW_LOOPBACK_CHAT_MODULE_ID CHATMIX_CONTROLS_ENABLED SONAR_ICON_ENABLED
       CLOSE].
  unfold bind at 1. cbn [get_self]. unfold bind at 1.
  cbn [self PW_ORIGINAL_SINK].
  rewrite create_sink_accepted
    by (cbn [pulse Pulse.load_refused Pulse.connect_faults];
        first [ reflexivity | exact Hchat ]).
  unfold Pulse.module_load, set_PW_LOOPBACK_CHAT_MODULE_ID, modify_self,
    with_self, with_pulse.
  cbn [pulse Pulse.load_refused]. rewrite Hchat.
  reflexivity.
Qed.

(** X14: when the server answers and accepts both loads,
    [_start_virtual_sinks] ends with two Sink Bindings whatever it started
    from: the identifiers are the two fresh module indexes, the modules it
    held before are unloaded (no module is leaked by a restart), the two
    new modules are combine sinks on the detected target, each with its
    sink at full volume, and no sink of another owner is lost.  Nothing is
    printed, read or written. *)
Theorem start_creates_both_sinks (w : World) :
  answers (pulse w) = true ->
  Pulse.mem_string (combine_sink_argument PW_GAME_SINK (detected_target w))
    (Pulse.load_refused (pulse w)) = false ->
  Pulse.mem_string (combine_sink_argument PW_CHAT_SINK (detected_target w))
    (Pulse.load_refused (pulse w)) = false ->
  exists w',
    _start_virtual_sinks w = (Ok tt, w')
    /\ PW_ORIGINAL_SINK (self w') = detected_target w
    /\ PW_LOOPBACK_GAME_MODULE_ID (self w') = Some (Pulse.next_module (pulse w))
    /\ PW_LOOPBACK_CHAT_MODULE_ID (self w')
       = Some (Pulse.next_module (pulse w) + 1)
    /\ sink_bindings (self w') = 2%nat
    /\ Pulse.modules (pulse w')
       = filter (fun m => negb (is_binding (self w) (Pulse.index m)))
           (Pulse.modules (pulse w))
         ++ [ {| Pulse.index := Pulse.next_module (pulse w);
                 Pulse.name := "module-combine-sink";
                 Pulse.argument :=
                   combine_sink_argument PW_GAME_SINK (detected_target w) |};
              {| Pulse.index := Pulse.next_module (pulse w) + 1;
                 Pulse.name := "module-combine-sink";
                 Pulse.argument :=
                   combine_sink_argument PW_CHAT_SINK (detected_target w) |} ]
    /\ In {| Pulse.sink_index := Pulse.next_sink (pulse w);
             Pulse.sink_name := "NovaGame";
             Pulse.owner_module := Pulse.next_module (pulse w);
             Pulse.volume := 1%float |} (Pulse.sinks (pulse w'))
    /\ In {| Pulse.sink_index := Pulse.next_sink (pulse w) + 1;
             Pulse.sink_name := "NovaChat";
             Pulse.owner_module := Pulse.next_module (pulse w) + 1;
             Pulse.volume := 1%float |} (Pulse.sinks (pulse w'))
    /\ (forall s, In s (Pulse.sinks (pulse w)) ->
                  is_binding (self w) (Pulse.owner_module s) = false ->
                  In s (Pulse.sinks (pulse w')))
    /\ dev w' = dev w /\ stdout w' = stdout w
    /\ CHATMIX_CONTROLS_ENABLED (self w') = CHATMIX_CONTROLS_ENABLED (self w)
    /\ SONAR_ICON_ENABLED (self w') = SONAR_ICON_ENABLED (self w)
    /\ CLOSE (self w') = CLOSE (self w).
Proof.
  intros Hans Hgame Hchat.
  rewrite (start_accepted_exact w Hans Hgame Hchat).
  eexists. split; [ reflexivity | ].
  cbn [self dev pulse stdout PW_ORIGINAL_SINK PW_LOOPBACK_GAME_MODULE_ID
       PW_LOOPBACK_CHAT_MODULE_ID CHATMIX_CONTROLS_ENABLED SONAR_ICON_ENABLED
       CLOSE Pulse.modules Pulse.sinks sink_bindings].
  split; [ reflexivity | ]. split; [ reflexivity | ].
  split; [ reflexivity | ]. split; [ reflexivity | ].
  split; [ now rewrite torn_down_modules, <- app_assoc | ].
  split; [ apply in_or_app; left; apply in_or_app; right; now left | ].
  split; [ apply in_or_app; right; now left | ].
  split; [ | repeat split ].
  intros s Hin Hown. apply in_or_app. left. apply in_or_app. left.
  now apply torn_down_keeps_sinks.
Qed.

Lemma start_creates_both_sinks_witness :
  answers (pulse running_world) = true
  /\ Pulse.mem_string
       (combine_sink_argument PW_GAME_SINK (detected_target running_world))
       (Pulse.load_refused (pulse running_world)) = false
  /\ Pulse.mem_string
       (combine_sink_argument PW_CHAT_SINK (detected_target running_world))
       (Pulse.load_refused (pulse running_world)) = false
  /\ sink_bindings (self running_world) = 2%nat
  /\ exists w',
       _start_virtual_sinks running_world = (Ok tt, w')
       /\ PW_LOOPBACK_GAME_MODULE_ID (self w') = Some 22
       /\ PW_LOOPBACK_CHAT_MODULE_ID (self w') = Some 23
       /\ map Pulse.index (Pulse.modules (pulse w')) = [22; 23].
Proof.
  split; [ reflexivity | ].
  split; [ reflexivity | ]. split; [ reflexivity | ]. split; [ reflexivity | ].
  destruct (start_creates_both_sinks running_world)
    as (w' & Hrun & _ & Hg & Hc & _ & Hm & _); [ reflexivity .. | ].
  exists w'. split; [ exact Hrun | ]. split; [ exact Hg | ].
  split; [ exact Hc | ]. rewrite Hm. reflexivity.
Defined.

Lemma start_first_refused (w : World) :
  answers (pulse w) = true ->
  Pulse.mem_string (combine_sink_argument PW_GAME_SINK (detected_target w))
    (Pulse.load_refused (pulse w)) = true ->
  exists w',
    _start_virtual_sinks w = (Raise UnboundLocalError, w')
    /\ sink_bindings (self w') = 0%nat
    /\ pulse w' = torn_down (self w) (pulse w)
    /\ stdout w' = stdout w /\ dev w' = dev w
    /\ CLOSE (self w') = CLOSE (self w).
Proof.
  intros Hans Hgame.
  destruct (answers_inv _ Hans) as (Hcf & Hml & Hur).
  destruct (torn_down_frame (self w) (pulse w)) as (Hnm & Hns & Hlr & Hvr).
  destruct (torn_down_faults (self w) (pulse w)) as (Hcf' & Hml' & Hur').
  rewrite Hcf in Hcf'.
  rewrite start_unfold, start_prologue by exact Hans.
  cbn [self PW_ORIGINAL_SINK]. unfold bind at 1.
  rewrite create_sink_refused
    by (cbn [pulse]; first [ exact Hcf' | rewrite Hlr; exact Hgame ]).
  eexists. split; [ reflexivity | ]. repeat split.
Qed.

Lemma start_second_refused (w : World) :
  answers (pulse w) = true ->
  Pulse.mem_string (combine_sink_argument PW_GAME_SINK (detected_target w))
    (Pulse.load_refused (pulse w)) = false ->
  Pulse.mem_string (combine_sink_argument PW_CHAT_SINK (detected_target w))
    (Pulse.load_refused (pulse w)) = true ->
  exists w',
    _start_virtual_sinks w = (Raise UnboundLocalError, w')
    /\ sink_bindings (self w') = 1%nat
    /\ PW_LOOPBACK_GAME_MODULE_ID (self w')
       = Some (Pulse.next_module (pulse w))
    /\ module_loaded (Pulse.next_module (pulse w)) (pulse w') = true
    /\ stdout w' = stdout w /\ dev w' = dev w
    /\ CLOSE (self w') = CLOSE (self w).
Proof.
  intros Hans Hgame Hchat.
  destruct (answers_inv _ Hans) as (Hcf & Hml & Hur).
  destruct (torn_down_frame (self w) (pulse w)) as (Hnm & Hns & Hlr & Hvr).
  destruct (torn_down_faults (self w) (pulse w)) as (Hcf' & Hml' & Hur').
  rewrite Hcf in Hcf'. rewrite Hml in Hml'. rewrite Hur in Hur'.
  rewrite start_unfold, start_prologue by exact Hans.
  cbn [self PW_ORIGINAL_SINK]. unfold bind at 1.
  rewrite create_sink_accepted
    by (cbn [pulse]; first [ exact Hcf' | rewrite Hlr; exact Hgame ]).
  unfold Pulse.module_load at 1. cbn [pulse].
  rewrite Hlr, Hgame, Hnm, Hns, Hvr, Hcf', Hml', Hur'.
  unfold bind at 1, set_PW_LOOPBACK_GAME_MODULE_ID, modify_self, with_self,
    with_pulse.
  cbn [snd self dev pulse stdout PW_ORIGINAL_SINK
       PW_LOOPBACK_GAME_MODULE_ID PW_LOOPBACK_CHAT_MODULE_ID
       CHATMIX_CONTROLS_ENABLED SONAR_ICON_ENABLED CLOSE].
  unfold bind at 1. cbn [get_self]. unfold bind at 1.
  cbn [self PW_ORIGINAL_SINK].
  rewrite create_sink_refused
    by (cbn [pulse Pulse.load_refused Pulse.connect_faults];
        first [ reflexivity | exact Hchat ]).
  eexists. split; [ reflexivity | ].
  cbn [with_pulse self dev pulse stdout sink_bindings
       PW_LOOPBACK_GAME_MODULE_ID PW_LOOPBACK_CHAT_MODULE_ID CLOSE].
  repeat split.
  unfold module_loaded. cbn [Pulse.modules].
  rewrite existsb_app. cbn [existsb Pulse.index].
  rewrite Z.eqb_refl. now rewrite orb_true_r.
Qed.

(** X15: how [_start_virtual_sinks] fails on a server that answers.  A
    refused first load leaves no Sink Binding (the old sinks are removed,
    nothing is created); a refused second load leaves exactly one, the
    game sink just loaded.  Either way the exception is
    [UnboundLocalError], not the [PulseError] of the refusal, and the
    failure message of [_create_sink] is never printed. *)
Theorem start_failure_modes (w : World) :
  answers (pulse w) = true ->
  (Pulse.mem_string (combine_sink_argument PW_GAME_SINK (detected_target w))
     (Pulse.load_refused (pulse w)) = true ->
   exists w',
     _start_virtual_sinks w = (Raise UnboundLocalError, w')
     /\ sink_bindings (self w') = 0%nat
     /\ pulse w' = torn_down (self w) (pulse w))
  /\ (Pulse.mem_string (combine_sink_argument PW_GAME_SINK (detected_target w))
        (Pulse.load_refused (pulse w)) = false ->
      Pulse.mem_string (combine_sink_argument PW_CHAT_SINK (detected_target w))
        (Pulse.load_refused (pulse w)) = true ->
      exists w',
        _start_virtual_sinks w = (Raise UnboundLocalError, w')
        /\ sink_bindings (self w') = 1%nat
        /\ PW_LOOPBACK_GAME_MODULE_ID (self w')
           = Some (Pulse.next_module (pulse w))
        /\ module_loaded (Pulse.next_module (pulse w)) (pulse w') = true)
  /\ (forall e w',
        _start_virtual_sinks w = (Raise e, w') ->
        e = UnboundLocalError /\ stdout w' = stdout w).
Proof.
  intros Hans. split; [ | split ].
  - intros Hgame.
    destruct (start_first_refused w Hans Hgame) as (w' & H1 & H2 & H3 & _).
    now exists w'.
  - intros Hgame Hchat.
    destruct (start_second_refused w Hans Hgame Hchat)
      as (w' & H1 & H2 & H3 & H4 & _).
    now exists w'.
  - intros e w' Hrun.
    destruct (Pulse.mem_string
                (combine_sink_argument PW_GAME_SINK (detected_target w))
                (Pulse.load_refused (pulse w))) eqn:Hgame.
    + destruct (start_first_refused w Hans Hgame)
        as (w1 & H1 & _ & _ & Ho & _).
      rewrite H1 in Hrun. injection Hrun as <- <-. now split.
    + destruct (Pulse.mem_string
                  (combine_sink_argument PW_CHAT_SINK (detected_target w))
                  (Pulse.load_refused (pulse w))) eqn:Hchat.
      * destruct (start_second_refused w Hans Hgame Hchat)
          as (w1 & H1 & _ & _ & _ & Ho & _).
        rewrite H1 in Hrun. injection Hrun as <- <-. now split.
      * rewrite (start_accepted_exact w Hans Hgame Hchat) in Hrun.
        discriminate Hrun.
Qed.

Lemma start_failure_modes_witness :
  answers (pulse (world_with [headset_sink] chat_sink_refused)) = true
  /\ exists w',
       _start_virtual_sinks (world_with [headset_sink] chat_sink_refused)
       = (Raise UnboundLocalError, w')
       /\ sink_bindings (self w') = 1%nat
       /\ PW_LOOPBACK_GAME_MODULE_ID (self w') = Some 20
       /\ module_loaded 20 (pulse w') = true
       /\ stdout w' = [].
Proof.
  split; [ reflexivity | ].
  destruct (start_failure_modes (world_with [headset_sink] chat_sink_refused))
    as (_ & Hsecond & Hany); [ reflexivity | ].
  destruct Hsecond as (w' & Hrun & Hb & Hg & Hm); [ reflexivity .. | ].
  exists w'. split; [ exact Hrun | ]. split; [ exact Hb | ].
  split; [ exact Hg | ]. split; [ exact Hm | ].
  now destruct (Hany _ _ Hrun).
Defined.

(** What the server's failures can make of a teardown: it ends normally
    with both identifiers cleared, or by [PulseError]; either way it
    leaves the device, the output, the flags and the target alone. *)
Lemma remove_sink_loop_frame (i : Z) (ms : list Pulse.module_info) (w : World) :
  exists r w',
    _remove_sink_loop i ms w = (r, w')
    /\ (r = Ok tt \/ r = Raise PulseError)
    /\ self w' = self w /\ dev w' = dev w /\ stdout w' = stdout w.
Proof.
  induction ms as [ | m ms IH ].
  - exists (Ok tt), w. repeat split. now left.
  - cbn [_remove_sink_loop]. destruct (i =? Pulse.index m); [ | exact IH ].
    unfold pulse_module_unload.
    destruct (Pulse.mem_Z _ _); do 2 eexists;
      (split; [ reflexivity | ]); repeat split; auto.
Qed.

Lemma remove_sink_frame (i : Z) (w : World) :
  exists r w',
    _remove_sink i w = (r, w')
    /\ (r = Ok tt \/ r = Raise PulseError)
    /\ self w' = self w /\ dev w' = dev w /\ stdout w' = stdout w.
Proof.
  unfold _remove_sink, bind, pulse_connect, pulse_module_list.
  destruct (Pulse.connect_faults (pulse w)) as [ | [ | ] rest ].
  - destruct (Pulse.module_list_refused (pulse w)).
    + exists (Raise PulseError), w. repeat split. now right.
    + apply remove_sink_loop_frame.
  - do 2 eexists. split; [ reflexivity | ]. repeat split. now right.
  - cbn [pulse with_pulse].
    destruct (Pulse.module_list_refused _).
    + do 2 eexists. split; [ reflexivity | ]. repeat split. now right.
    + match goal with
      | |- context [_remove_sink_loop i ?ms ?w0] =>
          destruct (remove_sink_loop_frame i ms w0)
            as (r & w' & -> & Hr & Hs & Hd & Ho)
      end.
      exists r, w'. split; [ reflexivity | ]. repeat split; assumption.
Qed.

Lemma remove_virtual_sinks_frame (w : World) :
  exists r w',
    _remove_virtual_sinks w = (r, w')
    /\ (r = Ok tt /\ sink_bindings (self w') = 0%nat \/ r = Raise PulseError)
    /\ dev w' = dev w /\ stdout w' = stdout w
    /\ CLOSE (self w') = CLOSE (self w)
    /\ CHATMIX_CONTROLS_ENABLED (self w') = CHATMIX_CONTROLS_ENABLED (self w)
    /\ SONAR_ICON_ENABLED (self w') = SONAR_ICON_ENABLED (self w)
    /\ PW_ORIGINAL_SINK (self w') = PW_ORIGINAL_SINK (self w).
Proof.
  destruct w as [[orig g c ce se cl] d p out].
  unfold _remove_virtual_sinks, bind at 1, get_self.
  cbn [self PW_LOOPBACK_GAME_MODULE_ID].
  assert (Hchat : forall g' p',
    exists r w',
      (o <- get_self ;;
       match PW_LOOPBACK_CHAT_MODULE_ID o with
       | Some i => _remove_sink i ;; set_PW_LOOPBACK_CHAT_MODULE_ID None
       | None => ret tt
       end)
        (Build_World (Build_NovaProWireless orig g' c ce se cl) d p' out)
      = (r, w')
      /\ (r = Ok tt /\ PW_LOOPBACK_CHAT_MODULE_ID (self w') = None
          \/ r = Raise PulseError)
      /\ dev w' = d /\ stdout w' = out
      /\ CLOSE (self w') = cl
      /\ CHATMIX_CONTROLS_ENABLED (self w') = ce
      /\ SONAR_ICON_ENABLED (self w') = se
      /\ PW_ORIGINAL_SINK (self w') = orig
      /\ PW_LOOPBACK_GAME_MODULE_ID (self w') = g').
  { intros g' p'. unfold bind at 1, get_self.
    cbn [self PW_LOOPBACK_CHAT_MODULE_ID].
    destruct c as [ ci | ].
    - unfold bind.
      destruct (remove_sink_frame ci
                  (Build_World (Build_NovaProWireless orig g' (Some ci) ce se cl)
                     d p' out))
        as (r & w' & -> & [ -> | -> ] & Hs & Hd & Ho);
        destruct w' as [o' d' q' out']; cbn in Hs, Hd, Ho; subst;
        do 2 eexists; (split; [ reflexivity | ]); cbn;
        repeat split; auto.
    - do 2 eexists. split; [ reflexivity | ]. cbn. repeat split; auto. }
  destruct g as [ gi | ].
  - unfold bind at 1, bind at 1.
    destruct (remove_sink_frame gi
                (Build_World (Build_NovaProWireless orig (Some gi) c ce se cl)
                   d p out))
      as (r & w' & -> & [ -> | -> ] & Hs & Hd & Ho);
      destruct w' as [o' d' q' out']; cbn in Hs, Hd, Ho; subst.
    + unfold set_PW_LOOPBACK_GAME_MODULE_ID, modify_self, with_self.
      cbn [self dev pulse stdout PW_ORIGINAL_SINK PW_LOOPBACK_GAME_MODULE_ID
           PW_LOOPBACK_CHAT_MODULE_ID CHATMIX_CONTROLS_ENABLED
           SONAR_ICON_ENABLED CLOSE].
      destruct (Hchat None q')
        as (r & w' & Hrun & Hr & Hd & Ho & Hcl & Hce & Hse & Hor & Hg).
      exists r, w'. split; [ exact Hrun | ].
      unfold sink_bindings. rewrite Hg.
      repeat split; auto.
      destruct Hr as [ [-> Hc] | -> ]; [ left | now right ].
      now rewrite Hc.
    + do 2 eexists. split; [ reflexivity | ]. cbn. repeat split; auto.
  - unfold bind at 1. cbn [ret].
    destruct (Hchat None p)
      as (r & w' & Hrun & Hr & Hd & Ho & Hcl & Hce & Hse & Hor & Hg).
    exists r, w'. split; [ exact Hrun | ].
    unfold sink_bindings. rewrite Hg.
    repeat split; auto.
    destruct Hr as [ [-> Hc] | -> ]; [ left | now right ].
    now rewrite Hc.
Qed.

(** [_create_sink] returns the new module's index or raises [PulseError]
    (no connection) or [UnboundLocalError] (load refused); it never prints
    and never touches the object or the device. *)
Lemma create_sink_frame (sink_name : string) (out : option string) (w : World) :
  exists r w',
    _create_sink sink_name out w = (r, w')
    /\ match r with
       | Ok _ => True
       | Raise e => e = PulseError \/ e = UnboundLocalError
       end
    /\ self w' = self w /\ dev w' = dev w /\ stdout w' = stdout w.
Proof.
  unfold _create_sink, bind at 1, pulse_connect.
  destruct (Pulse.connect_faults (pulse w)) as [ | [ | ] rest ].
  - unfold try_except, bind, pulse_module_load, Pulse.module_load.
    destruct (Pulse.mem_string _ _); do 2 eexists;
      (split; [ reflexivity | ]); cbn; repeat split; auto.
  - do 2 eexists. split; [ reflexivity | ]. cbn. repeat split; auto.
  - unfold try_except, bind, pulse_module_load, Pulse.module_load.
    cbn [pulse with_pulse Pulse.connected Pulse.load_refused].
    destruct (Pulse.mem_string _ _); do 2 eexists;
      (split; [ reflexivity | ]); cbn; repeat split; auto.
Qed.

(** Whatever [_start_virtual_sinks] does, it leaves the device, the output,
    the flags and [CLOSE] alone, and it raises nothing but
    [UnboundLocalError] and [PulseError]. *)
Lemma start_frame (w : World) :
  exists r w',
    _start_virtual_sinks w = (r, w')
    /\ (r = Ok tt \/ r = Raise UnboundLocalError \/ r = Raise PulseError)
    /\ stdout w' = stdout w /\ dev w' = dev w
    /\ CLOSE (self w') = CLOSE (self w)
    /\ CHATMIX_CONTROLS_ENABLED (self w') = CHATMIX_CONTROLS_ENABLED (self w)
    /\ SONAR_ICON_ENABLED (self w') = SONAR_ICON_ENABLED (self w).
Proof.
  rewrite start_unfold. unfold bind at 1. rewrite detect_exact.
  match goal with
  | |- context [_remove_virtual_sinks ?w0] =>
      destruct (remove_virtual_sinks_frame w0)
        as (r0 & w0' & -> & Hr0 & Hd0 & Ho0 & Hc0 & Hce0 & Hse0 & _)
  end.
  cbn [self dev stdout CLOSE CHATMIX_CONTROLS_ENABLED SONAR_ICON_ENABLED]
    in Hd0, Ho0, Hc0, Hce0, Hse0.
  destruct Hr0 as [ [-> _] | -> ];
    [ | exists (Raise PulseError), w0'; repeat split; auto ].
  unfold bind at 1.
  destruct (create_sink_frame PW_GAME_SINK (PW_ORIGINAL_SINK (self w0')) w0')
    as (r1 & w1 & -> & Hr1 & Hs1 & Hd1 & Ho1).
  destruct r1 as [ gi | e1 ];
    [ | exists (Raise e1), w1; rewrite Hs1, Hd1, Ho1;
        repeat split; auto; destruct Hr1 as [ -> | -> ]; auto ].
  unfold bind at 1, set_PW_LOOPBACK_GAME_MODULE_ID, modify_self.
  unfold bind at 1, get_self. unfold bind at 1.
  match goal with
  | |- context [_create_sink PW_CHAT_SINK ?t ?w2] =>
      destruct (create_sink_frame PW_CHAT_SINK t w2)
        as (r2 & w3 & -> & Hr2 & Hs2 & Hd2 & Ho2)
  end.
  destruct w1 as [o1 d1 p1 out1]. cbn in Hs1, Hd1, Ho1, Hs2, Hd2, Ho2.
  destruct r2 as [ ci | e2 ].
  - do 2 eexists. split; [ reflexivity | ].
    unfold set_PW_LOOPBACK_CHAT_MODULE_ID, modify_self, with_self.
    cbn. rewrite Hs2, Hd2, Ho2. cbn. subst.
    repeat split; auto.
  - exists (Raise e2), w3. split; [ reflexivity | ].
    rewrite Hs2, Hd2, Ho2. cbn. subst.
    repeat split; auto. destruct Hr2 as [ -> | -> ]; auto.
Qed.

End StartupExact.

(** ** The loop of [chatmix], over many reads *)

Section ChatmixRuns.

Local Arguments _remove_virtual_sinks : simpl never.
Local Arguments _set_sink_volume : simpl never.
Local Arguments chatmix_round : simpl never.

Lemma other_opcodes_are_ignored_run
    (msg : list Z) (opt : Z) (rest : list Usb.read_outcome) (w : World) :
  Usb.rx_pending (dev w) = Usb.RxData msg :: rest ->
  nth_error msg 1 = Some opt ->
  opt <> OPT_CHATMIX ->
  chatmix_round w = (Ok tt, with_pending rest w).
Proof.
  destruct w as [o [rx tx tf] p out]. cbn [dev Usb.rx_pending].
  intros -> Hopt Hne.
  unfold chatmix_round, try_except, chatmix_try, bind, dev_read, lift, getitem.
  cbn [dev Usb.rx_pending]. rewrite Hopt.
  replace (opt =? OPT_CHATMIX) with false by (symmetry; now apply Z.eqb_neq).
  reflexivity.
Qed.

(** X16: a message whose opcode is not the ChatMix report's is ignored: the
    round consumes the read and changes nothing else, so volume, equalizer
    and unknown reports never touch the sinks. *)
Theorem other_opcodes_are_ignored
    (msg : list Z) (opt : Z) (rest : list Usb.read_outcome) (w : World) :
  Usb.rx_pending (dev w) = Usb.RxData msg :: rest ->
  nth_error msg 1 = Some opt ->
  opt <> OPT_CHATMIX ->
  chatmix_round w = (Ok tt, with_pending rest w)
  /\ self (with_pending rest w) = self w
  /\ pulse (with_pending rest w) = pulse w.
Proof.
  intros Hrx Hopt Hne. split; [ | split; reflexivity ].
  exact (other_opcodes_are_ignored_run msg opt rest w Hrx Hopt Hne).
Qed.

Lemma other_opcodes_are_ignored_witness :
  Usb.rx_pending
    (dev (with_next_read (Usb.RxData (volume_report RX 12)) running_world))
  = Usb.RxData (volume_report RX 12) :: []
  /\ nth_error (volume_report RX 12) 1 = Some OPT_VOLUME
  /\ OPT_VOLUME <> OPT_CHATMIX
  /\ chatmix_round
       (with_next_read (Usb.RxData (volume_report RX 12)) running_world)
     = (Ok tt,
        with_pending []
          (with_next_read (Usb.RxData (volume_report RX 12)) running_world))
  /\ self (with_pending []
             (with_next_read (Usb.RxData (volume_report RX 12)) running_world))
     = self (with_next_read (Usb.RxData (volume_report RX 12)) running_world)
  /\ pulse (with_pending []
              (with_next_read (Usb.RxData (volume_report RX 12)) running_world))
     = pulse (with_next_read (Usb.RxData (volume_report RX 12)) running_world).
Proof.
  split; [ reflexivity | ]. split; [ reflexivity | ].
  split; [ discriminate | ].
  apply (other_opcodes_are_ignored (volume_report RX 12) OPT_VOLUME []);
    [ reflexivity | reflexivity | discriminate ].
Defined.

Lemma chatmix_round_truncated
    (msg : list Z) (rest : list Usb.read_outcome) (w : World) :
  Usb.rx_pending (dev w) = Usb.RxData msg :: rest ->
  truncated msg = true ->
  chatmix_round w = (Raise IndexError, with_pending rest w).
Proof.
  destruct w as [o [rx tx tf] p out]. cbn [dev Usb.rx_pending].
  intros -> Htr.
  unfold chatmix_round, try_except, chatmix_try, bind, dev_read, lift, getitem.
  cbn [dev Usb.rx_pending]. unfold truncated in Htr.
  destruct msg as [ | d [ | opt [ | g [ | c more ] ] ] ];
    cbn [nth_error length] in *; try reflexivity;
    destruct (opt =? OPT_CHATMIX); cbn in Htr; try discriminate;
    reflexivity.
Qed.

(** X17: a message too short to index (no opcode byte, or a ChatMix report
    without both data bytes) makes the round raise [IndexError], which no
    handler of [chatmix] catches: the loop is left by the exception, before
    any volume is set, with [CLOSE] unset and the virtual sinks still
    there. *)
Theorem truncated_message_escapes_the_loop
    (msg : list Z) (rest : list Usb.read_outcome) (w : World) (fuel : nat) :
  Usb.rx_pending (dev w) = Usb.RxData msg :: rest ->
  truncated msg = true ->
  CLOSE (self w) = false ->
  chatmix_loop (S fuel) w = (Raise IndexError, with_pending rest w)
  /\ self (with_pending rest w) = self w
  /\ pulse (with_pending rest w) = pulse w.
Proof.
  intros Hrx Htr Hrun. split; [ | split; reflexivity ].
  unfold chatmix_loop, bind. cbn [while_not_CLOSE]. rewrite Hrun.
  now rewrite (chatmix_round_truncated msg rest w Hrx Htr).
Qed.

Lemma truncated_message_escapes_the_loop_witness :
  Usb.rx_pending
    (dev (with_next_read (Usb.RxData [RX; OPT_CHATMIX; 80]) running_world))
  = Usb.RxData [RX; OPT_CHATMIX; 80] :: []
  /\ truncated [RX; OPT_CHATMIX; 80] = true
  /\ CLOSE (self (with_next_read (Usb.RxData [RX; OPT_CHATMIX; 80])
                    running_world)) = false
  /\ chatmix_loop 3
       (with_next_read (Usb.RxData [RX; OPT_CHATMIX; 80]) running_world)
     = (Raise IndexError,
        with_pending []
          (with_next_read (Usb.RxData [RX; OPT_CHATMIX; 80]) running_world))
  /\ sink_bindings
       (self (with_pending []
                (with_next_read (Usb.RxData [RX; OPT_CHATMIX; 80])
                   running_world))) = 2%nat.
Proof.
  split; [ reflexivity | ]. split; [ reflexivity | ].
  split; [ reflexivity | ].
  split; [ | reflexivity ].
  apply (truncated_message_escapes_the_loop [RX; OPT_CHATMIX; 80] []
           (with_next_read (Usb.RxData [RX; OPT_CHATMIX; 80]) running_world) 2);
    reflexivity.
Defined.

(** A round on a benign read, on a server that can be reached: it raises
    nothing and keeps the object, the modules and the write log. *)
Lemma chatmix_round_benign
    (r : Usb.read_outcome) (rest : list Usb.read_outcome) (w : World) :
  Usb.rx_pending (dev w) = r :: rest ->
  benign r = true ->
  Pulse.connect_faults (pulse w) = [] ->
  exists w',
    chatmix_round w = (Ok tt, w')
    /\ self w' = self w
    /\ Usb.rx_pending (dev w') = rest
    /\ Usb.tx_log (dev w') = Usb.tx_log (dev w)
    /\ Pulse.modules (pulse w') = Pulse.modules (pulse w)
    /\ Pulse.connect_faults (pulse w') = []
    /\ answers (pulse w') = answers (pulse w).
Proof.
  intros Hrx Hb Hcon.
  destruct r as [ msg | | ]; [ | | discriminate ].
  - unfold benign in Hb.
    destruct (nth_error msg 1) as [ opt | ] eqn:Hopt; [ | discriminate ].
    destruct (Z.eq_dec opt OPT_CHATMIX) as [ -> | Hne ].
    + rewrite Z.eqb_refl in Hb. apply Nat.leb_le in Hb.
      destruct msg as [ | d [ | opt [ | g [ | c more ] ] ] ];
        cbn [length] in Hb; try lia.
      cbn [nth_error] in Hopt. injection Hopt as ->.
      rewrite (chatmix_round_report d g c more rest w Hrx Hcon).
      eexists. split; [ reflexivity | ].
      cbn [self dev pulse Usb.rx_pending Usb.tx_log].
      rewrite !answers_volume_applied.
      repeat match goal with
             | |- context [volume_applied ?m ?v ?q] =>
                 let H := fresh in
                 pose proof (volume_applied_frame m v q) as H;
                 destruct H as (-> & _ & _ & _ & _ & -> & _)
             end.
      repeat split. exact Hcon.
    + rewrite (other_opcodes_are_ignored_run msg opt rest w Hrx Hopt Hne).
      eexists. split; [ reflexivity | ].
      destruct w as [o [rx tx tf] p out]. repeat split. exact Hcon.
  - destruct w as [o [rx tx tf] p out]. cbn [dev Usb.rx_pending] in Hrx.
    subst rx.
    exists (Build_World o (Usb.Build_device rest tx tf) p out).
    split; [ reflexivity | ]. repeat split. exact Hcon.
Qed.

(** X18: on timeouts and well-formed messages the loop just goes on, as
    long as the audio server can be reached.  With [CLOSE] unset and
    nothing but such reads pending, [fuel] rounds make [fuel] reads and the
    loop is still iterating: nothing is raised, the object keeps its flags,
    its target and both Sink Bindings, no module is loaded or unloaded, and
    nothing is written to the device. *)
Theorem benign_reads_keep_the_loop_going (fuel : nat) (w : World) :
  CLOSE (self w) = false ->
  forallb benign (Usb.rx_pending (dev w)) = true ->
  Pulse.connect_faults (pulse w) = [] ->
  exists w',
    chatmix_loop fuel w = (Ok Iterating, w')
    /\ self w' = self w
    /\ Usb.rx_pending (dev w') = skipn fuel (Usb.rx_pending (dev w))
    /\ Usb.tx_log (dev w') = Usb.tx_log (dev w)
    /\ Pulse.modules (pulse w') = Pulse.modules (pulse w).
Proof.
  intros Hrun Hall Hcon.
  assert (Hloop : exists w',
            while_not_CLOSE fuel chatmix_round w = (Ok Iterating, w')
            /\ self w' = self w
            /\ Usb.rx_pending (dev w') = skipn fuel (Usb.rx_pending (dev w))
            /\ Usb.tx_log (dev w') = Usb.tx_log (dev w)
            /\ Pulse.modules (pulse w') = Pulse.modules (pulse w)).
  { revert w Hrun Hall Hcon.
    induction fuel as [ | n IH ]; intros w Hrun Hall Hcon.
    - cbn [while_not_CLOSE]. rewrite Hrun. exists w. repeat split.
    - cbn [while_not_CLOSE]. rewrite Hrun.
      destruct (Usb.rx_pending (dev w)) as [ | r rest ] eqn:Hrx.
      + rewrite (chatmix_round_silence w Hrx).
        destruct (IH w Hrun) as (w' & Hw' & Hs & Hp & Ht & Hm);
          [ now rewrite Hrx | exact Hcon | ].
        exists w'. rewrite Hrx in Hp. now destruct n.
      + cbn [forallb] in Hall. apply andb_true_iff in Hall.
        destruct Hall as [Hr Hrest].
        destruct (chatmix_round_benign r rest w Hrx Hr Hcon)
          as (w1 & -> & Hs1 & Hp1 & Ht1 & Hm1 & Hc1 & _).
        destruct (IH w1) as (w' & Hw' & Hs & Hp & Ht & Hm);
          [ now rewrite Hs1 | now rewrite Hp1 | exact Hc1 | ].
        exists w'. rewrite Hw', Hs, Hp, Ht, Hm, Hs1, Hp1, Ht1, Hm1.
        repeat split. }
  destruct Hloop as (w' & Hw' & Hrest).
  exists w'. unfold chatmix_loop, bind. now rewrite Hw'.
Qed.

Lemma benign_reads_keep_the_loop_going_witness :
  CLOSE (self (with_pending
                 [ Usb.RxTimeout; Usb.RxData (chatmix_report RX 80 30);
                   Usb.RxData (volume_report RX 12) ] running_world)) = false
  /\ forallb benign
       (Usb.rx_pending
          (dev (with_pending
                  [ Usb.RxTimeout; Usb.RxData (chatmix_report RX 80 30);
                    Usb.RxData (volume_report RX 12) ] running_world))) = true
  /\ Pulse.connect_faults
       (pulse (with_pending
                 [ Usb.RxTimeout; Usb.RxData (chatmix_report RX 80 30);
                   Usb.RxData (volume_report RX 12) ] running_world)) = []
  /\ exists w',
       chatmix_loop 5
         (with_pending
            [ Usb.RxTimeout; Usb.RxData (chatmix_report RX 80 30);
              Usb.RxData (volume_report RX 12) ] running_world)
       = (Ok Iterating, w')
       /\ sink_bindings (self w') = 2%nat
       /\ Usb.rx_pending (dev w') = [].
Proof.
  split; [ reflexivity | ]. split; [ reflexivity | ].
  split; [ reflexivity | ].
  destruct (benign_reads_keep_the_loop_going 5
              (with_pending
                 [ Usb.RxTimeout; Usb.RxData (chatmix_report RX 80 30);
                   Usb.RxData (volume_report RX 12) ] running_world))
    as (w' & Hrun & Hself & Hrx & _);
    [ reflexivity | reflexivity | reflexivity | ].
  exists w'. split; [ exact Hrun | ]. split.
  - rewrite Hself. reflexivity.
  - rewrite Hrx. reflexivity.
Defined.

(** The loop, from benign reads to the first fatal one, on a server that
    answers. *)
Lemma loop_runs_to_fatal
    (pre post : list Usb.read_outcome) (fuel : nat) (w : World) :
  Usb.rx_pending (dev w) = pre ++ Usb.RxError :: post ->
  forallb benign pre = true ->
  CLOSE (self w) = false ->
  answers (pulse w) = true ->
  (length pre < fuel)%nat ->
  exists w',
    while_not_CLOSE fuel chatmix_round w = (Ok Exited, w')
    /\ PW_LOOPBACK_GAME_MODULE_ID (self w') = None
    /\ PW_LOOPBACK_CHAT_MODULE_ID (self w') = None
    /\ CLOSE (self w') = true
    /\ CHATMIX_CONTROLS_ENABLED (self w') = CHATMIX_CONTROLS_ENABLED (self w)
    /\ SONAR_ICON_ENABLED (self w') = SONAR_ICON_ENABLED (self w)
    /\ Usb.rx_pending (dev w') = post
    /\ Usb.tx_log (dev w') = Usb.tx_log (dev w)
    /\ Pulse.modules (pulse w')
       = filter (fun m => negb (is_binding (self w) (Pulse.index m)))
           (Pulse.modules (pulse w))
    /\ PW_ORIGINAL_SINK (self w') = PW_ORIGINAL_SINK (self w).
Proof.
  revert fuel w.
  induction pre as [ | r pre IH ]; intros fuel w Hrx Hpre Hrun Hans Hfuel.
  - destruct fuel as [ | n ]; [ cbn in Hfuel; lia | ].
    cbn [while_not_CLOSE]. rewrite Hrun.
    rewrite (chatmix_round_fatal_exact post w Hrx Hans).
    eexists.
    split; [ destruct n; cbn [while_not_CLOSE]; reflexivity | ].
    cbn [self dev pulse Usb.rx_pending Usb.tx_log PW_LOOPBACK_GAME_MODULE_ID
         PW_LOOPBACK_CHAT_MODULE_ID CHATMIX_CONTROLS_ENABLED
         SONAR_ICON_ENABLED CLOSE PW_ORIGINAL_SINK].
    repeat split. apply torn_down_modules.
  - destruct fuel as [ | n ]; [ cbn in Hfuel; lia | ].
    cbn [while_not_CLOSE]. rewrite Hrun.
    cbn [forallb] in Hpre. apply andb_true_iff in Hpre.
    destruct Hpre as [Hr Hpre].
    destruct (answers_inv _ Hans) as (Hcon & _).
    destruct (chatmix_round_benign r (pre ++ Usb.RxError :: post) w Hrx Hr Hcon)
      as (w1 & -> & Hs1 & Hp1 & Ht1 & Hm1 & _ & Ha1).
    destruct (IH n w1 Hp1 Hpre) as (w' & Hw' & Hg & Hc & Hcl & Hce & Hse
                                     & Hp & Ht & Hm & Ho);
      [ now rewrite Hs1 | now rewrite Ha1 | cbn [length] in Hfuel; lia | ].
    exists w'. rewrite Hw', Hce, Hse, Ht, Hm, Ho, Hs1, Ht1, Hm1.
    repeat split; assumption.
Qed.

(** X19: the loop ends at the first fatal read error.  When the audio
    server answers, the pending reads are benign up to a [USBError] that
    is not a timeout, and there is fuel to reach it, [chatmix]'s loop exits
    with [CLOSE] set and no Sink Binding; the reads after the error stay
    unread, the modules of the bindings are unloaded, the feature flags are
    as before and nothing has been written to the device (no disable
    command is sent). *)
Theorem loop_ends_at_first_fatal_error
    (pre post : list Usb.read_outcome) (fuel : nat) (w : World) :
  Usb.rx_pending (dev w) = pre ++ Usb.RxError :: post ->
  forallb benign pre = true ->
  CLOSE (self w) = false ->
  answers (pulse w) = true ->
  (length pre < fuel)%nat ->
  exists w',
    chatmix_loop fuel w = (Ok Exited, w')
    /\ sink_bindings (self w') = 0%nat
    /\ CLOSE (self w') = true
    /\ CHATMIX_CONTROLS_ENABLED (self w') = CHATMIX_CONTROLS_ENABLED (self w)
    /\ SONAR_ICON_ENABLED (self w') = SONAR_ICON_ENABLED (self w)
    /\ Usb.rx_pending (dev w') = post
    /\ Usb.tx_log (dev w') = Usb.tx_log (dev w)
    /\ (forall i, is_binding (self w) i = true ->
                  module_loaded i (pulse w') = false).
Proof.
  intros Hrx Hpre Hrun Hans Hfuel.
  destruct (loop_runs_to_fatal pre post fuel w Hrx Hpre Hrun Hans Hfuel)
    as (w' & Hw' & Hg & Hc & Hcl & Hce & Hse & Hp & Ht & Hm & _).
  exists w'. unfold chatmix_loop, bind. rewrite Hw'.
  rewrite (remove_virtual_sinks_idle w' Hg Hc).
  split; [ reflexivity | ]. unfold sink_bindings. rewrite Hg, Hc.
  repeat split; try assumption.
  intros i Hi. unfold module_loaded. rewrite Hm.
  now apply module_loaded_filtered.
Qed.

Lemma loop_ends_at_first_fatal_error_witness :
  Usb.rx_pending
    (dev (with_pending
            [ Usb.RxData (chatmix_report RX 80 30); Usb.RxTimeout;
              Usb.RxError; Usb.RxData (volume_report RX 12) ] enabled_world))
  = [ Usb.RxData (chatmix_report RX 80 30); Usb.RxTimeout ]
    ++ Usb.RxError :: [ Usb.RxData (volume_report RX 12) ]
  /\ forallb benign [ Usb.RxData (chatmix_report RX 80 30); Usb.RxTimeout ]
     = true
  /\ answers
       (pulse (with_pending
                 [ Usb.RxData (chatmix_report RX 80 30); Usb.RxTimeout;
                   Usb.RxError; Usb.RxData (volume_report RX 12) ]
                 enabled_world)) = true
  /\ exists w',
       chatmix_loop 3
         (with_pending
            [ Usb.RxData (chatmix_report RX 80 30); Usb.RxTimeout;
              Usb.RxError; Usb.RxData (volume_report RX 12) ] enabled_world)
       = (Ok Exited, w')
       /\ sink_bindings (self w') = 0%nat
       /\ Usb.rx_pending (dev w') = [ Usb.RxData (volume_report RX 12) ]
       /\ CHATMIX_CONTROLS_ENABLED (self w') = true
       /\ SONAR_ICON_ENABLED (self w') = true.
Proof.
  split; [ reflexivity | ]. split; [ reflexivity | ].
  split; [ reflexivity | ].
  destruct (loop_ends_at_first_fatal_error
              [ Usb.RxData (chatmix_report RX 80 30); Usb.RxTimeout ]
              [ Usb.RxData (volume_report RX 12) ] 3
              (with_pending
                 [ Usb.RxData (chatmix_report RX 80 30); Usb.RxTimeout;
                   Usb.RxError; Usb.RxData (volume_report RX 12) ]
                 enabled_world))
    as (w' & Hrun & Hb & _ & Hce & Hse & Hrx & _);
    [ reflexivity | reflexivity | reflexivity | reflexivity | cbn; lia | ].
  exists w'. repeat split; assumption.
Defined.

(** X20: once [CLOSE] is set the loop never runs again.  [chatmix] called
    with [CLOSE] set makes no read at all and prints nothing: if it gets
    through creating the sinks and the teardown that follows at once, it
    returns with no Sink Binding; otherwise it is left by the
    [UnboundLocalError] of a refused load or by a [PulseError] of the
    server.  Nothing in the class ever resets [CLOSE]. *)
Theorem chatmix_after_close_reads_nothing (fuel : nat) (w : World) :
  CLOSE (self w) = true ->
  exists r w',
    chatmix fuel w = (r, w')
    /\ dev w' = dev w
    /\ stdout w' = stdout w
    /\ CLOSE (self w') = true
    /\ (r = Ok Exited /\ sink_bindings (self w') = 0%nat
        \/ r = Raise UnboundLocalError
        \/ r = Raise PulseError).
Proof.
  intros Hclose. unfold chatmix, bind at 1.
  destruct (start_frame w) as (r & w1 & -> & Hr & Ho & Hd & Hc & _).
  destruct Hr as [ -> | [ -> | -> ] ].
  - unfold chatmix_loop, bind.
    replace (while_not_CLOSE fuel chatmix_round w1) with (Ok Exited, w1)
      by (destruct fuel; cbn [while_not_CLOSE]; now rewrite Hc, Hclose).
    destruct (remove_virtual_sinks_frame w1)
      as (r2 & w2 & -> & Hr2 & Hd2 & Ho2 & Hc2 & _).
    destruct Hr2 as [ [-> Hb] | -> ].
    + exists (Ok Exited), w2. split; [ reflexivity | ].
      rewrite Hd2, Ho2, Hc2, Hd, Ho, Hc, Hclose. repeat split. now left.
    + exists (Raise PulseError), w2. split; [ reflexivity | ].
      rewrite Hd2, Ho2, Hc2, Hd, Ho, Hc, Hclose. repeat split. auto.
  - do 2 eexists. split; [ reflexivity | ].
    rewrite Hc, Hclose, Hd, Ho. repeat split. auto.
  - do 2 eexists. split; [ reflexivity | ].
    rewrite Hc, Hclose, Hd, Ho. repeat split. auto.
Qed.

Lemma chatmix_after_close_reads_nothing_witness :
  CLOSE (self (snd (close (with_pending [ Usb.RxData (chatmix_report RX 80 30) ]
                             enabled_world)))) = true
  /\ exists r w',
       chatmix 4
         (snd (close (with_pending [ Usb.RxData (chatmix_report RX 80 30) ]
                        enabled_world)))
       = (r, w')
       /\ Usb.rx_pending (dev w') = [ Usb.RxData (chatmix_report RX 80 30) ]
       /\ (r = Ok Exited /\ sink_bindings (self w') = 0%nat
           \/ r = Raise UnboundLocalError
           \/ r = Raise PulseError).
Proof.
  split; [ reflexivity | ].
  destruct (chatmix_after_close_reads_nothing 4
              (snd (close (with_pending
                             [ Usb.RxData (chatmix_report RX 80 30) ]
                             enabled_world))))
    as (r & w' & Hrun & Hd & _ & _ & Hr); [ reflexivity | ].
  exists r, w'. split; [ exact Hrun | ]. split; [ | exact Hr ].
  rewrite Hd. reflexivity.
Defined.

Lemma filter_keeps_where {A} (f : A -> bool) (l : list A) :
  (forall x, In x l -> f x = true) -> filter f l = l.
Proof.
  induction l as [ | a l IH ]; intros Hall; [ reflexivity | ].
  cbn [filter]. rewrite (Hall a (or_introl eq_refl)).
  f_equal. apply IH. intros x Hx. apply Hall. now right.
Qed.

(** X25: a whole run leaks nothing.  Started idle on a server that answers,
    accepts both loads and whose module indexes are all below the next
    one, [chatmix] runs through benign reads up to a fatal read error and
    returns normally with no Sink Binding, the server's module list being
    exactly what it was before the start; the reads after the error are
    left, and nothing was written to the device. *)
Theorem chatmix_run_restores_the_modules
    (pre post : list Usb.read_outcome) (fuel : nat) (w : World) :
  PW_LOOPBACK_GAME_MODULE_ID (self w) = None ->
  PW_LOOPBACK_CHAT_MODULE_ID (self w) = None ->
  CLOSE (self w) = false ->
  answers (pulse w) = true ->
  Pulse.mem_string (combine_sink_argument PW_GAME_SINK (detected_target w))
    (Pulse.load_refused (pulse w)) = false ->
  Pulse.mem_string (combine_sink_argument PW_CHAT_SINK (detected_target w))
    (Pulse.load_refused (pulse w)) = false ->
  (forall m, In m (Pulse.modules (pulse w)) ->
             Pulse.index m < Pulse.next_module (pulse w)) ->
  Usb.rx_pending (dev w) = pre ++ Usb.RxError :: post ->
  forallb benign pre = true ->
  (length pre < fuel)%nat ->
  exists w',
    chatmix fuel w = (Ok Exited, w')
    /\ sink_bindings (self w') = 0%nat
    /\ Pulse.modules (pulse w') = Pulse.modules (pulse w)
    /\ PW_ORIGINAL_SINK (self w') = detected_target w
    /\ CLOSE (self w') = true
    /\ Usb.rx_pending (dev w') = post
    /\ Usb.tx_log (dev w') = Usb.tx_log (dev w).
Proof.
  intros Hg Hc Hrun Hans Hgame Hchat Hfresh Hrx Hpre Hfuel.
  unfold chatmix, bind at 1.
  rewrite (start_accepted_exact w Hans Hgame Hchat).
  match goal with
  | |- context [chatmix_loop fuel ?w0] => set (w1 := w0)
  end.
  destruct (loop_runs_to_fatal pre post fuel w1 Hrx Hpre Hrun eq_refl Hfuel)
    as (w' & Hw' & Hg' & Hc' & Hcl & _ & _ & Hp & Ht & Hm & Ho).
  exists w'. unfold chatmix_loop, bind. rewrite Hw'.
  rewrite (remove_virtual_sinks_idle w' Hg' Hc').
  split; [ reflexivity | ]. unfold sink_bindings. rewrite Hg', Hc'.
  split; [ reflexivity | ]. split.
  - rewrite Hm. subst w1.
    cbn [self pulse Pulse.modules].
    assert (Hidle : Pulse.modules (torn_down (self w) (pulse w))
                    = Pulse.modules (pulse w)).
    { rewrite torn_down_modules. apply filter_keeps_where.
      intros m _. unfold is_binding. now rewrite Hg, Hc. }
    rewrite Hidle, !filter_app.
    unfold is_binding at 2 3.
    cbn [filter Pulse.index PW_LOOPBACK_GAME_MODULE_ID
         PW_LOOPBACK_CHAT_MODULE_ID].
    rewrite !Z.eqb_refl, orb_true_r. cbn [orb negb app].
    rewrite !app_nil_r. apply filter_keeps_where.
    intros m Hin. specialize (Hfresh m Hin). unfold is_binding.
    cbn [PW_LOOPBACK_GAME_MODULE_ID PW_LOOPBACK_CHAT_MODULE_ID].
    apply negb_true_iff, orb_false_iff. split; apply Z.eqb_neq; lia.
  - rewrite Ho. repeat split; assumption.
Qed.

Lemma chatmix_run_restores_the_modules_witness :
  PW_LOOPBACK_GAME_MODULE_ID (self desktop_world) = None
  /\ PW_LOOPBACK_CHAT_MODULE_ID (self desktop_world) = None
  /\ CLOSE (self desktop_world) = false
  /\ answers (pulse desktop_world) = true
  /\ Usb.rx_pending (dev desktop_world)
     = [ Usb.RxData (chatmix_report RX 80 30); Usb.RxTimeout ]
       ++ Usb.RxError :: [ Usb.RxData (volume_report RX 12) ]
  /\ exists w',
       chatmix 3 desktop_world = (Ok Exited, w')
       /\ sink_bindings (self w') = 0%nat
       /\ Pulse.modules (pulse w') = Pulse.modules (pulse desktop_world)
       /\ PW_ORIGINAL_SINK (self w') = Some (Pulse.sink_name headset_sink)
       /\ Usb.rx_pending (dev w') = [ Usb.RxData (volume_report RX 12) ].
Proof.
  split; [ reflexivity | ]. split; [ reflexivity | ].
  split; [ reflexivity | ]. split; [ reflexivity | ].
  split; [ reflexivity | ].
  destruct (chatmix_run_restores_the_modules
              [ Usb.RxData (chatmix_report RX 80 30); Usb.RxTimeout ]
              [ Usb.RxData (volume_report RX 12) ] 3 desktop_world)
    as (w' & Hrun & Hb & Hm & Ho & _ & Hrx & _);
    try reflexivity.
  - intros m [ <- | [ <- | [] ] ]; cbn; lia.
  - cbn. lia.
  - exists w'. split; [ exact Hrun | ]. split; [ exact Hb | ].
    split; [ exact Hm | ]. split; [ | exact Hrx ].
    rewrite Ho. reflexivity.
Defined.

End ChatmixRuns.

(** ** The status printer *)

Section StatusPrinter.

Local Arguments print_message : simpl never.

Ltac split_reads :=
  repeat match goal with
         | |- context [match nth_error ?l ?n with _ => _ end] =>
             destruct (nth_error l n)
         | |- context [if ?b then _ else _] => destruct b
         end.

Lemma print_message_frame (msg : list Z) (w : World) :
  exists r w',
    print_message msg w = (r, w')
    /\ (r = Ok tt \/ r = Raise IndexError)
    /\ self w' = self w /\ dev w' = dev w /\ pulse w' = pulse w.
Proof.
  unfold print_message, bind, lift, getitem, print.
  split_reads; do 2 eexists; (split; [ reflexivity | ]);
    repeat split; auto.
Qed.

Lemma print_output_round_frame (debug : bool) (w : World) :
  exists r w',
    print_output_round debug w = (r, w')
    /\ (r = Ok tt \/ r = Raise USBError \/ r = Raise IndexError)
    /\ self w' = self w /\ pulse w' = pulse w
    /\ Usb.tx_log (dev w') = Usb.tx_log (dev w).
Proof.
  destruct w as [o [rx tx tf] p out].
  unfold print_output_round, try_except, print_output_try, bind at 1, dev_read.
  cbn [dev Usb.rx_pending].
  destruct rx as [ | [ msg | | ] rest ].
  - do 2 eexists. split; [ reflexivity | ]. repeat split; auto.
  - unfold with_dev. cbn [self dev pulse stdout Usb.tx_log Usb.tx_outcomes].
    unfold bind at 1.
    assert (Hw0 : exists out0,
              (if debug then print (PrintRaw msg) else ret tt)
                (Build_World o (Usb.Build_device rest tx tf) p out)
              = (Ok tt, Build_World o (Usb.Build_device rest tx tf) p out0))
      by (destruct debug; eexists; reflexivity).
    destruct Hw0 as (out0 & ->).
    destruct (print_message_frame msg
                (Build_World o (Usb.Build_device rest tx tf) p out0))
      as (r & w' & -> & Hr & Hs & Hd & Hp).
    destruct Hr as [ -> | -> ]; do 2 eexists; (split; [ reflexivity | ]);
      rewrite Hs, Hd, Hp; repeat split; auto.
  - do 2 eexists. split; [ reflexivity | ]. repeat split; auto.
  - do 2 eexists. split; [ reflexivity | ]. repeat split; auto.
Qed.

(** X21: [print_output] only reads and prints.  However long it runs and
    whatever it reads, it leaves the object (flags, bindings, [CLOSE]) and
    the audio server untouched and writes nothing to the device; it can
    stop only by an exception, [USBError] or [IndexError], unless [CLOSE]
    was already set. *)
Theorem print_output_only_prints (debug : bool) (fuel : nat) (w : World) :
  exists r w',
    print_output debug fuel w = (r, w')
    /\ self w' = self w /\ pulse w' = pulse w
    /\ Usb.tx_log (dev w') = Usb.tx_log (dev w)
    /\ (r = Ok Exited /\ CLOSE (self w) = true /\ w' = w
        \/ r = Ok Iterating \/ r = Raise USBError \/ r = Raise IndexError).
Proof.
  unfold print_output. revert w.
  induction fuel as [ | n IH ]; intros w; cbn [while_not_CLOSE].
  - destruct (CLOSE (self w)) eqn:Hc; do 2 eexists;
      (split; [ reflexivity | ]); repeat split; auto.
  - destruct (CLOSE (self w)) eqn:Hc.
    + do 2 eexists. split; [ reflexivity | ]. repeat split; auto.
    + destruct (print_output_round_frame debug w)
        as (r1 & w1 & -> & Hr1 & Hs1 & Hp1 & Ht1).
      destruct Hr1 as [ -> | [ -> | -> ] ].
      * destruct (IH w1) as (r & w' & -> & Hs & Hp & Ht & Hr).
        exists r, w'. split; [ reflexivity | ].
        rewrite Hs, Hp, Ht, Hs1, Hp1, Ht1. repeat split.
        destruct Hr as [ (_ & Hcl & _) | Hr ]; [ | now right ].
        rewrite Hs1, Hc in Hcl. discriminate.
      * do 2 eexists. split; [ reflexivity | ]. repeat split; auto.
      * do 2 eexists. split; [ reflexivity | ]. repeat split; auto.
Qed.

(** X22: unlike [chatmix], [print_output] has no handler for a fatal read
    error: a [USBError] that is not a timeout leaves [print_output] as an
    exception, with [CLOSE] still unset and nothing printed, while a
    timeout is swallowed and the loop goes on. *)
Theorem print_output_raises_fatal_errors
    (debug : bool) (fuel : nat) (rest : list Usb.read_outcome) (w : World) :
  CLOSE (self w) = false ->
  (Usb.rx_pending (dev w) = Usb.RxError :: rest ->
   print_output debug (S fuel) w = (Raise USBError, with_pending rest w))
  /\ (Usb.rx_pending (dev w) = Usb.RxTimeout :: rest ->
      print_output debug (S fuel) w
      = print_output debug fuel (with_pending rest w)).
Proof.
  intros Hrun. destruct w as [o [rx tx tf] p out].
  cbn [self dev Usb.rx_pending] in *.
  split; intros ->; unfold print_output; cbn [while_not_CLOSE self];
    rewrite Hrun; reflexivity.
Qed.

Lemma print_output_raises_fatal_errors_witness :
  CLOSE (self running_world) = false
  /\ print_output true 2 (with_pending [ Usb.RxError ] running_world)
     = (Raise USBError, running_world)
  /\ print_output true 2 (with_pending [ Usb.RxTimeout ] running_world)
     = (Ok Iterating, running_world).
Proof.
  split; [ reflexivity | ].
  destruct (print_output_raises_fatal_errors true 1 []
              (with_pending [ Usb.RxError ] running_world) eq_refl)
    as [Herr _].
  destruct (print_output_raises_fatal_errors true 1 []
              (with_pending [ Usb.RxTimeout ] running_world) eq_refl)
    as [_ Htime].
  split.
  - rewrite (Herr eq_refl). reflexivity.
  - rewrite (Htime eq_refl). reflexivity.
Defined.

(** X23: an unknown opcode is not an error.  For a message with an opcode
    byte that is none of the four known ones, the [match] prints
    ["Unknown Message"] and reads no data byte, however short the message
    is; with no opcode byte at all it raises [IndexError]. *)
Theorem unknown_opcode_is_printed (msg : list Z) (opt : Z) (w : World) :
  (nth_error msg 1 = Some opt ->
   opt <> OPT_VOLUME -> opt <> OPT_CHATMIX ->
   opt <> OPT_EQ -> opt <> OPT_EQ_PRESET ->
   print_message msg w = print PrintUnknown w)
  /\ (nth_error msg 1 = None -> print_message msg w = (Raise IndexError, w)).
Proof.
  unfold print_message, bind, lift, getitem. split.
  - intros -> Hv Hc He Hp.
    rewrite <- Z.eqb_neq in Hv, Hc, He, Hp. now rewrite Hv, Hc, He, Hp.
  - intros ->. reflexivity.
Qed.

End StatusPrinter.
